(** * AI-sorter: the batch classification engine of [main.js]

    A shallow embedding of the plugin's [sortNotes], [performSort],
    [classifyAndMoveNote], [classifyNote] and the three provider adapters,
    together with the properties of the batch engine.

    The host application (the vault, the network and the event loop) is an
    arbitrary state machine behind the [Host] interface; every call the
    plugin issues to it is recorded in a trace of events, at the moment the
    call is issued.  Inside one task [await] is sequential composition.  The
    tasks of one window run concurrently: [batch.map] starts them in order,
    each up to its first [await], and from then on the event loop resumes
    them in an order of its own, one step at a time. *)

From Stdlib Require Import String Ascii.
From Stdlib Require Import List NArith ZArith Arith Bool Lia Permutation.
Import ListNotations.

Set Implicit Arguments.

(** ** JavaScript values *)

Module JS.

(** A JavaScript string is a sequence of UTF-16 code units. *)
Definition jsstring := list N.

(** A string literal of the source (ASCII only). *)
Definition str (s : string) : jsstring :=
  map N_of_ascii (list_ascii_of_string s).

Fixpoint string_eqb (a b : jsstring) : bool :=
  match a, b with
  | [], [] => true
  | x :: a', y :: b' => N.eqb x y && string_eqb a' b'
  | _, _ => false
  end.

(** [!!s] for a string: only the empty string is falsy. *)
Definition truthy (s : jsstring) : bool :=
  match s with [] => false | _ :: _ => true end.

(** WhiteSpace and LineTerminator code points of ECMAScript, the ones
    [String.prototype.trim] strips. *)
Definition is_white_space (c : N) : bool :=
  (N.leb 9 c && N.leb c 13)            (* TAB LF VT FF CR *)
  || N.eqb c 32                        (* SP *)
  || N.eqb c 160                       (* NBSP *)
  || N.eqb c 5760                      (* U+1680 *)
  || (N.leb 8192 c && N.leb c 8202)    (* U+2000 .. U+200A *)
  || N.eqb c 8232 || N.eqb c 8233      (* LS PS *)
  || N.eqb c 8239 || N.eqb c 8287      (* U+202F U+205F *)
  || N.eqb c 12288                     (* U+3000 *)
  || N.eqb c 65279.                    (* U+FEFF *)

Fixpoint trimStart (s : jsstring) : jsstring :=
  match s with
  | [] => []
  | c :: r => if is_white_space c then trimStart r else s
  end.

Definition trimEnd (s : jsstring) : jsstring := rev (trimStart (rev s)).

Definition trim (s : jsstring) : jsstring := trimEnd (trimStart s).

(** [s.includes(c)] for a one-character needle. *)
Definition includes_char (s : jsstring) (c : N) : bool := existsb (N.eqb c) s.

Fixpoint startsWith (s p : jsstring) : bool :=
  match p, s with
  | [], _ => true
  | x :: p', y :: s' => N.eqb x y && startsWith s' p'
  | _ :: _, [] => false
  end.

(** [s.substring(0, n)] *)
Definition substring0 (s : jsstring) (n : nat) : jsstring := firstn n s.

(** [a.includes(x)] on an array of strings (strict equality). *)
Definition includes (a : list jsstring) (x : jsstring) : bool :=
  existsb (string_eqb x) a.

(** [a.join(sep)] *)
Fixpoint join (sep : jsstring) (a : list jsstring) : jsstring :=
  match a with
  | [] => []
  | [x] => x
  | x :: rest => x ++ sep ++ join sep rest
  end.

(** [a.slice(i, j)] for non-negative integer [i] and [j]. *)
Definition slice {A} (a : list A) (i j : nat) : list A :=
  firstn (j - i) (skipn i a).

(** Parsed JSON, as far as the adapters look into it.  Numbers are kept as
    integers: only their truthiness is ever observed. *)
#[local] Unset Elimination Schemes.
Inductive json :=
| JUndefined
| JNull
| JBool (b : bool)
| JNumber (z : Z)
| JString (s : jsstring)
| JArray (items : list json)
| JObject (fields : list (jsstring * json)).
#[local] Set Elimination Schemes.

Definition json_truthy (v : json) : bool :=
  match v with
  | JUndefined | JNull => false
  | JBool b => b
  | JNumber z => negb (Z.eqb z 0)
  | JString s => truthy s
  | JArray _ | JObject _ => true
  end.

(** [v || null] *)
Definition or_null (v : json) : json := if json_truthy v then v else JNull.

(** Own property of a parsed object; [JSON.parse] keeps the last duplicate. *)
Fixpoint lookup_field (fields : list (jsstring * json)) (k : jsstring) : json :=
  match fields with
  | [] => JUndefined
  | (k', v) :: rest =>
      match lookup_field rest k with
      | JUndefined => if string_eqb k k' then v else JUndefined
      | found => found
      end
  end.

Definition is_nullish (v : json) : bool :=
  match v with JUndefined | JNull => true | _ => false end.

(** [v.k] on a non-nullish value, for the keys the adapters use
    (none of them is a prototype property). *)
Definition get (v : json) (k : jsstring) : json :=
  match v with
  | JObject fields => lookup_field fields k
  | _ => JUndefined
  end.

(** [v[0]] on a non-nullish value. *)
Definition get0 (v : json) : json :=
  match v with
  | JArray items => nth 0 items JUndefined
  | JString (c :: _) => JString [c]
  | JObject fields => lookup_field fields (str "0")
  | _ => JUndefined
  end.

(** [v?.k] and [v?.[0]] *)
Definition opt_get (v : json) (k : jsstring) : json :=
  if is_nullish v then JUndefined else get v k.

Definition opt_get0 (v : json) : json :=
  if is_nullish v then JUndefined else get0 v.

End JS.
Import JS.

(** ** Settings and host objects *)

Record Settings := {
  aiModel : jsstring;
  geminiApiKey : jsstring;
  claudeApiKey : jsstring;
  gptApiKey : jsstring;
  sourceFolder : jsstring;
  useAutoDetection : bool;
  targetFolders : list jsstring;
  maxWorkers : nat
}.

Definition DEFAULT_SETTINGS : Settings := {|
  aiModel := str "gemini";
  geminiApiKey := [];
  claudeApiKey := [];
  gptApiKey := [];
  sourceFolder := [];
  useAutoDetection := true;
  targetFolders :=
    [str "Algorithmique"; str "Automatique"; str "Maths"; str "TP"; str "Electronique"];
  maxWorkers := 10
|}.

Definition with_targetFolders (s : Settings) (folders : list jsstring) : Settings := {|
  aiModel := aiModel s;
  geminiApiKey := geminiApiKey s;
  claudeApiKey := claudeApiKey s;
  gptApiKey := gptApiKey s;
  sourceFolder := sourceFolder s;
  useAutoDetection := useAutoDetection s;
  targetFolders := folders;
  maxWorkers := maxWorkers s
|}.

(** [TFile] and [TFolder] of the host; [TAbstractFile] is either. *)
Record TFile := { path : jsstring; name : jsstring }.
Record TFolder := { folder_path : jsstring; folder_name : jsstring }.

Inductive TAbstractFile :=
| AFile (f : TFile)
| AFolder (d : TFolder).

Inductive Provider := Gemini | Claude | GPT.

(** The request of one classification call.  The key travels in the query
    string (Gemini), the [x-api-key] header (Claude) or the [Authorization]
    header (GPT); the prompt is the only variable part of the body. *)
Record Request := {
  provider : Provider;
  apiKey : jsstring;
  body_prompt : jsstring
}.

Inductive error :=
| HttpError (status : N)      (* [new Error(`HTTP error! status: ...`)] *)
| TypeError                   (* raised by the language itself *)
| HostError (code : N).       (* anything the vault or the network raises *)

(** Completion of a call: a value, or a thrown error (a rejected promise). *)
Inductive Completion (A : Type) :=
| Normal (a : A)
| Throw (e : error).
Arguments Normal {A} a.
Arguments Throw {A} e.

(** What [fetch] resolves to: [response.ok], [response.status] and the
    outcome of [response.json()]. *)
Record Response := {
  ok : bool;
  status : N;
  json_body : Completion json
}.

Inductive notice :=
| NoticeSetApiKey (model : jsstring)
| NoticeNoNotes
| NoticeStarting (count : nat) (model : jsstring)
| NoticeComplete (totalMoved totalErrors : nat).

Inductive log_line :=
| LogErrorProcessingNote (note : jsstring) (rejected : bool)
| LogErrorProcessing (note : jsstring)
| LogApiCallFailed
| LogProviderError (p : Provider).

Inductive event :=
| EvNotice (n : notice)
| EvOpenModal
| EvRead (f : TFile)
| EvFetch (r : Request)
| EvCreateFolder (p : jsstring)
| EvRename (f : TFile) (newPath : jsstring)
| EvDelay (ms : N)
| EvConsoleError (l : log_line).

(** The host as the plugin sees it: an arbitrary state machine.  The
    operations of the vault and of the network give the answer of a call and
    the state after it.  [resume_order] is the event loop: for a window that
    starts in the given state, the order in which it resumes the tasks of the
    window, one step per entry (an entry is the position of a task in the
    window; entries that name no task, or a task that has finished, do
    nothing).  The tasks that are not finished when the order is used up
    are resumed to their end, one after the other. *)
Class Host (W : Type) := {
  getMarkdownFiles : W -> list TFile;
  getAllLoadedFiles : W -> list TAbstractFile;
  vault_read : TFile -> W -> Completion jsstring * W;
  getAbstractFileByPath : jsstring -> W -> option TAbstractFile;
  vault_createFolder : jsstring -> W -> Completion unit * W;
  vault_rename : TFile -> jsstring -> W -> Completion unit * W;
  net_fetch : Request -> W -> Completion Response * W;
  resume_order : W -> list nat
}.

(** ** The plugin *)

(** An [async] function body: it runs on the host state [W], completes with
    a value or an error, and leaves a trace of the calls it issued. *)
Definition M (W A : Type) : Type := W -> Completion A * W * list event.

Definition ret {W A} (a : A) : M W A := fun w => (Normal a, w, []).

Definition throw {W A} (e : error) : M W A := fun w => (Throw e, w, []).

Definition bind {W A B} (m : M W A) (k : A -> M W B) : M W B :=
  fun w =>
    match m w with
    | (Normal a, w1, t1) => let '(r, w2, t2) := k a w1 in (r, w2, t1 ++ t2)
    | (Throw e, w1, t1) => (Throw e, w1, t1)
    end.

(** [try { m } catch (error) { h error }] *)
Definition try_catch {W A} (m : M W A) (h : error -> M W A) : M W A :=
  fun w =>
    match m w with
    | (Normal a, w1, t1) => (Normal a, w1, t1)
    | (Throw e, w1, t1) => let '(r, w2, t2) := h e w1 in (r, w2, t1 ++ t2)
    end.

Definition emit {W} (e : event) : M W unit := fun w => (Normal tt, w, [e]).

(** A call into the host, recorded in the trace. *)
Definition call {W A} (e : event) (op : W -> Completion A * W) : M W A :=
  fun w => let '(r, w1) := op w in (r, w1, [e]).

Definition lift {W A} (c : Completion A) : M W A := fun w => (c, w, []).

(** A synchronous query of the host state. *)
Definition query {W A} (f : W -> A) : M W A := fun w => (Normal (f w), w, []).

Declare Scope js_scope.
Delimit Scope js_scope with js.
Notation "x <- m ;; k" := (bind m (fun x => k))
  (at level 61, m at next level, right associativity) : js_scope.
Notation "m ;; k" := (bind m (fun _ => k))
  (at level 61, right associativity) : js_scope.
Local Open Scope js_scope.

Section Engine.

Context {W : Type} {host : Host W}.

Definition new_Notice (n : notice) : M W unit := emit (EvNotice n).
Definition console_error (l : log_line) : M W unit := emit (EvConsoleError l).
Definition read (file : TFile) : M W jsstring := call (EvRead file) (vault_read file).
Definition createFolder (p : jsstring) : M W unit :=
  call (EvCreateFolder p) (vault_createFolder p).
Definition rename (file : TFile) (newPath : jsstring) : M W unit :=
  call (EvRename file newPath) (vault_rename file newPath).
Definition fetch (r : Request) : M W Response := call (EvFetch r) (net_fetch r).
Definition setTimeout_await (ms : N) : M W unit := emit (EvDelay ms).

(** *** [getCurrentApiKey] *)
Definition getCurrentApiKey (s : Settings) : jsstring :=
  if string_eqb (aiModel s) (str "gemini") then geminiApiKey s
  else if string_eqb (aiModel s) (str "claude") then claudeApiKey s
  else if string_eqb (aiModel s) (str "gpt") then gptApiKey s
  else [].

(** *** [autoDetectTargetFolders] *)
Definition top_level_folder_name (f : TAbstractFile) : option jsstring :=
  match f with
  | AFolder d =>
      if negb (includes_char (folder_path d) 47) then Some (folder_name d) else None
  | AFile _ => None
  end.

Fixpoint filter_map {A B} (f : A -> option B) (l : list A) : list B :=
  match l with
  | [] => []
  | x :: r => match f x with Some y => y :: filter_map f r | None => filter_map f r end
  end.

Definition autoDetectTargetFolders (s : Settings) (w : W) : Settings :=
  with_targetFolders s (filter_map top_level_folder_name (getAllLoadedFiles w)).

(** *** The provider adapters *)

Definition after_fetch (text_of : json -> Completion json) (response : Response)
  : M W json :=
  if negb (ok response) then throw (HttpError (status response))
  else
    data <- lift (json_body response) ;;
    text <- lift (text_of data) ;;
    ret (or_null text).

(** [data.k] where [data] is what [response.json()] gave: a [TypeError]
    on [null]. *)
Definition member (data : json) (k : jsstring) : Completion json :=
  if is_nullish data then Throw TypeError else Normal (get data k).

(** [data.candidates?.[0]?.content?.parts?.[0]?.text] *)
Definition gemini_text (data : json) : Completion json :=
  match member data (str "candidates") with
  | Normal c =>
      Normal (opt_get (opt_get0 (opt_get (opt_get (opt_get0 c) (str "content"))
                                         (str "parts"))) (str "text"))
  | Throw e => Throw e
  end.

(** [data.content?.[0]?.text] *)
Definition claude_text (data : json) : Completion json :=
  match member data (str "content") with
  | Normal c => Normal (opt_get (opt_get0 c) (str "text"))
  | Throw e => Throw e
  end.

(** [data.choices?.[0]?.message?.content] *)
Definition gpt_text (data : json) : Completion json :=
  match member data (str "choices") with
  | Normal c => Normal (opt_get (opt_get (opt_get0 c) (str "message")) (str "content"))
  | Throw e => Throw e
  end.

(** The three adapters share one shape: [fetch], the status check,
    [response.json()], the provider's field path, [|| null], and a [catch]
    that logs and rethrows. *)
Definition call_api (p : Provider) (key : jsstring) (text_of : json -> Completion json)
           (prompt : jsstring) : M W json :=
  try_catch
    (response <- fetch {| provider := p; apiKey := key; body_prompt := prompt |} ;;
     after_fetch text_of response)
    (fun error => console_error (LogProviderError p) ;; throw error).

Definition callGeminiAPI (s : Settings) (prompt : jsstring) : M W json :=
  call_api Gemini (geminiApiKey s) gemini_text prompt.

Definition callClaudeAPI (s : Settings) (prompt : jsstring) : M W json :=
  call_api Claude (claudeApiKey s) claude_text prompt.

Definition callGPTAPI (s : Settings) (prompt : jsstring) : M W json :=
  call_api GPT (gptApiKey s) gpt_text prompt.

(** *** [classifyNote] *)

Definition build_prompt (s : Settings) (content : jsstring) : jsstring :=
  str "Analyze the following note content and determine the best folder for it from this list: "
  ++ join (str ", ") (targetFolders s)
  ++ str ". Respond with only the single, most appropriate folder name from the list and nothing else."
  ++ [10%N; 10%N] ++ str "Note Content:" ++ [10%N] ++ str "---" ++ [10%N]
  ++ substring0 content 4000.

(** The [switch] on [aiModel]; [response] stays [null] in the default case. *)
Definition call_selected_model (s : Settings) (prompt : jsstring) : M W json :=
  if string_eqb (aiModel s) (str "gemini") then callGeminiAPI s prompt
  else if string_eqb (aiModel s) (str "claude") then callClaudeAPI s prompt
  else if string_eqb (aiModel s) (str "gpt") then callGPTAPI s prompt
  else ret JNull.

(** [response?.trim() || null]: a string is trimmed, [null] gives [null],
    and any other value has no [trim] method. *)
Definition trim_or_null (response : json) : Completion (option jsstring) :=
  match response with
  | JUndefined | JNull => Normal None
  | JString raw => Normal (if truthy (trim raw) then Some (trim raw) else None)
  | _ => Throw TypeError
  end.

Definition classifyNote (s : Settings) (content : jsstring) : M W (option jsstring) :=
  try_catch
    (let prompt := build_prompt s content in
     response <- call_selected_model s prompt ;;
     lift (trim_or_null response))
    (fun error => console_error LogApiCallFailed ;; ret None).

(** *** [classifyAndMoveNote] *)

(** [chosenFolder && this.settings.targetFolders.includes(chosenFolder)]
    for a [chosenFolder] that is a string (the [null] case is the [None]
    branch of [classifyAndMoveNote]): a string is truthy when it is not
    empty, and [includes] compares with strict equality. *)
Definition label_accepted (s : Settings) (chosenFolder : jsstring) : bool :=
  truthy chosenFolder && includes (targetFolders s) chosenFolder.

Definition lookup_path (p : jsstring) : M W (option TAbstractFile) :=
  query (getAbstractFileByPath p).

Definition move_to (file : TFile) (chosenFolder : jsstring) : M W bool :=
  let targetFolderPath := chosenFolder in
  targetFolder <- lookup_path targetFolderPath ;;
  match targetFolder with
  | None => createFolder targetFolderPath
  | Some _ => ret tt
  end ;;
  let newPath := targetFolderPath ++ str "/" ++ name file in
  rename file newPath ;;
  ret true.

Definition classifyAndMoveNote (s : Settings) (file : TFile) : M W bool :=
  try_catch
    (content <- read file ;;
     if negb (truthy (trim content)) then ret false
     else
       chosenFolder <- classifyNote s content ;;
       match chosenFolder with
       | Some folder =>
           if label_accepted s folder then move_to file folder else ret false
       | None => ret false
       end)
    (fun error => console_error (LogErrorProcessing (name file)) ;; ret false).

End Engine.

(** ** Tasks as processes

    To run the tasks of a window concurrently, the body of a task is also
    given as a process: the tree of the calls it issues, each with what the
    task does with the answer.  The process of [classifyAndMoveNote] is
    written with the same text as the function above; run alone and without
    interruption it is that function ([run_to_end_classifyAndMoveNote]
    below). *)

Inductive Proc (A : Type) : Type :=
| Done (c : Completion A)
| Emit (e : event) (k : Proc A)
| Lookup (p : jsstring) (k : option TAbstractFile -> Proc A)
| Read (f : TFile) (k : Completion jsstring -> Proc A)
| Fetch (r : Request) (k : Completion Response -> Proc A)
| CreateFolder (p : jsstring) (k : Completion unit -> Proc A)
| Rename (f : TFile) (p : jsstring) (k : Completion unit -> Proc A).

Module Task.

Definition ret {A} (a : A) : Proc A := Done (Normal a).

Definition throw {A} (e : error) : Proc A := Done (Throw e).

Definition lift {A} (c : Completion A) : Proc A := Done c.

Fixpoint bind {A B} (m : Proc A) (k : A -> Proc B) : Proc B :=
  match m with
  | Done (Normal a) => k a
  | Done (Throw e) => Done (Throw e)
  | Emit e m' => Emit e (bind m' k)
  | Lookup p c => Lookup p (fun r => bind (c r) k)
  | Read f c => Read f (fun r => bind (c r) k)
  | Fetch r c => Fetch r (fun x => bind (c x) k)
  | CreateFolder p c => CreateFolder p (fun x => bind (c x) k)
  | Rename f p c => Rename f p (fun x => bind (c x) k)
  end.

(** [try { m } catch (error) { h error }] *)
Fixpoint try_catch {A} (m : Proc A) (h : error -> Proc A) : Proc A :=
  match m with
  | Done (Normal a) => Done (Normal a)
  | Done (Throw e) => h e
  | Emit e m' => Emit e (try_catch m' h)
  | Lookup p c => Lookup p (fun r => try_catch (c r) h)
  | Read f c => Read f (fun r => try_catch (c r) h)
  | Fetch r c => Fetch r (fun x => try_catch (c x) h)
  | CreateFolder p c => CreateFolder p (fun x => try_catch (c x) h)
  | Rename f p c => Rename f p (fun x => try_catch (c x) h)
  end.

Declare Scope proc_scope.
Delimit Scope proc_scope with proc.
Notation "x <- m ;; k" := (bind m (fun x => k))
  (at level 61, m at next level, right associativity) : proc_scope.
Notation "m ;; k" := (bind m (fun _ => k))
  (at level 61, right associativity) : proc_scope.
Local Open Scope proc_scope.

Definition console_error (l : log_line) : Proc unit :=
  Emit (EvConsoleError l) (Done (Normal tt)).
Definition read (file : TFile) : Proc jsstring := Read file (fun r => Done r).
Definition createFolder (p : jsstring) : Proc unit := CreateFolder p (fun r => Done r).
Definition rename (file : TFile) (newPath : jsstring) : Proc unit :=
  Rename file newPath (fun r => Done r).
Definition fetch (r : Request) : Proc Response := Fetch r (fun x => Done x).
Definition lookup_path (p : jsstring) : Proc (option TAbstractFile) :=
  Lookup p (fun r => Done (Normal r)).

Definition after_fetch (text_of : json -> Completion json) (response : Response)
  : Proc json :=
  if negb (ok response) then throw (HttpError (status response))
  else
    data <- lift (json_body response) ;;
    text <- lift (text_of data) ;;
    ret (or_null text).

Definition call_api (p : Provider) (key : jsstring) (text_of : json -> Completion json)
           (prompt : jsstring) : Proc json :=
  try_catch
    (response <- fetch {| provider := p; apiKey := key; body_prompt := prompt |} ;;
     after_fetch text_of response)
    (fun error => console_error (LogProviderError p) ;; throw error).

Definition callGeminiAPI (s : Settings) (prompt : jsstring) : Proc json :=
  call_api Gemini (geminiApiKey s) gemini_text prompt.

Definition callClaudeAPI (s : Settings) (prompt : jsstring) : Proc json :=
  call_api Claude (claudeApiKey s) claude_text prompt.

Definition callGPTAPI (s : Settings) (prompt : jsstring) : Proc json :=
  call_api GPT (gptApiKey s) gpt_text prompt.

Definition call_selected_model (s : Settings) (prompt : jsstring) : Proc json :=
  if string_eqb (aiModel s) (str "gemini") then callGeminiAPI s prompt
  else if string_eqb (aiModel s) (str "claude") then callClaudeAPI s prompt
  else if string_eqb (aiModel s) (str "gpt") then callGPTAPI s prompt
  else ret JNull.

Definition classifyNote (s : Settings) (content : jsstring) : Proc (option jsstring) :=
  try_catch
    (let prompt := build_prompt s content in
     response <- call_selected_model s prompt ;;
     lift (trim_or_null response))
    (fun error => console_error LogApiCallFailed ;; ret None).

Definition move_to (file : TFile) (chosenFolder : jsstring) : Proc bool :=
  let targetFolderPath := chosenFolder in
  targetFolder <- lookup_path targetFolderPath ;;
  match targetFolder with
  | None => createFolder targetFolderPath
  | Some _ => ret tt
  end ;;
  let newPath := targetFolderPath ++ str "/" ++ name file in
  rename file newPath ;;
  ret true.

Definition classifyAndMoveNote (s : Settings) (file : TFile) : Proc bool :=
  try_catch
    (content <- read file ;;
     if negb (truthy (trim content)) then ret false
     else
       chosenFolder <- classifyNote s content ;;
       match chosenFolder with
       | Some folder =>
           if label_accepted s folder then move_to file folder else ret false
       | None => ret false
       end)
    (fun error => console_error (LogErrorProcessing (name file)) ;; ret false).

End Task.

(** ** The run *)

Section Run.

Context {W : Type} {host : Host W}.

(** *** [performSort] *)

Definition in_source_folder (sourceFolder : jsstring) (file : TFile) : bool :=
  if string_eqb sourceFolder [] then negb (includes_char (path file) 47)
  else startsWith (path file) (sourceFolder ++ str "/")
       || string_eqb (path file) sourceFolder.

(** The loop of lines 105-107; [fuel] bounds the number of iterations, and
    [None] means that the loop did not exit within it. *)
Fixpoint batch_loop (fuel : nat) (files : list TFile) (batchSize i : nat)
         (batches : list (list TFile)) : option (list (list TFile)) :=
  match fuel with
  | 0 => None
  | S fuel' =>
      if i <? length files
      then batch_loop fuel' files batchSize (i + batchSize)
                      (batches ++ [slice files i (i + batchSize)])
      else Some batches
  end.

Inductive Settled (A : Type) :=
| Fulfilled (value : A)
| Rejected (reason : error).

Definition to_settled {A} (c : Completion A) : Settled A :=
  match c with
  | Normal a => Fulfilled a
  | Throw e => Rejected A e
  end.

(** *** The tasks of a window

    A task is resumed one step at a time: the answer of the call it waits
    for, a log line, a look at the vault, or the issue of its next call.  The
    event of a call is recorded when the call is issued; the host answers it,
    and changes state, when the task is resumed with the answer.  Between
    two steps of a task the other tasks of the window may take steps of
    their own.  The JavaScript event loop resumes a task up to its next
    [await]: these are the orders that repeat the position of the task for
    every step up to there. *)

(** A task of a window: what is left of its process, and whether the call
    at the head of it has been issued and waits for its answer. *)
Definition Slot (A : Type) : Type := (bool * Proc A)%type.

(** The event of the call at the head of a process. *)
Definition pending_call {A} (p : Proc A) : option event :=
  match p with
  | Read f _ => Some (EvRead f)
  | Fetch r _ => Some (EvFetch r)
  | CreateFolder q _ => Some (EvCreateFolder q)
  | Rename f q _ => Some (EvRename f q)
  | _ => None
  end.

(** The host answers the call at the head of the process, in the state it
    is in by then, and the task takes the answer. *)
Definition answer {A} (p : Proc A) (w : W) : Proc A * W :=
  match p with
  | Read f k => let (r, w') := vault_read f w in (k r, w')
  | Fetch r k => let (x, w') := net_fetch r w in (k x, w')
  | CreateFolder q k => let (x, w') := vault_createFolder q w in (k x, w')
  | Rename f q k => let (x, w') := vault_rename f q w in (k x, w')
  | _ => (p, w)
  end.

(** One step of a task: the answer of the call it waits for; or a log
    line; or a look at the vault; or the issue of its next call.  A task
    that has finished does nothing. *)
Definition step {A} (st : Slot A) (w : W) : Slot A * W * list event :=
  match st with
  | (true, p) => let (p', w') := answer p w in ((false, p'), w', [])
  | (false, Emit e k) => ((false, k), w, [e])
  | (false, Lookup q k) => ((false, k (getAbstractFileByPath q w)), w, [])
  | (false, p) =>
      match pending_call p with
      | Some e => ((true, p), w, [e])
      | None => (st, w, [])
      end
  end.

(** A task started by [batch.map]: it runs to its first [await]. *)
Fixpoint launch {A} (p : Proc A) (w : W) : Slot A * list event :=
  match p with
  | Emit e k => let (st, t) := launch k w in (st, e :: t)
  | Lookup q k => launch (k (getAbstractFileByPath q w)) w
  | _ =>
      match pending_call p with
      | Some e => ((true, p), [e])
      | None => ((false, p), [])
      end
  end.

Fixpoint launch_all {A} (procs : list (Proc A)) (w : W) : list (Slot A) * list event :=
  match procs with
  | [] => ([], [])
  | p :: rest =>
      let (st, t1) := launch p w in
      let (sts, t2) := launch_all rest w in
      (st :: sts, t1 ++ t2)
  end.

Fixpoint set_nth {X} (i : nat) (x : X) (l : list X) : list X :=
  match l, i with
  | [], _ => []
  | _ :: r, 0 => x :: r
  | y :: r, S i' => y :: set_nth i' x r
  end.

(** The event loop resumes the tasks in the given order, one step each
    time. *)
Fixpoint run_schedule {A} (order : list nat) (slots : list (Slot A)) (w : W)
  : list (Slot A) * W * list event :=
  match order with
  | [] => (slots, w, [])
  | i :: rest =>
      match nth_error slots i with
      | Some st =>
          let '(st', w1, t1) := step st w in
          let '(slots', w2, t2) := run_schedule rest (set_nth i st' slots) w1 in
          (slots', w2, t1 ++ t2)
      | None => run_schedule rest slots w
      end
  end.

(** A process run to its end without interruption. *)
Fixpoint run_to_end {A} (p : Proc A) (w : W) : Completion A * W * list event :=
  match p with
  | Done c => (c, w, [])
  | Emit e k => let '(c, w', t) := run_to_end k w in (c, w', e :: t)
  | Lookup q k => run_to_end (k (getAbstractFileByPath q w)) w
  | Read f k =>
      let (r, w1) := vault_read f w in
      let '(c, w2, t) := run_to_end (k r) w1 in (c, w2, EvRead f :: t)
  | Fetch r k =>
      let (x, w1) := net_fetch r w in
      let '(c, w2, t) := run_to_end (k x) w1 in (c, w2, EvFetch r :: t)
  | CreateFolder q k =>
      let (x, w1) := vault_createFolder q w in
      let '(c, w2, t) := run_to_end (k x) w1 in (c, w2, EvCreateFolder q :: t)
  | Rename f q k =>
      let (x, w1) := vault_rename f q w in
      let '(c, w2, t) := run_to_end (k x) w1 in (c, w2, EvRename f q :: t)
  end.

Definition finish {A} (st : Slot A) (w : W) : Completion A * W * list event :=
  match st with
  | (true, p) => let (p', w') := answer p w in run_to_end p' w'
  | (false, p) => run_to_end p w
  end.

Fixpoint finish_all {A} (slots : list (Slot A)) (w : W)
  : list (Completion A) * W * list event :=
  match slots with
  | [] => ([], w, [])
  | st :: rest =>
      let '(c, w1, t1) := finish st w in
      let '(cs, w2, t2) := finish_all rest w1 in
      (c :: cs, w2, t1 ++ t2)
  end.

(** [await Promise.allSettled(batch.map(task))]: [batch.map] starts the
    tasks in order, each running to its first [await]; the event loop then
    resumes them in the order the host gives, until every task has settled.
    The result is never a rejection. *)
Definition allSettled_map {A} (task : TFile -> Proc A) (batch : list TFile)
  : M W (list (Settled A)) :=
  fun w =>
    let (slots, t1) := launch_all (map task batch) w in
    let '(slots', w2, t2) := run_schedule (resume_order w) slots w in
    let '(cs, w3, t3) := finish_all slots' w2 in
    (Normal (map to_settled cs), w3, t1 ++ t2 ++ t3).

(** [result.status === 'fulfilled' && result.value] *)
Definition fulfilled_true (result : Settled bool) : bool :=
  match result with
  | Fulfilled true => true
  | _ => false
  end.

Definition is_rejected {A} (result : Settled A) : bool :=
  match result with Rejected _ _ => true | Fulfilled _ => false end.

(** One call of the [forEach] callback on [(result, index)]; the totals are
    [(totalMoved, totalErrors)]. *)
Definition count_result (batch : list TFile) (result : Settled bool) (index : nat)
           (totals : nat * nat) : M W (nat * nat) :=
  if fulfilled_true result then ret (S (fst totals), snd totals)
  else
    match nth_error batch index with
    | Some file =>
        console_error (LogErrorProcessingNote (name file) (is_rejected result)) ;;
        ret (fst totals, S (snd totals))
    | None => throw TypeError
    end.

Fixpoint forEach_results (batch : list TFile) (results : list (Settled bool))
         (index : nat) (totals : nat * nat) : M W (nat * nat) :=
  match results with
  | [] => ret totals
  | result :: rest =>
      totals' <- count_result batch result index totals ;;
      forEach_results batch rest (S index) totals'
  end.

Definition process_batch (s : Settings) (batch : list TFile) (totals : nat * nat)
  : M W (nat * nat) :=
  results <- allSettled_map (Task.classifyAndMoveNote s) batch ;;
  forEach_results batch results 0 totals.

(** The [for ... of batches] loop.  Every batch is a fresh array, so
    [batches.indexOf(batch)] is the position [pos] of the batch;
    [len] is [batches.length]. *)
Fixpoint for_batches (s : Settings) (len : nat) (batches : list (list TFile))
         (pos : nat) (totals : nat * nat) : M W (nat * nat) :=
  match batches with
  | [] => ret totals
  | batch :: rest =>
      totals' <- process_batch s batch totals ;;
      (if pos <? len - 1 then setTimeout_await 1000 else ret tt) ;;
      for_batches s len rest (S pos) totals'
  end.

Definition performSort (fuel : nat) (s : Settings) (w : W)
  : option (Completion unit * W * list event) :=
  let files := filter (in_source_folder (sourceFolder s)) (getMarkdownFiles w) in
  if length files =? 0 then Some (new_Notice NoticeNoNotes w)
  else
    let batchSize := maxWorkers s in
    match batch_loop fuel files batchSize 0 [] with
    | None => None
    | Some batches =>
        Some ((new_Notice (NoticeStarting (length files) (aiModel s)) ;;
               totals <- for_batches s (length batches) batches 0 (0, 0) ;;
               new_Notice (NoticeComplete (fst totals) (snd totals))) w)
    end.

(** *** [sortNotes] and the confirmation modal *)

(** The settings after the call, whether the modal was opened, and the
    trace. *)
Definition sortNotes (s : Settings) (w : W) : Settings * bool * list event :=
  let currentApiKey := getCurrentApiKey s in
  if negb (truthy currentApiKey)
  then (s, false, [EvNotice (NoticeSetApiKey (aiModel s))])
  else
    let s' := if useAutoDetection s then autoDetectTargetFolders s w else s in
    (s', true, [EvOpenModal]).

Inductive Button := Cancel | SortNotes.

(** The command from the ribbon icon to the end of the run: [sortNotes],
    then the user's click in the modal when one was opened. *)
Definition sort_command (fuel : nat) (s : Settings) (click : Button) (w : W)
  : option (Settings * Completion unit * W * list event) :=
  let '(s', opened, t) := sortNotes s w in
  if opened then
    match click with
    | Cancel => Some (s', Normal tt, w, t)
    | SortNotes =>
        match performSort fuel s' w with
        | Some (c, w', t') => Some (s', c, w', t ++ t')
        | None => None
        end
    end
  else Some (s', Normal tt, w, t).

End Run.

(** ** A scripted host

    A host whose answers are fixed in advance, to run the plugin on concrete
    inputs.  Its state carries nothing; creating a folder and renaming a file
    always succeed; the event loop leaves the order of the tasks alone: after
    [batch.map] has started them it resumes them to their end one after the
    other. *)

Record Script := {
  script_files : list TFile;
  script_loaded : list TAbstractFile;
  script_content : TFile -> Completion jsstring;
  script_response : Request -> Completion Response;
  script_folders : list jsstring
}.

Definition scripted (sc : Script) : Host unit := {|
  getMarkdownFiles := fun _ => script_files sc;
  getAllLoadedFiles := fun _ => script_loaded sc;
  vault_read := fun f w => (script_content sc f, w);
  getAbstractFileByPath := fun p _ =>
    if includes (script_folders sc) p
    then Some (AFolder {| folder_path := p; folder_name := p |})
    else None;
  vault_createFolder := fun _ w => (Normal tt, w);
  vault_rename := fun _ _ w => (Normal tt, w);
  net_fetch := fun r w => (script_response sc r, w);
  resume_order := fun _ => []
|}.

(** A note at the root of the vault. *)
Definition root_note (n : string) : TFile := {| path := str n; name := str n |}.

(** A successful Gemini response whose first candidate carries [text]. *)
Definition gemini_says (text : json) : Response := {|
  ok := true;
  status := 200;
  json_body :=
    Normal (JObject [(str "candidates",
      JArray [JObject [(str "content",
        JObject [(str "parts", JArray [JObject [(str "text", text)]])])]])])
|}.

(** ** Traces *)

Definition is_read (e : event) : bool :=
  match e with EvRead _ => true | _ => false end.

Definition is_fetch (e : event) : bool :=
  match e with EvFetch _ => true | _ => false end.

(** Creating a folder or renaming a file. *)
Definition is_move (e : event) : bool :=
  match e with EvCreateFolder _ | EvRename _ _ => true | _ => false end.

Definition is_delay (e : event) : bool :=
  match e with EvDelay _ => true | _ => false end.

Definition count (p : event -> bool) (t : list event) : nat := length (filter p t).
Arguments count : simpl never.

Definition outcome {W A} (r : Completion A * W * list event) : Completion A := fst (fst r).
Definition final {W A} (r : Completion A * W * list event) : W := snd (fst r).
Definition trace {W A} (r : Completion A * W * list event) : list event := snd r.

(** [m] issues at most [n] events satisfying [p], whatever the host does. *)
Definition at_most {W A} (p : event -> bool) (n : nat) (m : M W A) : Prop :=
  forall w, count p (trace (m w)) <= n.

(** [m] never throws. *)
Definition total {W A} (m : M W A) : Prop :=
  forall w, exists a, outcome (m w) = Normal a.

(** ** The vocabulary of the properties *)

Section Vocabulary.

Context {W : Type} {host : Host W}.

(** The part of [classifyAndMoveNote] that follows the read. *)
Definition after_read (s : Settings) (file : TFile) (content : jsstring) : M W bool :=
  if negb (truthy (trim content)) then ret false
  else
    chosenFolder <- classifyNote s content ;;
    match chosenFolder with
    | Some folder =>
        if label_accepted s folder then move_to file folder else ret false
    | None => ret false
    end.

Definition on_error (file : TFile) (e : error) : M W bool :=
  console_error (LogErrorProcessing (name file)) ;; ret false.

(** [ceil(n / k)] *)
Definition ceil_div (n k : nat) : nat := (n + k - 1) / k.

(** What a task can do, whatever the other tasks of its window do in
    between: a completion and the trace of the task's own events, each answer
    being one the host gives in some state. *)
Inductive behaviour {A : Type} : Proc A -> Completion A -> list event -> Prop :=
| behaviour_done c : behaviour (Done c) c []
| behaviour_emit e k c t :
    behaviour k c t -> behaviour (Emit e k) c (e :: t)
| behaviour_lookup q k w c t :
    behaviour (k (getAbstractFileByPath q w)) c t -> behaviour (Lookup q k) c t
| behaviour_read f k w c t :
    behaviour (k (fst (vault_read f w))) c t -> behaviour (Read f k) c (EvRead f :: t)
| behaviour_fetch r k w c t :
    behaviour (k (fst (net_fetch r w))) c t -> behaviour (Fetch r k) c (EvFetch r :: t)
| behaviour_createFolder q k w c t :
    behaviour (k (fst (vault_createFolder q w))) c t ->
    behaviour (CreateFolder q k) c (EvCreateFolder q :: t)
| behaviour_rename f q k w c t :
    behaviour (k (fst (vault_rename f q w))) c t ->
    behaviour (Rename f q k) c (EvRename f q :: t).

(** The settled results of the tasks of a window, in document order, and
    the host after the window. *)
Definition window_results (s : Settings) (batch : list TFile) (w : W)
  : list (Settled bool) :=
  match outcome (allSettled_map (Task.classifyAndMoveNote s) batch w) with
  | Normal rs => rs
  | Throw _ => []
  end.

Definition host_after (s : Settings) (batch : list TFile) (w : W) : W :=
  final (allSettled_map (Task.classifyAndMoveNote s) batch w).

(** The settled results of the tasks of a run, window after window. *)
Fixpoint run_results (s : Settings) (batches : list (list TFile)) (w : W)
  : list (Settled bool) :=
  match batches with
  | [] => []
  | batch :: rest =>
      window_results s batch w ++ run_results s rest (host_after s batch w)
  end.

Fixpoint run_host_after (s : Settings) (batches : list (list TFile)) (w : W) : W :=
  match batches with
  | [] => w
  | batch :: rest => run_host_after s rest (host_after s batch w)
  end.

Definition moved_of (rs : list (Settled bool)) : nat :=
  length (filter fulfilled_true rs).

Definition errors_of (rs : list (Settled bool)) : nat :=
  length (filter (fun r => negb (fulfilled_true r)) rs).

Definition add_tally (totals : nat * nat) (rs : list (Settled bool)) : nat * nat :=
  (fst totals + moved_of rs, snd totals + errors_of rs).

Definition is_console (e : event) : bool :=
  match e with EvConsoleError _ => true | _ => false end.

(** [t] is the trace of one window: of the tasks of [batch] and of the
    [forEach] that follows them, from some host state. *)
Definition is_window_trace (s : Settings) (batch : list TFile) (t : list event) : Prop :=
  exists totals (w : W), t = trace (process_batch s batch totals w).

(** The traces of the windows, with the pacing delay between them. *)
Fixpoint join_delay (ts : list (list event)) : list event :=
  match ts with
  | [] => []
  | t :: rest =>
      match rest with
      | [] => t
      | _ :: _ => t ++ [EvDelay 1000] ++ join_delay rest
      end
  end.

(** The documents a run selects. *)
Definition selected (s : Settings) (w : W) : list TFile :=
  filter (in_source_folder (sourceFolder s)) (getMarkdownFiles w).

(** Empty or made of white space only. *)
Definition blank (s : jsstring) : bool := forallb is_white_space s.

(** The provider the [switch] of [classifyNote] selects, its key and its
    field path. *)
Definition selected_provider (s : Settings) : option Provider :=
  if string_eqb (aiModel s) (str "gemini") then Some Gemini
  else if string_eqb (aiModel s) (str "claude") then Some Claude
  else if string_eqb (aiModel s) (str "gpt") then Some GPT
  else None.

Definition key_of (s : Settings) (p : Provider) : jsstring :=
  match p with
  | Gemini => geminiApiKey s
  | Claude => claudeApiKey s
  | GPT => gptApiKey s
  end.

Definition text_of (p : Provider) : json -> Completion json :=
  match p with
  | Gemini => gemini_text
  | Claude => claude_text
  | GPT => gpt_text
  end.

(** The text field of the response is absent, or a string that is empty
    or white space only. *)
Definition absent_or_blank (text : json) : Prop :=
  text = JUndefined \/ exists raw, text = JString raw /\ blank raw = true.

(** The totals of the summary notice that ends a trace, if one does. *)
Definition summary (t : list event) : option (nat * nat) :=
  match rev t with
  | EvNotice (NoticeComplete moved errors) :: _ => Some (moved, errors)
  | _ => None
  end.

(** Whether a task returned [b]. *)
Definition returned (b : bool) (r : Settled bool) : bool :=
  match r with
  | Fulfilled v => Bool.eqb v b
  | Rejected _ _ => false
  end.

End Vocabulary.

(** ** The vocabulary of the windows *)

Section WindowVocabulary.

Context {W : Type} {host : Host W}.

(** What a task of a window can still do. *)
Definition behaviour_from {A} (st : Slot A) (c : Completion A) (t : list event) : Prop :=
  match st with
  | (true, p) => exists w, behaviour (fst (answer p w)) c t
  | (false, p) => behaviour p c t
  end.

(** The tasks of a window at some point of its run: every task has issued
    the events of its part, and what it can still do continues one of its
    behaviours. *)
Inductive tracks {A : Type} : list (Proc A) -> list (Slot A) -> list (list event) -> Prop :=
| tracks_nil : tracks [] [] []
| tracks_cons p st part procs slots parts :
    (forall c t, behaviour_from st c t -> behaviour p c (part ++ t)) ->
    tracks procs slots parts ->
    tracks (p :: procs) (st :: slots) (part :: parts).

Fixpoint snoc_nth (i : nat) (e : list event) (parts : list (list event))
  : list (list event) :=
  match parts, i with
  | [], _ => []
  | x :: r, 0 => (x ++ e) :: r
  | x :: r, S i' => x :: snoc_nth i' e r
  end.

(** The tasks of a window have settled: each result is the completion of a
    behaviour of its task, with the trace of that task's own events. *)
Inductive settles {A : Type} (task : TFile -> Proc A)
  : list TFile -> list (Settled A) -> list (list event) -> Prop :=
| settles_nil : settles task [] [] []
| settles_cons file c tr files rs trs :
    behaviour (task file) c tr ->
    settles task files rs trs ->
    settles task (file :: files) (to_settled c :: rs) (tr :: trs).

(** The traces of the windows of a run, window after window: the tasks of
    the window and the [forEach] that follows them. *)
Fixpoint window_traces (s : Settings) (batches : list (list TFile)) (w : W)
  : list (list event) :=
  match batches with
  | [] => []
  | batch :: rest =>
      trace (process_batch s batch (0, 0) w)
        :: window_traces s rest (host_after s batch w)
  end.

(** [p] issues at most [n] events satisfying [q], whatever happens in
    between. *)
Definition at_most_in {A} (q : event -> bool) (n : nat) (p : Proc A) : Prop :=
  forall c t, behaviour p c t -> count q t <= n.

(** Every event [p] issues satisfies [Q], whatever happens in between. *)
Definition only_in {A} (Q : event -> Prop) (p : Proc A) : Prop :=
  forall c t, behaviour p c t -> Forall Q t.

(** [p] never throws, whatever happens in between. *)
Definition never_throws {A} (p : Proc A) : Prop :=
  forall c t, behaviour p c t -> exists a, c = Normal a.

(** Every value [p] returns, with the trace it has issued by then,
    satisfies [P], whatever happens in between. *)
Definition returns_with {A} (P : A -> list event -> Prop) (p : Proc A) : Prop :=
  forall a t, behaviour p (Normal a) t -> P a t.

(** The part of the process of [classifyAndMoveNote] that follows the
    read, and its [catch]. *)
Definition task_after_read (s : Settings) (file : TFile) (content : jsstring) : Proc bool :=
  if negb (truthy (trim content)) then Task.ret false
  else
    Task.bind (Task.classifyNote s content)
      (fun chosenFolder =>
         match chosenFolder with
         | Some folder =>
             if label_accepted s folder then Task.move_to file folder else Task.ret false
         | None => Task.ret false
         end).

Definition task_on_error (file : TFile) (e : error) : Proc bool :=
  Task.bind (Task.console_error (LogErrorProcessing (name file))) (fun _ => Task.ret false).

(** [r] with [t1] before its trace. *)
Definition then_trace {A} (t1 : list event) (r : Completion A * W * list event)
  : Completion A * W * list event :=
  (outcome r, final r, t1 ++ trace r).

End WindowVocabulary.

(** ** Concrete inputs *)

Definition ends_with (s suffix : jsstring) : bool := startsWith (rev s) (rev suffix).

Definition work_settings : Settings := {|
  aiModel := str "gemini";
  geminiApiKey := str "key";
  claudeApiKey := [];
  gptApiKey := [];
  sourceFolder := [];
  useAutoDetection := false;
  targetFolders := [str "Work"; str "Personal"];
  maxWorkers := 2
|}.

(** Three notes at the root of the vault; the model files the first under
    [Work], answers [Unknown] for the second and files the third under
    [Personal]. *)
Definition three_notes : Script := {|
  script_files := [root_note "a.md"; root_note "b.md"; root_note "c.md"];
  script_loaded := [];
  script_content := fun f =>
    if string_eqb (name f) (str "a.md") then Normal (str "alpha")
    else if string_eqb (name f) (str "b.md") then Normal (str "beta")
    else Normal (str "gamma");
  script_response := fun r =>
    if ends_with (body_prompt r) (str "alpha") then Normal (gemini_says (JString (str "Work")))
    else if ends_with (body_prompt r) (str "beta")
         then Normal (gemini_says (JString (str "Unknown")))
         else Normal (gemini_says (JString (str "Personal")));
  script_folders := [str "Work"]
|}.

(** One note whose content is white space only. *)
Definition one_blank_note : Script := {|
  script_files := [root_note "blank.md"];
  script_loaded := [];
  script_content := fun _ => Normal (str "   ");
  script_response := fun _ => Throw (HostError 0);
  script_folders := []
|}.

(** One note in a vault without any folder below the root; the model answers
    [text]. *)
Definition one_note (text : json) : Script := {|
  script_files := [root_note "todo.md"];
  script_loaded :=
    [AFolder {| folder_path := str "/"; folder_name := [] |}; AFile (root_note "todo.md")];
  script_content := fun _ => Normal (str "buy milk");
  script_response := fun _ => Normal (gemini_says text);
  script_folders := []
|}.


Definition gemini_request (s : Settings) (content : jsstring) : Request :=
  {| provider := Gemini; apiKey := geminiApiKey s; body_prompt := build_prompt s content |}.

(** ** The settings tab and further vocabulary *)

(** [value.split(sep)] for a one-character separator. *)
Fixpoint split_on (sep : N) (s : jsstring) : list jsstring :=
  match s with
  | [] => [[]]
  | c :: r =>
      if N.eqb c sep then [] :: split_on sep r
      else
        match split_on sep r with
        | [] => [[c]]
        | x :: xs => (c :: x) :: xs
        end
  end.

(** The [onChange] of the custom target folders text area:
    [value.split(',').map(folder => folder.trim()).filter(folder => folder.length > 0)] *)
Definition parse_target_folders (value : jsstring) : list jsstring :=
  filter (fun folder => 0 <? length folder) (map trim (split_on 44 value)).

Definition set_custom_folders (s : Settings) (value : jsstring) : Settings :=
  with_targetFolders s (parse_target_folders value).

(** What the text area shows: [this.plugin.settings.targetFolders.join(', ')] *)
Definition shown_target_folders (s : Settings) : jsstring :=
  join (str ", ") (targetFolders s).

Definition is_rename (e : event) : bool :=
  match e with EvRename _ _ => true | _ => false end.

Definition is_create (e : event) : bool :=
  match e with EvCreateFolder _ => true | _ => false end.

(** A call into the host: the vault or the network. *)
Definition is_host_call (e : event) : bool :=
  match e with
  | EvRead _ | EvFetch _ | EvCreateFolder _ | EvRename _ _ => true
  | _ => false
  end.

(** Every event [m] issues satisfies [P], whatever the host does. *)
Definition only {W A} (P : event -> Prop) (m : M W A) : Prop :=
  forall w, Forall P (trace (m w)).

(** [newPath] of [classifyAndMoveNote]. *)
Definition destination (folder : jsstring) (file : TFile) : jsstring :=
  folder ++ str "/" ++ name file.



(** The host calls of a list of events. *)
Definition host_calls (t : list event) : list event := filter is_host_call t.


(** The settings after [sortNotes] has passed the key check: the target
    folders are the detected ones when auto-detection is on. *)
Definition settings_at_run {W} {host : Host W} (s : Settings) (w : W) : Settings :=
  if useAutoDetection s then autoDetectTargetFolders s w else s.

(** ** More concrete inputs *)

(** A scripted host whose folder creation and rename answer as given. *)
Definition scripted_moves (sc : Script) (create : jsstring -> Completion unit)
           (move : TFile -> jsstring -> Completion unit) : Host unit := {|
  getMarkdownFiles := fun _ => script_files sc;
  getAllLoadedFiles := fun _ => script_loaded sc;
  vault_read := fun f w => (script_content sc f, w);
  getAbstractFileByPath := fun p _ =>
    if includes (script_folders sc) p
    then Some (AFolder {| folder_path := p; folder_name := p |})
    else None;
  vault_createFolder := fun p w => (create p, w);
  vault_rename := fun f p w => (move f p, w);
  net_fetch := fun r w => (script_response sc r, w);
  resume_order := fun _ => []
|}.

(** [work_settings] with a concurrency bound of 0. *)
Definition zero_bound_settings : Settings := {|
  aiModel := str "gemini";
  geminiApiKey := str "key";
  claudeApiKey := [];
  gptApiKey := [];
  sourceFolder := [];
  useAutoDetection := false;
  targetFolders := [str "Work"; str "Personal"];
  maxWorkers := 0
|}.

(** One note that cannot be read. *)
Definition one_unreadable_note : Script := {|
  script_files := [root_note "locked.md"];
  script_loaded := [];
  script_content := fun _ => Throw (HostError 5);
  script_response := fun _ => Throw (HostError 0);
  script_folders := []
|}.

(** One note in a vault where both folders of [work_settings] exist; the
    model answers [text]. *)
Definition one_filed_note (text : json) : Script := {|
  script_files := [root_note "todo.md"];
  script_loaded :=
    [AFolder {| folder_path := str "Work"; folder_name := str "Work" |};
     AFolder {| folder_path := str "Personal"; folder_name := str "Personal" |};
     AFile (root_note "todo.md")];
  script_content := fun _ => Normal (str "buy milk");
  script_response := fun _ => Normal (gemini_says text);
  script_folders := [str "Work"; str "Personal"]
|}.

(** The answer [Work] with white space around it. *)
Definition padded_work : jsstring := 32%N :: str "Work" ++ [10%N].

(** A vault that remembers the folders it holds: its state is the list of
    their paths.  Creating a folder that exists is rejected.  The event
    loop resumes the tasks of every window in the given order. *)
Definition vault_host (sc : Script) (order : list nat) : Host (list jsstring) := {|
  getMarkdownFiles := fun _ => script_files sc;
  getAllLoadedFiles := fun _ => script_loaded sc;
  vault_read := fun f w => (script_content sc f, w);
  getAbstractFileByPath := fun p w =>
    if includes w p
    then Some (AFolder {| folder_path := p; folder_name := p |})
    else None;
  vault_createFolder := fun p w =>
    if includes w p then (Throw (HostError 17), w) else (Normal tt, p :: w);
  vault_rename := fun _ _ w => (Normal tt, w);
  net_fetch := fun r w => (script_response sc r, w);
  resume_order := fun _ => order
|}.

(** Two notes that the model both files under [Personal]. *)
Definition two_personal_notes : Script := {|
  script_files := [root_note "a.md"; root_note "b.md"];
  script_loaded := [];
  script_content := fun f =>
    if string_eqb (name f) (str "a.md") then Normal (str "alpha") else Normal (str "beta");
  script_response := fun _ => Normal (gemini_says (JString (str "Personal")));
  script_folders := []
|}.

(** An order of the event loop for a window of two tasks whose answers
    arrive in turn, each task running to its next [await]: the reads, then
    the requests, then the folder creations, then the rename of the first
    task. *)
Definition answers_in_turn : list nat :=
  [0; 0; 1; 1; 0; 0; 0; 1; 1; 1; 0; 0; 1; 1; 0]%nat.

(** ** Facts about the monad *)

Section MonadFacts.

Context {W : Type}.

Lemma count_app p (t1 t2 : list event) :
  count p (t1 ++ t2) = count p t1 + count p t2.
Proof. unfold count. now rewrite filter_app, length_app. Qed.

Lemma count_nil p : count p [] = 0.
Proof. reflexivity. Qed.

Lemma count_cons p e (t : list event) :
  count p (e :: t) = (if p e then 1 else 0) + count p t.
Proof. unfold count. cbn. now destruct (p e). Qed.

Lemma at_most_ret {A} p n (a : A) : at_most p n (@ret W A a).
Proof. intros w. unfold count. cbn. lia. Qed.

Lemma at_most_throw {A} p n e : at_most p n (@throw W A e).
Proof. intros w. unfold count. cbn. lia. Qed.

Lemma at_most_lift {A} p n (c : Completion A) : at_most p n (@lift W A c).
Proof. intros w. unfold count. cbn. lia. Qed.

Lemma at_most_query {A} p n (f : W -> A) : at_most p n (query f).
Proof. intros w. unfold count. cbn. lia. Qed.

Lemma at_most_emit p e : at_most p (if p e then 1 else 0) (@emit W e).
Proof. intros w. unfold count. cbn. destruct (p e); cbn; lia. Qed.

Lemma at_most_call {A} p e (op : W -> Completion A * W) :
  at_most p (if p e then 1 else 0) (call e op).
Proof.
  intros w. unfold call, trace, count. destruct (op w) as [r w1]. cbn.
  destruct (p e); cbn; lia.
Qed.

Lemma at_most_bind {A B} p a b (m : M W A) (k : A -> M W B) :
  at_most p a m -> (forall x, at_most p b (k x)) -> at_most p (a + b) (bind m k).
Proof.
  intros Hm Hk w. specialize (Hm w). unfold bind, trace in *.
  destruct (m w) as [[[x | e] w1] t1]; cbn in *; [ | lia ].
  specialize (Hk x w1). destruct (k x w1) as [[r w2] t2]. cbn in *.
  rewrite count_app. lia.
Qed.

Lemma at_most_try_catch {A} p a b (m : M W A) (h : error -> M W A) :
  at_most p a m -> (forall e, at_most p b (h e)) -> at_most p (a + b) (try_catch m h).
Proof.
  intros Hm Hh w. specialize (Hm w). unfold try_catch, trace in *.
  destruct (m w) as [[[x | e] w1] t1]; cbn in *; [ lia | ].
  specialize (Hh e w1). destruct (h e w1) as [[r w2] t2]. cbn in *.
  rewrite count_app. lia.
Qed.

(** The same, for computations that issue no event of the kind at all. *)
Lemma none_emit p e : p e = false -> at_most p 0 (@emit W e).
Proof. intros H. generalize (at_most_emit p e). now rewrite H. Qed.

Lemma none_call {A} p e (op : W -> Completion A * W) :
  p e = false -> at_most p 0 (call e op).
Proof. intros H. generalize (at_most_call p e op). now rewrite H. Qed.

Lemma none_bind {A B} p (m : M W A) (k : A -> M W B) :
  at_most p 0 m -> (forall x, at_most p 0 (k x)) -> at_most p 0 (bind m k).
Proof. intros Hm Hk. change 0 with (0 + 0). now apply at_most_bind. Qed.

Lemma none_try_catch {A} p (m : M W A) (h : error -> M W A) :
  at_most p 0 m -> (forall e, at_most p 0 (h e)) -> at_most p 0 (try_catch m h).
Proof. intros Hm Hh. change 0 with (0 + 0). now apply at_most_try_catch. Qed.

Lemma total_ret {A} (a : A) : total (@ret W A a).
Proof. intros w. now exists a. Qed.

Lemma total_emit e : total (@emit W e).
Proof. intros w. now exists tt. Qed.

Lemma total_bind {A B} (m : M W A) (k : A -> M W B) :
  total m -> (forall x, total (k x)) -> total (bind m k).
Proof.
  intros Hm Hk w. destruct (Hm w) as [a Ha]. unfold bind, outcome in *.
  destruct (m w) as [[c w1] t1]. cbn in Ha. subst c.
  destruct (Hk a w1) as [b Hb]. destruct (k a w1) as [[r w2] t2]. cbn in *.
  now exists b.
Qed.

(** A [try] whose handler never throws never throws. *)
Lemma total_try_catch {A} (m : M W A) (h : error -> M W A) :
  (forall e, total (h e)) -> total (try_catch m h).
Proof.
  intros Hh w. unfold try_catch, outcome.
  destruct (m w) as [[[a | e] w1] t1]; cbn.
  - now exists a.
  - destruct (Hh e w1) as [b Hb]. unfold outcome in Hb.
    destruct (h e w1) as [[r w2] t2]. cbn in *. now exists b.
Qed.

End MonadFacts.

(** Discharges [at_most p 0 m] for a computation built from the primitives. *)
Ltac quiet :=
  repeat (intros;
    first
      [ apply at_most_ret | apply at_most_throw | apply at_most_lift
      | apply at_most_query
      | apply none_emit; reflexivity
      | apply none_call; reflexivity
      | apply none_bind
      | apply none_try_catch
      | match goal with
        | |- at_most _ _ (match ?x with _ => _ end) => destruct x
        end ]).

(** ** Facts about one task *)

Section TaskFacts.

Context {W : Type} {host : Host W}.

Ltac open_calls :=
  unfold read, fetch, createFolder, rename, console_error, new_Notice,
    setTimeout_await, lookup_path.

Lemma after_fetch_silent p text_of response :
  at_most p 0 (@after_fetch W text_of response).
Proof. unfold after_fetch. destruct (negb (ok response)); quiet. Qed.

(** An adapter issues one network call, and nothing else but log lines. *)
Lemma call_api_fetch prov key text_of prompt :
  at_most is_fetch 1 (call_api prov key text_of prompt).
Proof.
  unfold call_api. open_calls.
  apply (at_most_try_catch (a := 1) (b := 0)); [ | quiet ].
  apply (at_most_bind (a := 1) (b := 0)).
  - apply (at_most_call is_fetch).
  - intros response. apply after_fetch_silent.
Qed.

Lemma call_api_silent p prov key text_of prompt :
  (forall r, p (EvFetch r) = false) ->
  (forall l, p (EvConsoleError l) = false) ->
  at_most p 0 (call_api prov key text_of prompt).
Proof.
  intros Hf Hl. unfold call_api. open_calls.
  apply none_try_catch.
  - apply none_bind; [ apply none_call, Hf | intros; apply after_fetch_silent ].
  - intros e. apply none_bind; [ apply none_emit, Hl | quiet ].
Qed.

Lemma call_selected_model_fetch s prompt :
  at_most is_fetch 1 (call_selected_model s prompt).
Proof.
  unfold call_selected_model, callGeminiAPI, callClaudeAPI, callGPTAPI.
  repeat match goal with |- context [if ?b then _ else _] => destruct b end;
    try apply call_api_fetch.
  apply at_most_ret.
Qed.

Lemma call_selected_model_silent p s prompt :
  (forall r, p (EvFetch r) = false) ->
  (forall l, p (EvConsoleError l) = false) ->
  at_most p 0 (call_selected_model s prompt).
Proof.
  intros Hf Hl.
  unfold call_selected_model, callGeminiAPI, callClaudeAPI, callGPTAPI.
  repeat match goal with |- context [if ?b then _ else _] => destruct b end;
    try (apply call_api_silent; assumption).
  apply at_most_ret.
Qed.

Lemma classifyNote_fetch s content : at_most is_fetch 1 (classifyNote s content).
Proof.
  unfold classifyNote. open_calls.
  apply (at_most_try_catch (a := 1) (b := 0)); [ | quiet ].
  apply (at_most_bind (a := 1) (b := 0)); [ apply call_selected_model_fetch | quiet ].
Qed.

Lemma classifyNote_silent p s content :
  (forall r, p (EvFetch r) = false) ->
  (forall l, p (EvConsoleError l) = false) ->
  at_most p 0 (classifyNote s content).
Proof.
  intros Hf Hl. unfold classifyNote. open_calls.
  apply none_try_catch.
  - apply none_bind; [ now apply call_selected_model_silent | quiet ].
  - intros e. apply none_bind; [ apply none_emit, Hl | quiet ].
Qed.

(** [classifyNote] swallows every error of the adapters. *)
Lemma classifyNote_total s content : total (classifyNote s content).
Proof.
  unfold classifyNote. apply total_try_catch. intros e.
  apply total_bind; [ apply total_emit | intros; apply total_ret ].
Qed.

Lemma move_to_no_fetch file folder : at_most is_fetch 0 (move_to file folder).
Proof. unfold move_to. open_calls. quiet. Qed.

Lemma move_to_no_read file folder : at_most is_read 0 (move_to file folder).
Proof. unfold move_to. open_calls. quiet. Qed.

Lemma move_to_no_delay file folder : at_most is_delay 0 (move_to file folder).
Proof. unfold move_to. open_calls. quiet. Qed.

Lemma classifyAndMoveNote_eq s file :
  classifyAndMoveNote s file
  = try_catch (bind (read file) (after_read s file)) (on_error file).
Proof. reflexivity. Qed.

Lemma on_error_silent p file e :
  (forall l, p (EvConsoleError l) = false) -> at_most p 0 (@on_error W file e).
Proof.
  intros Hl. unfold on_error. open_calls.
  apply none_bind; [ apply none_emit, Hl | quiet ].
Qed.

Lemma after_read_fetch s file content : at_most is_fetch 1 (after_read s file content).
Proof.
  unfold after_read. destruct (negb (truthy (trim content))); [ apply at_most_ret | ].
  apply (at_most_bind (a := 1) (b := 0)); [ apply classifyNote_fetch | ].
  intros [folder | ]; [ | apply at_most_ret ].
  destruct (label_accepted s folder); [ apply move_to_no_fetch | apply at_most_ret ].
Qed.

Lemma after_read_no_read s file content : at_most is_read 0 (after_read s file content).
Proof.
  unfold after_read. destruct (negb (truthy (trim content))); [ apply at_most_ret | ].
  apply none_bind; [ now apply classifyNote_silent | ].
  intros [folder | ]; [ | apply at_most_ret ].
  destruct (label_accepted s folder); [ apply move_to_no_read | apply at_most_ret ].
Qed.

Lemma after_read_no_delay s file content : at_most is_delay 0 (after_read s file content).
Proof.
  unfold after_read. destruct (negb (truthy (trim content))); [ apply at_most_ret | ].
  apply none_bind; [ now apply classifyNote_silent | ].
  intros [folder | ]; [ | apply at_most_ret ].
  destruct (label_accepted s folder); [ apply move_to_no_delay | apply at_most_ret ].
Qed.

(** With a label that is not accepted nothing is created or renamed. *)
Lemma after_read_no_move s file content :
  (forall folder, label_accepted s folder = false) ->
  at_most is_move 0 (after_read s file content).
Proof.
  intros Hno. unfold after_read.
  destruct (negb (truthy (trim content))); [ apply at_most_ret | ].
  apply none_bind; [ now apply classifyNote_silent | ].
  intros [folder | ]; [ | apply at_most_ret ].
  rewrite Hno. apply at_most_ret.
Qed.

(** Every error of a task is caught at its boundary. *)
Lemma classifyAndMoveNote_total s file : total (classifyAndMoveNote s file).
Proof.
  rewrite classifyAndMoveNote_eq. apply total_try_catch. intros e.
  apply total_bind; [ apply total_emit | intros; apply total_ret ].
Qed.

Lemma classifyAndMoveNote_fetch s file : at_most is_fetch 1 (classifyAndMoveNote s file).
Proof.
  rewrite classifyAndMoveNote_eq.
  apply (at_most_try_catch (a := 1) (b := 0)); [ | intros; now apply on_error_silent ].
  apply (at_most_bind (a := 0) (b := 1)); [ now apply none_call | ].
  intros content. apply after_read_fetch.
Qed.

Lemma classifyAndMoveNote_no_delay s file :
  at_most is_delay 0 (classifyAndMoveNote s file).
Proof.
  rewrite classifyAndMoveNote_eq.
  apply none_try_catch; [ | intros; now apply on_error_silent ].
  apply none_bind; [ now apply none_call | intros; apply after_read_no_delay ].
Qed.

Lemma classifyAndMoveNote_no_move s file :
  (forall folder, label_accepted s folder = false) ->
  at_most is_move 0 (classifyAndMoveNote s file).
Proof.
  intros Hno. rewrite classifyAndMoveNote_eq.
  apply none_try_catch; [ | intros; now apply on_error_silent ].
  apply none_bind; [ now apply none_call | intros; now apply after_read_no_move ].
Qed.

(** A task reads its document exactly once, first of all. *)
Lemma classifyAndMoveNote_reads_once s file w :
  count is_read (trace (classifyAndMoveNote s file w)) = 1.
Proof.
  rewrite classifyAndMoveNote_eq. unfold try_catch, bind, read, call, trace.
  destruct (vault_read file w) as [[content | e] w1].
  - pose proof (after_read_no_read s file content w1) as H. unfold trace in H.
    destruct (after_read s file content w1) as [[[b | e] w2] t2]; cbn in *;
      rewrite ?count_cons, ?count_app, ?count_cons, ?count_nil; cbn; lia.
  - cbn. rewrite ?count_cons, ?count_nil. cbn. lia.
Qed.

End TaskFacts.

(** ** Facts about the windows *)

Section Windows.

Lemma ceil_div_step n k : 1 <= k -> 1 <= n -> ceil_div n k = S (ceil_div (n - k) k).
Proof.
  intros Hk Hn. unfold ceil_div.
  destruct (le_lt_dec k n) as [Hle | Hlt].
  - replace (n + k - 1) with ((n - k + k - 1) + 1 * k) by lia.
    rewrite Nat.div_add by lia. lia.
  - replace (n - k) with 0 by lia. cbn [Nat.add].
    rewrite (Nat.div_small (k - 1) k) by lia.
    symmetry. apply Nat.div_unique with (r := n - 1); lia.
Qed.

Lemma ceil_div_0 k : 1 <= k -> ceil_div 0 k = 0.
Proof. intros Hk. unfold ceil_div. apply Nat.div_small. lia. Qed.

Lemma slice_window {A} (l : list A) i k : slice l i (i + k) = firstn k (skipn i l).
Proof. unfold slice. f_equal. lia. Qed.

(** The loop invariant of the batching loop: from position [i] on, the loop
    appends the consecutive slices of the rest of the list. *)
Lemma batch_loop_from (files : list TFile) k :
  1 <= k ->
  forall fuel i batches,
    length files - i < fuel ->
    exists rest,
      batch_loop fuel files k i batches = Some (batches ++ rest)
      /\ concat rest = skipn i files
      /\ length rest = ceil_div (length files - i) k
      /\ Forall (fun b => 1 <= length b <= k) rest
      /\ (forall j, j < length rest ->
                    nth j rest [] = slice files (i + j * k) (i + j * k + k)).
Proof.
  intros Hk. induction fuel as [ | fuel IH]; intros i batches Hfuel; [ lia | ].
  cbn [batch_loop]. destruct (Nat.ltb_spec i (length files)) as [Hlt | Hge].
  - destruct (IH (i + k) (batches ++ [slice files i (i + k)])) as
      (rest & Hrun & Hcat & Hlen & Hsize & Hnth); [ lia | ].
    exists (slice files i (i + k) :: rest). repeat split.
    + rewrite Hrun, <- app_assoc. reflexivity.
    + cbn [concat]. rewrite Hcat, slice_window.
      replace (i + k) with (k + i) by lia.
      rewrite <- skipn_skipn. apply firstn_skipn.
    + cbn [length]. rewrite Hlen.
      rewrite (@ceil_div_step (length files - i) k) by lia.
      do 2 f_equal. lia.
    + constructor; [ | exact Hsize ].
      rewrite slice_window, length_firstn, length_skipn. lia.
    + intros [ | j] Hj.
      * cbn. now rewrite Nat.add_0_r.
      * cbn [nth]. cbn [length] in Hj. rewrite Hnth by lia.
        f_equal; cbn [Nat.mul]; lia.
  - exists []. repeat split.
    + now rewrite app_nil_r.
    + cbn. symmetry. apply skipn_all2. lia.
    + replace (length files - i) with 0 by lia. now rewrite ceil_div_0.
    + constructor.
    + cbn. lia.
Qed.

(** The windows of a run, for a concurrency bound of at least 1 and enough
    fuel: one more iteration than there are documents always suffices. *)
Lemma batch_loop_windows (files : list TFile) k fuel :
  1 <= k -> length files < fuel ->
  exists batches,
    batch_loop fuel files k 0 [] = Some batches
    /\ concat batches = files
    /\ length batches = ceil_div (length files) k
    /\ Forall (fun b => 1 <= length b <= k) batches
    /\ (forall j, j < length batches ->
                  nth j batches [] = slice files (j * k) (j * k + k)).
Proof.
  intros Hk Hfuel.
  destruct (@batch_loop_from files k Hk fuel 0 []) as
    (rest & Hrun & Hcat & Hlen & Hsize & Hnth); [ lia | ].
  exists rest. rewrite Nat.sub_0_r in Hlen. cbn in Hrun, Hcat, Hnth.
  repeat split; auto.
Qed.

End Windows.

(** ** Facts about strings *)

Section StringFacts.

Lemma string_eqb_eq a b : string_eqb a b = true <-> a = b.
Proof.
  revert b. induction a as [ | x a IH]; intros [ | y b]; cbn; try (split; congruence).
  rewrite andb_true_iff, N.eqb_eq, IH. split; [ intros [-> ->] | intros [= -> ->] ]; auto.
Qed.

Lemma string_eqb_refl a : string_eqb a a = true.
Proof. now apply string_eqb_eq. Qed.

Lemma includes_In a x : includes a x = true <-> In x a.
Proof.
  unfold includes. rewrite existsb_exists. split.
  - intros (y & Hin & Heq). apply string_eqb_eq in Heq. now subst.
  - intros Hin. exists x. split; [ exact Hin | apply string_eqb_refl ].
Qed.

Lemma startsWith_prefix s p : startsWith s p = true <-> exists r, s = p ++ r.
Proof.
  revert s. induction p as [ | x p IH]; intros s.
  - destruct s; cbn; split; eauto.
  - destruct s as [ | y s]; cbn.
    + split; [ discriminate | intros (r & Hr); discriminate ].
    + rewrite andb_true_iff, N.eqb_eq, IH. split.
      * intros (-> & r & ->). now exists r.
      * intros (r & [= -> ->]). eauto.
Qed.

Lemma includes_char_In s c : includes_char s c = true <-> In c s.
Proof.
  unfold includes_char. rewrite existsb_exists. split.
  - intros (y & Hin & Heq). apply N.eqb_eq in Heq. now subst.
  - intros Hin. exists c. split; [ exact Hin | apply N.eqb_refl ].
Qed.

Lemma includes_char_app s t c :
  includes_char (s ++ t) c = includes_char s c || includes_char t c.
Proof. apply existsb_app. Qed.

Lemma includes_char_rev s c : includes_char (rev s) c = includes_char s c.
Proof.
  apply eq_true_iff_eq. rewrite !includes_char_In. symmetry. apply in_rev.
Qed.

(** *** [trim] *)

Lemma trimStart_head s :
  trimStart s = [] \/ exists c r, trimStart s = c :: r /\ is_white_space c = false.
Proof.
  induction s as [ | c r IH]; [ now left | ].
  cbn. destruct (is_white_space c) eqn:Hc; [ exact IH | right; eauto ].
Qed.

Lemma trimStart_nonws c r : is_white_space c = false -> trimStart (c :: r) = c :: r.
Proof. intros H. cbn. now rewrite H. Qed.

Lemma trimStart_idem s : trimStart (trimStart s) = trimStart s.
Proof.
  destruct (trimStart_head s) as [-> | (c & r & -> & Hc)]; [ reflexivity | ].
  now apply trimStart_nonws.
Qed.

Lemma trimStart_snoc l c :
  is_white_space c = false -> trimStart (l ++ [c]) = trimStart l ++ [c].
Proof.
  intros Hc. induction l as [ | x l IH]; cbn; [ now rewrite Hc | ].
  destruct (is_white_space x); [ exact IH | reflexivity ].
Qed.

Lemma trimStart_nil s : trimStart s = [] -> forallb is_white_space s = true.
Proof.
  induction s as [ | c r IH]; [ reflexivity | ].
  cbn. destruct (is_white_space c); [ exact IH | discriminate ].
Qed.

Lemma trimEnd_cons c x : is_white_space c = false -> trimEnd (c :: x) = c :: trimEnd x.
Proof.
  intros Hc. unfold trimEnd. cbn [rev].
  rewrite trimStart_snoc by assumption. now rewrite rev_app_distr.
Qed.

Lemma trimEnd_idem x : trimEnd (trimEnd x) = trimEnd x.
Proof. unfold trimEnd. now rewrite rev_involutive, trimStart_idem. Qed.

(** [trim] gives the empty string, or a string that starts with a
    character that is not white space. *)
Lemma trim_head s :
  trim s = [] \/ exists c x, trimStart s = c :: x /\ is_white_space c = false
                             /\ trim s = c :: trimEnd x.
Proof.
  unfold trim. destruct (trimStart_head s) as [-> | (c & r & -> & Hc)]; [ now left | ].
  right. exists c, r. repeat split; auto. now apply trimEnd_cons.
Qed.

Lemma trim_idem s : trim (trim s) = trim s.
Proof.
  destruct (trim_head s) as [-> | (c & x & _ & Hc & ->)]; [ reflexivity | ].
  unfold trim at 1. rewrite trimStart_nonws by assumption.
  rewrite trimEnd_cons by assumption. now rewrite trimEnd_idem.
Qed.

Lemma trim_nil s : trim s = [] -> forallb is_white_space s = true.
Proof.
  intros H. destruct (trim_head s) as [_ | (c & x & _ & _ & Heq)]; [ | congruence ].
  apply trimStart_nil. unfold trim in H.
  destruct (trimStart_head s) as [Hs | (c & r & Hs & Hc)]; [ exact Hs | ].
  rewrite Hs in H. rewrite trimEnd_cons in H by assumption. discriminate.
Qed.

Lemma trimStart_sub s c : includes_char (trimStart s) c = true -> includes_char s c = true.
Proof.
  induction s as [ | x s IH]; [ auto | ].
  cbn [trimStart]. destruct (is_white_space x); [ | auto ].
  intros H. apply includes_char_In. right. apply includes_char_In. auto.
Qed.

Lemma trim_sub s c : includes_char (trim s) c = true -> includes_char s c = true.
Proof.
  unfold trim, trimEnd. rewrite includes_char_rev. intros H.
  apply trimStart_sub in H. rewrite includes_char_rev in H. now apply trimStart_sub.
Qed.

(** *** [split] *)

Lemma split_on_nonempty sep s : split_on sep s <> [].
Proof.
  destruct s as [ | c r]; cbn; [ discriminate | ].
  destruct (N.eqb c sep); [ discriminate | ]. now destruct (split_on sep r).
Qed.

Lemma split_on_pieces sep s :
  Forall (fun x => includes_char x sep = false) (split_on sep s).
Proof.
  induction s as [ | c r IH]; cbn; [ now repeat constructor | ].
  destruct (N.eqb_spec c sep) as [-> | Hne]; [ now constructor | ].
  destruct (split_on sep r) as [ | x xs]; [ constructor; auto; cbn | ].
  - rewrite orb_false_r. apply N.eqb_neq. congruence.
  - inversion IH; subst. constructor; auto. cbn.
    apply orb_false_iff. split; [ apply N.eqb_neq; congruence | assumption ].
Qed.

Lemma split_on_none sep x : includes_char x sep = false -> split_on sep x = [x].
Proof.
  induction x as [ | c r IH]; [ reflexivity | ].
  cbn. intros H. apply orb_false_iff in H as [Hc Hr].
  rewrite N.eqb_sym, Hc, IH by assumption. reflexivity.
Qed.

Lemma split_on_app sep x y :
  includes_char x sep = false ->
  split_on sep (x ++ sep :: y) = x :: split_on sep y.
Proof.
  induction x as [ | c r IH]; cbn.
  - intros _. now rewrite N.eqb_refl.
  - intros H. apply orb_false_iff in H as [Hc Hr].
    rewrite N.eqb_sym, Hc, IH by assumption. reflexivity.
Qed.

End StringFacts.

(** ** More facts about the monad *)

Section OnlyFacts.

Context {W : Type}.

Lemma only_ret {A} P (a : A) : only P (@ret W A a).
Proof. intros w. constructor. Qed.

Lemma only_throw {A} P e : only P (@throw W A e).
Proof. intros w. constructor. Qed.

Lemma only_lift {A} P (c : Completion A) : only P (@lift W A c).
Proof. intros w. constructor. Qed.

Lemma only_query {A} P (f : W -> A) : only P (query f).
Proof. intros w. constructor. Qed.

Lemma only_emit (P : event -> Prop) e : P e -> only P (@emit W e).
Proof. intros H w. now repeat constructor. Qed.

Lemma only_call {A} (P : event -> Prop) e (op : W -> Completion A * W) :
  P e -> only P (call e op).
Proof.
  intros H w. unfold call, trace. destruct (op w) as [r w1]. now repeat constructor.
Qed.

Lemma only_bind {A B} P (m : M W A) (k : A -> M W B) :
  only P m -> (forall x, only P (k x)) -> only P (bind m k).
Proof.
  intros Hm Hk w. specialize (Hm w). unfold bind, trace in *.
  destruct (m w) as [[[x | e] w1] t1]; cbn in *; [ | exact Hm ].
  specialize (Hk x w1). destruct (k x w1) as [[r w2] t2]. cbn in *.
  apply Forall_app. now split.
Qed.

Lemma only_try_catch {A} P (m : M W A) (h : error -> M W A) :
  only P m -> (forall e, only P (h e)) -> only P (try_catch m h).
Proof.
  intros Hm Hh w. specialize (Hm w). unfold try_catch, trace in *.
  destruct (m w) as [[[x | e] w1] t1]; cbn in *; [ exact Hm | ].
  specialize (Hh e w1). destruct (h e w1) as [[r w2] t2]. cbn in *.
  apply Forall_app. now split.
Qed.

End OnlyFacts.

(** ** More facts about one task *)

Section MoreTaskFacts.

Context {W : Type} {host : Host W}.

Lemma trim_nonblank content : blank content = false -> truthy (trim content) = true.
Proof.
  intros H. destruct (trim content) eqn:Ht; [ | reflexivity ].
  apply trim_nil in Ht. unfold blank in H. congruence.
Qed.

(** A label that [classifyNote] returns is the trimmed text of the answer
    and is not empty. *)
Lemma classifyNote_label s content (w w' : W) label t :
  classifyNote s content w = (Normal (Some label), w', t) ->
  label <> [] /\ trim label = label.
Proof.
  unfold classifyNote, try_catch, bind, lift.
  destruct (call_selected_model s (build_prompt s content) w) as [[[resp | e] w1] t1].
  - destruct resp as [ | | b | z | raw | items | fields]; cbn; try discriminate.
    destruct (truthy (trim raw)) eqn:Htr; [ | discriminate ].
    intros [= <- _ _]. split; [ | apply trim_idem ].
    intros Heq. rewrite Heq in Htr. discriminate.
  - cbn. discriminate.
Qed.

Lemma label_accepted_In s folder :
  label_accepted s folder = true -> In folder (targetFolders s).
Proof.
  unfold label_accepted. intros H. apply andb_prop in H as [_ H].
  now apply includes_In.
Qed.

Lemma call_api_only P prov key text prompt :
  P (EvFetch {| provider := prov; apiKey := key; body_prompt := prompt |}) ->
  (forall l, P (EvConsoleError l)) ->
  only P (@call_api W host prov key text prompt).
Proof.
  intros Hf Hl. unfold call_api, fetch, console_error.
  apply only_try_catch.
  - apply only_bind; [ now apply only_call | ].
    intros response. unfold after_fetch.
    destruct (negb (ok response)); [ apply only_throw | ].
    repeat (apply only_bind; [ apply only_lift | intros ]). apply only_ret.
  - intros e. apply only_bind; [ apply only_emit, Hl | intros; apply only_throw ].
Qed.

Lemma classifyNote_only P s content :
  (forall prov prompt,
      selected_provider s = Some prov ->
      P (EvFetch {| provider := prov; apiKey := getCurrentApiKey s;
                    body_prompt := prompt |})) ->
  (forall l, P (EvConsoleError l)) ->
  only P (@classifyNote W host s content).
Proof.
  intros Hf Hl. unfold classifyNote, console_error.
  apply only_try_catch.
  - apply only_bind; [ | intros; apply only_lift ].
    unfold call_selected_model, callGeminiAPI, callClaudeAPI, callGPTAPI.
    specialize (Hf Gemini (build_prompt s content)) as Hg.
    specialize (Hf Claude (build_prompt s content)) as Hc.
    specialize (Hf GPT (build_prompt s content)) as Hp.
    unfold selected_provider, getCurrentApiKey in Hg, Hc, Hp.
    destruct (string_eqb (aiModel s) (str "gemini")); [ now apply call_api_only; auto | ].
    destruct (string_eqb (aiModel s) (str "claude")); [ now apply call_api_only; auto | ].
    destruct (string_eqb (aiModel s) (str "gpt")); [ now apply call_api_only; auto | ].
    apply only_ret.
  - intros e. apply only_bind; [ apply only_emit, Hl | intros; apply only_ret ].
Qed.

(** What a task issues, stage by stage. *)
Lemma classifyAndMoveNote_only P s file :
  P (EvRead file) ->
  (forall prov prompt,
      selected_provider s = Some prov ->
      P (EvFetch {| provider := prov; apiKey := getCurrentApiKey s;
                    body_prompt := prompt |})) ->
  (forall l, P (EvConsoleError l)) ->
  (forall folder, In folder (targetFolders s) ->
                  P (EvCreateFolder folder)
                  /\ P (EvRename file (destination folder file))) ->
  only P (@classifyAndMoveNote W host s file).
Proof.
  intros Hr Hf Hl Hm. rewrite classifyAndMoveNote_eq.
  apply only_try_catch.
  - apply only_bind; [ now apply only_call | ].
    intros content. unfold after_read.
    destruct (negb (truthy (trim content))); [ apply only_ret | ].
    apply only_bind; [ now apply classifyNote_only | ].
    intros [folder | ]; [ | apply only_ret ].
    destruct (label_accepted s folder) eqn:Hacc; [ | apply only_ret ].
    apply label_accepted_In in Hacc. destruct (Hm folder Hacc) as [Hc Hn].
    unfold move_to, lookup_path, createFolder, rename.
    apply only_bind; [ apply only_query | ].
    intros target. apply only_bind.
    + destruct target; [ apply only_ret | now apply only_call ].
    + intros _. apply only_bind; [ now apply only_call | intros; apply only_ret ].
  - intros e. unfold on_error, console_error.
    apply only_bind; [ apply only_emit, Hl | intros; apply only_ret ].
Qed.

End MoreTaskFacts.

(** ** Facts about processes *)

Section ProcessFacts.

Context {W : Type} {host : Host W}.

(** A behaviour of [m] followed by [k]: [m] throws, or [m] returns and [k]
    goes on. *)
Lemma behaviour_bind {A B} (m : Proc A) (k : A -> Proc B) c t :
  behaviour (Task.bind m k) c t ->
  (exists e, behaviour m (Throw e) t /\ c = Throw e)
  \/ (exists a t1 t2,
         behaviour m (Normal a) t1 /\ behaviour (k a) c t2 /\ t = t1 ++ t2).
Proof.
  revert c t.
  induction m as [c0 | e m' IH | q c0 IH | f c0 IH | r c0 IH | q c0 IH | f q c0 IH];
    intros c t Hb; cbn [Task.bind] in Hb.
  - destruct c0 as [a | e].
    + right. exists a, [], t. repeat split; auto. constructor.
    + inversion Hb; subst. left. exists e. split; [ constructor | reflexivity ].
  - inversion Hb; subst.
    destruct (IH _ _ H3) as [(x & Hm & ->) | (a & t1 & t2 & Hm & Hk & ->)].
    + left. exists x. split; [ now constructor | reflexivity ].
    + right. exists a, (e :: t1), t2. repeat split; auto. now constructor.
  - inversion Hb; subst.
    destruct (IH _ _ _ H3) as [(x & Hm & ->) | (a & t1 & t2 & Hm & Hk & ->)].
    + left. exists x. split; [ now econstructor; eauto | reflexivity ].
    + right. exists a, t1, t2. repeat split; auto. econstructor; eauto.
  - inversion Hb; subst.
    destruct (IH _ _ _ H3) as [(x & Hm & ->) | (a & t1 & t2 & Hm & Hk & ->)].
    + left. exists x. split; [ now econstructor; eauto | reflexivity ].
    + right. exists a, (EvRead f :: t1), t2. repeat split; auto. econstructor; eauto.
  - inversion Hb; subst.
    destruct (IH _ _ _ H3) as [(x & Hm & ->) | (a & t1 & t2 & Hm & Hk & ->)].
    + left. exists x. split; [ now econstructor; eauto | reflexivity ].
    + right. exists a, (EvFetch r :: t1), t2. repeat split; auto. econstructor; eauto.
  - inversion Hb; subst.
    destruct (IH _ _ _ H3) as [(x & Hm & ->) | (a & t1 & t2 & Hm & Hk & ->)].
    + left. exists x. split; [ now econstructor; eauto | reflexivity ].
    + right. exists a, (EvCreateFolder q :: t1), t2. repeat split; auto.
      econstructor; eauto.
  - inversion Hb; subst.
    destruct (IH _ _ _ H4) as [(x & Hm & ->) | (a & t1 & t2 & Hm & Hk & ->)].
    + left. exists x. split; [ now econstructor; eauto | reflexivity ].
    + right. exists a, (EvRename f q :: t1), t2. repeat split; auto.
      econstructor; eauto.
Qed.

(** A behaviour of [try { m } catch { h }]: [m] returns, or [m] throws and
    [h] goes on. *)
Lemma behaviour_try_catch {A} (m : Proc A) (h : error -> Proc A) c t :
  behaviour (Task.try_catch m h) c t ->
  (exists a, behaviour m (Normal a) t /\ c = Normal a)
  \/ (exists e t1 t2,
         behaviour m (Throw e) t1 /\ behaviour (h e) c t2 /\ t = t1 ++ t2).
Proof.
  revert c t.
  induction m as [c0 | e m' IH | q c0 IH | f c0 IH | r c0 IH | q c0 IH | f q c0 IH];
    intros c t Hb; cbn [Task.try_catch] in Hb.
  - destruct c0 as [a | e].
    + inversion Hb; subst. left. exists a. split; [ constructor | reflexivity ].
    + right. exists e, [], t. repeat split; auto. constructor.
  - inversion Hb; subst.
    destruct (IH _ _ H3) as [(x & Hm & ->) | (a & t1 & t2 & Hm & Hk & ->)].
    + left. exists x. split; [ now constructor | reflexivity ].
    + right. exists a, (e :: t1), t2. repeat split; auto. now constructor.
  - inversion Hb; subst.
    destruct (IH _ _ _ H3) as [(x & Hm & ->) | (a & t1 & t2 & Hm & Hk & ->)].
    + left. exists x. split; [ now econstructor; eauto | reflexivity ].
    + right. exists a, t1, t2. repeat split; auto. econstructor; eauto.
  - inversion Hb; subst.
    destruct (IH _ _ _ H3) as [(x & Hm & ->) | (a & t1 & t2 & Hm & Hk & ->)].
    + left. exists x. split; [ now econstructor; eauto | reflexivity ].
    + right. exists a, (EvRead f :: t1), t2. repeat split; auto. econstructor; eauto.
  - inversion Hb; subst.
    destruct (IH _ _ _ H3) as [(x & Hm & ->) | (a & t1 & t2 & Hm & Hk & ->)].
    + left. exists x. split; [ now econstructor; eauto | reflexivity ].
    + right. exists a, (EvFetch r :: t1), t2. repeat split; auto. econstructor; eauto.
  - inversion Hb; subst.
    destruct (IH _ _ _ H3) as [(x & Hm & ->) | (a & t1 & t2 & Hm & Hk & ->)].
    + left. exists x. split; [ now econstructor; eauto | reflexivity ].
    + right. exists a, (EvCreateFolder q :: t1), t2. repeat split; auto.
      econstructor; eauto.
  - inversion Hb; subst.
    destruct (IH _ _ _ H4) as [(x & Hm & ->) | (a & t1 & t2 & Hm & Hk & ->)].
    + left. exists x. split; [ now econstructor; eauto | reflexivity ].
    + right. exists a, (EvRename f q :: t1), t2. repeat split; auto.
      econstructor; eauto.
Qed.

Lemma behaviour_done_inv {A} (c0 c : Completion A) t :
  behaviour (Done c0) c t -> c = c0 /\ t = [].
Proof. intros H. inversion H; subst. now split. Qed.

Lemma task_console_error_behaviour l c t :
  behaviour (Task.console_error l) c t -> c = Normal tt /\ t = [EvConsoleError l].
Proof.
  unfold Task.console_error. intros H. inversion H; subst.
  match goal with H' : behaviour (Done _) _ _ |- _ =>
    apply behaviour_done_inv in H' as [-> ->] end.
  now split.
Qed.

Lemma task_read_behaviour file c t : behaviour (Task.read file) c t -> t = [EvRead file].
Proof.
  unfold Task.read. intros H. inversion H; subst.
  match goal with H' : behaviour (Done _) _ _ |- _ =>
    apply behaviour_done_inv in H' as [_ ->] end.
  reflexivity.
Qed.

Lemma task_fetch_behaviour r c t : behaviour (Task.fetch r) c t -> t = [EvFetch r].
Proof.
  unfold Task.fetch. intros H. inversion H; subst.
  match goal with H' : behaviour (Done _) _ _ |- _ =>
    apply behaviour_done_inv in H' as [_ ->] end.
  reflexivity.
Qed.

Lemma task_createFolder_behaviour q c t :
  behaviour (Task.createFolder q) c t -> t = [EvCreateFolder q].
Proof.
  unfold Task.createFolder. intros H. inversion H; subst.
  match goal with H' : behaviour (Done _) _ _ |- _ =>
    apply behaviour_done_inv in H' as [_ ->] end.
  reflexivity.
Qed.

Lemma task_rename_behaviour file q c t :
  behaviour (Task.rename file q) c t -> t = [EvRename file q].
Proof.
  unfold Task.rename. intros H. inversion H; subst.
  match goal with H' : behaviour (Done _) _ _ |- _ =>
    apply behaviour_done_inv in H' as [_ ->] end.
  reflexivity.
Qed.

(** The look at the vault gives what the host answers in some state. *)
Lemma task_lookup_path_behaviour q c t :
  behaviour (Task.lookup_path q) c t ->
  t = [] /\ exists w, c = Normal (getAbstractFileByPath q w).
Proof.
  unfold Task.lookup_path. intros H. inversion H; subst.
  match goal with H' : behaviour (Done _) _ _ |- _ =>
    apply behaviour_done_inv in H' as [-> ->] end.
  split; [ reflexivity | eauto ].
Qed.

(** *** Counting *)

Lemma at_most_in_done {A} q n (c : Completion A) : at_most_in q n (Done c).
Proof. intros c' t H. apply behaviour_done_inv in H as [_ ->]. rewrite count_nil. lia. Qed.

Lemma at_most_in_console_error q l :
  q (EvConsoleError l) = false -> at_most_in q 0 (Task.console_error l).
Proof.
  intros Hq c t H. apply task_console_error_behaviour in H as [_ ->].
  rewrite count_cons, count_nil, Hq. lia.
Qed.

Lemma at_most_in_bind {A B} q a b (m : Proc A) (k : A -> Proc B) :
  at_most_in q a m -> (forall x, at_most_in q b (k x)) ->
  at_most_in q (a + b) (Task.bind m k).
Proof.
  intros Hm Hk c t H.
  apply behaviour_bind in H as [(e & H1 & _) | (x & t1 & t2 & H1 & H2 & ->)].
  - specialize (Hm _ _ H1). lia.
  - specialize (Hm _ _ H1). specialize (Hk _ _ _ H2). rewrite count_app. lia.
Qed.

Lemma at_most_in_try_catch {A} q a b (m : Proc A) (h : error -> Proc A) :
  at_most_in q a m -> (forall e, at_most_in q b (h e)) ->
  at_most_in q (a + b) (Task.try_catch m h).
Proof.
  intros Hm Hh c t H.
  apply behaviour_try_catch in H as [(x & H1 & _) | (e & t1 & t2 & H1 & H2 & ->)].
  - specialize (Hm _ _ H1). lia.
  - specialize (Hm _ _ H1). specialize (Hh _ _ _ H2). rewrite count_app. lia.
Qed.

Lemma none_in_bind {A B} q (m : Proc A) (k : A -> Proc B) :
  at_most_in q 0 m -> (forall x, at_most_in q 0 (k x)) -> at_most_in q 0 (Task.bind m k).
Proof. intros Hm Hk. change 0 with (0 + 0). now apply at_most_in_bind. Qed.


Lemma at_most_in_read q file : at_most_in q (if q (EvRead file) then 1 else 0) (Task.read file).
Proof.
  intros c t H. apply task_read_behaviour in H as ->.
  rewrite count_cons, count_nil. destruct (q (EvRead file)); lia.
Qed.

Lemma at_most_in_fetch q r : at_most_in q (if q (EvFetch r) then 1 else 0) (Task.fetch r).
Proof.
  intros c t H. apply task_fetch_behaviour in H as ->.
  rewrite count_cons, count_nil. destruct (q (EvFetch r)); lia.
Qed.

Lemma at_most_in_createFolder q p :
  at_most_in q (if q (EvCreateFolder p) then 1 else 0) (Task.createFolder p).
Proof.
  intros c t H. apply task_createFolder_behaviour in H as ->.
  rewrite count_cons, count_nil. destruct (q (EvCreateFolder p)); lia.
Qed.

Lemma at_most_in_rename q file p :
  at_most_in q (if q (EvRename file p) then 1 else 0) (Task.rename file p).
Proof.
  intros c t H. apply task_rename_behaviour in H as ->.
  rewrite count_cons, count_nil. destruct (q (EvRename file p)); lia.
Qed.

Lemma at_most_in_lookup_path q n p : at_most_in q n (Task.lookup_path p).
Proof.
  intros c t H. apply task_lookup_path_behaviour in H as [-> _]. rewrite count_nil. lia.
Qed.

(** *** Events of one kind only *)

Lemma only_in_done {A} Q (c : Completion A) : only_in Q (Done c).
Proof. intros c' t H. apply behaviour_done_inv in H as [_ ->]. constructor. Qed.

Lemma only_in_console_error (Q : event -> Prop) l :
  Q (EvConsoleError l) -> only_in Q (Task.console_error l).
Proof.
  intros HQ c t H. apply task_console_error_behaviour in H as [_ ->]. now repeat constructor.
Qed.

Lemma only_in_bind {A B} Q (m : Proc A) (k : A -> Proc B) :
  only_in Q m -> (forall x, only_in Q (k x)) -> only_in Q (Task.bind m k).
Proof.
  intros Hm Hk c t H.
  apply behaviour_bind in H as [(e & H1 & _) | (x & t1 & t2 & H1 & H2 & ->)].
  - exact (Hm _ _ H1).
  - apply Forall_app. split; [ exact (Hm _ _ H1) | exact (Hk _ _ _ H2) ].
Qed.

Lemma only_in_try_catch {A} Q (m : Proc A) (h : error -> Proc A) :
  only_in Q m -> (forall e, only_in Q (h e)) -> only_in Q (Task.try_catch m h).
Proof.
  intros Hm Hh c t H.
  apply behaviour_try_catch in H as [(x & H1 & _) | (e & t1 & t2 & H1 & H2 & ->)].
  - exact (Hm _ _ H1).
  - apply Forall_app. split; [ exact (Hm _ _ H1) | exact (Hh _ _ _ H2) ].
Qed.

Lemma only_in_read (Q : event -> Prop) file : Q (EvRead file) -> only_in Q (Task.read file).
Proof. intros HQ c t H. apply task_read_behaviour in H as ->. now repeat constructor. Qed.

Lemma only_in_fetch (Q : event -> Prop) r : Q (EvFetch r) -> only_in Q (Task.fetch r).
Proof. intros HQ c t H. apply task_fetch_behaviour in H as ->. now repeat constructor. Qed.

Lemma only_in_createFolder (Q : event -> Prop) p :
  Q (EvCreateFolder p) -> only_in Q (Task.createFolder p).
Proof. intros HQ c t H. apply task_createFolder_behaviour in H as ->. now repeat constructor. Qed.

Lemma only_in_rename (Q : event -> Prop) file p :
  Q (EvRename file p) -> only_in Q (Task.rename file p).
Proof. intros HQ c t H. apply task_rename_behaviour in H as ->. now repeat constructor. Qed.

Lemma only_in_lookup_path Q p : only_in Q (Task.lookup_path p).
Proof. intros c t H. apply task_lookup_path_behaviour in H as [-> _]. constructor. Qed.

(** *** Never throwing *)

Lemma never_throws_ret {A} (a : A) : never_throws (Task.ret a).
Proof. intros c t H. apply behaviour_done_inv in H as [-> _]. now exists a. Qed.

Lemma never_throws_console_error l : never_throws (Task.console_error l).
Proof. intros c t H. apply task_console_error_behaviour in H as [-> _]. now exists tt. Qed.

Lemma never_throws_bind {A B} (m : Proc A) (k : A -> Proc B) :
  never_throws m -> (forall x, never_throws (k x)) -> never_throws (Task.bind m k).
Proof.
  intros Hm Hk c t H.
  apply behaviour_bind in H as [(e & H1 & _) | (x & t1 & t2 & H1 & H2 & ->)].
  - destruct (Hm _ _ H1) as [a Ha]. discriminate.
  - exact (Hk _ _ _ H2).
Qed.

Lemma never_throws_try_catch {A} (m : Proc A) (h : error -> Proc A) :
  (forall e, never_throws (h e)) -> never_throws (Task.try_catch m h).
Proof.
  intros Hh c t H.
  apply behaviour_try_catch in H as [(x & H1 & ->) | (e & t1 & t2 & H1 & H2 & ->)].
  - now exists x.
  - exact (Hh _ _ _ H2).
Qed.

End ProcessFacts.

(** ** Facts about the process of one task *)

Section TaskProcessFacts.

Context {W : Type} {host : Host W}.

Lemma only_in_none {A} q (p : Proc A) :
  only_in (fun e => q e = false) p -> at_most_in q 0 p.
Proof.
  intros H c t Hb. specialize (H c t Hb). clear Hb.
  induction H as [ | e t He _ IH]; [ now rewrite count_nil | ].
  rewrite count_cons, He. cbn. exact IH.
Qed.

Lemma returns_with_done {A} (P : A -> list event -> Prop) (c : Completion A) :
  (forall a, c = Normal a -> P a []) -> returns_with P (Done c).
Proof. intros H a t Hb. apply behaviour_done_inv in Hb as [Hc ->]. now apply H. Qed.

Lemma returns_with_bind {A B} (P : B -> list event -> Prop) (m : Proc A) (k : A -> Proc B) :
  (forall b t1 t2, P b t2 -> P b (t1 ++ t2)) ->
  (forall x, returns_with P (k x)) -> returns_with P (Task.bind m k).
Proof.
  intros Hsuffix Hk b t H.
  apply behaviour_bind in H as [(e & _ & He) | (x & t1 & t2 & _ & H2 & ->)];
    [ discriminate | ].
  apply Hsuffix. exact (Hk x b t2 H2).
Qed.

Lemma returns_with_try_catch {A} (P : A -> list event -> Prop) (m : Proc A)
      (h : error -> Proc A) :
  (forall b t1 t2, P b t2 -> P b (t1 ++ t2)) ->
  returns_with P m -> (forall e, returns_with P (h e)) ->
  returns_with P (Task.try_catch m h).
Proof.
  intros Hsuffix Hm Hh b t H.
  apply behaviour_try_catch in H as [(x & H1 & [= ->]) | (e & t1 & t2 & _ & H2 & ->)].
  - exact (Hm _ _ H1).
  - apply Hsuffix. exact (Hh e b t2 H2).
Qed.

Lemma task_classifyAndMoveNote_eq s file :
  Task.classifyAndMoveNote s file
  = Task.try_catch (Task.bind (Task.read file) (task_after_read s file))
                   (task_on_error file).
Proof. reflexivity. Qed.

(** *** The adapters and [classifyNote] *)

Lemma task_after_fetch_only Q text response : only_in Q (Task.after_fetch text response).
Proof.
  unfold Task.after_fetch. destruct (negb (ok response)); [ apply only_in_done | ].
  repeat (apply only_in_bind; [ apply only_in_done | intros ]). apply only_in_done.
Qed.

Lemma task_call_api_only (Q : event -> Prop) prov key text prompt :
  Q (EvFetch {| provider := prov; apiKey := key; body_prompt := prompt |}) ->
  (forall l, Q (EvConsoleError l)) ->
  only_in Q (Task.call_api prov key text prompt).
Proof.
  intros Hf Hl. unfold Task.call_api. apply only_in_try_catch.
  - apply only_in_bind; [ now apply only_in_fetch | intros; apply task_after_fetch_only ].
  - intros e. apply only_in_bind; [ apply only_in_console_error, Hl | intros; apply only_in_done ].
Qed.

Lemma task_call_api_fetch prov key text prompt :
  at_most_in is_fetch 1 (Task.call_api prov key text prompt).
Proof.
  unfold Task.call_api.
  apply (at_most_in_try_catch (a := 1) (b := 0)).
  - apply (at_most_in_bind (a := 1) (b := 0)); [ apply (at_most_in_fetch is_fetch) | ].
    intros response. apply only_in_none, task_after_fetch_only.
  - intros e. apply none_in_bind;
      [ now apply at_most_in_console_error | intros; apply at_most_in_done ].
Qed.

Lemma task_classifyNote_only (Q : event -> Prop) s content :
  (forall prov prompt,
      selected_provider s = Some prov ->
      Q (EvFetch {| provider := prov; apiKey := getCurrentApiKey s;
                    body_prompt := prompt |})) ->
  (forall l, Q (EvConsoleError l)) ->
  only_in Q (Task.classifyNote s content).
Proof.
  intros Hf Hl. unfold Task.classifyNote. apply only_in_try_catch.
  - apply only_in_bind; [ | intros; apply only_in_done ].
    unfold Task.call_selected_model, Task.callGeminiAPI, Task.callClaudeAPI,
      Task.callGPTAPI.
    specialize (Hf Gemini (build_prompt s content)) as Hg.
    specialize (Hf Claude (build_prompt s content)) as Hc.
    specialize (Hf GPT (build_prompt s content)) as Hp.
    unfold selected_provider, getCurrentApiKey in Hg, Hc, Hp.
    destruct (string_eqb (aiModel s) (str "gemini")); [ now apply task_call_api_only; auto | ].
    destruct (string_eqb (aiModel s) (str "claude")); [ now apply task_call_api_only; auto | ].
    destruct (string_eqb (aiModel s) (str "gpt")); [ now apply task_call_api_only; auto | ].
    apply only_in_done.
  - intros e. apply only_in_bind; [ apply only_in_console_error, Hl | intros; apply only_in_done ].
Qed.

Lemma task_classifyNote_silent q s content :
  (forall r, q (EvFetch r) = false) ->
  (forall l, q (EvConsoleError l) = false) ->
  at_most_in q 0 (Task.classifyNote s content).
Proof. intros Hf Hl. apply only_in_none, task_classifyNote_only; auto. Qed.

Lemma task_classifyNote_fetch s content : at_most_in is_fetch 1 (Task.classifyNote s content).
Proof.
  unfold Task.classifyNote. apply (at_most_in_try_catch (a := 1) (b := 0)).
  - apply (at_most_in_bind (a := 1) (b := 0)); [ | intros; apply at_most_in_done ].
    unfold Task.call_selected_model, Task.callGeminiAPI, Task.callClaudeAPI,
      Task.callGPTAPI.
    repeat match goal with |- context [if ?b then _ else _] => destruct b end;
      try apply task_call_api_fetch.
    apply at_most_in_done.
  - intros e. apply none_in_bind;
      [ now apply at_most_in_console_error | intros; apply at_most_in_done ].
Qed.

Lemma task_classifyNote_never_throws s content : never_throws (Task.classifyNote s content).
Proof.
  unfold Task.classifyNote. apply never_throws_try_catch. intros e.
  apply never_throws_bind; [ apply never_throws_console_error | intros; apply never_throws_ret ].
Qed.

(** *** [move_to] *)

Lemma task_move_to_only (Q : event -> Prop) file folder :
  Q (EvCreateFolder folder) ->
  Q (EvRename file (folder ++ str "/" ++ name file)) ->
  only_in Q (Task.move_to file folder).
Proof.
  intros Hc Hn. unfold Task.move_to.
  apply only_in_bind; [ apply only_in_lookup_path | ].
  intros target. apply only_in_bind.
  - destruct target; [ apply only_in_done | now apply only_in_createFolder ].
  - intros _. apply only_in_bind; [ now apply only_in_rename | intros; apply only_in_done ].
Qed.

Lemma task_move_to_rename_once file folder : at_most_in is_rename 1 (Task.move_to file folder).
Proof.
  unfold Task.move_to.
  apply (at_most_in_bind (a := 0) (b := 1)); [ apply at_most_in_lookup_path | ].
  intros target. apply (at_most_in_bind (a := 0) (b := 1)).
  - destruct target; [ apply at_most_in_done | apply (at_most_in_createFolder is_rename) ].
  - intros _. apply (at_most_in_bind (a := 1) (b := 0));
      [ apply (at_most_in_rename is_rename) | intros; apply at_most_in_done ].
Qed.

Lemma task_move_to_create_once file folder : at_most_in is_create 1 (Task.move_to file folder).
Proof.
  unfold Task.move_to.
  apply (at_most_in_bind (a := 0) (b := 1)); [ apply at_most_in_lookup_path | ].
  intros target. apply (at_most_in_bind (a := 1) (b := 0)).
  - destruct target; [ apply at_most_in_done | apply (at_most_in_createFolder is_create) ].
  - intros _. apply none_in_bind;
      [ apply (at_most_in_rename is_create) | intros; apply at_most_in_done ].
Qed.

(** A move that returns has issued its rename. *)
Lemma task_move_to_renames file folder :
  returns_with (fun _ t => 1 <= count is_rename t) (Task.move_to file folder).
Proof.
  unfold Task.move_to. intros b t H.
  apply behaviour_bind in H as [(e & _ & He) | (target & t1 & t2 & _ & H & ->)];
    [ discriminate | ].
  apply behaviour_bind in H as [(e & _ & He) | (u & t3 & t4 & _ & H & ->)];
    [ discriminate | ].
  apply behaviour_bind in H as [(e & _ & He) | (v & t5 & t6 & H & _ & ->)];
    [ discriminate | ].
  apply task_rename_behaviour in H as ->.
  rewrite !count_app, count_cons. cbn. lia.
Qed.


(** *** [classifyAndMoveNote] *)

Lemma task_on_error_only (Q : event -> Prop) file e :
  (forall l, Q (EvConsoleError l)) -> only_in Q (task_on_error file e).
Proof.
  intros Hl. unfold task_on_error.
  apply only_in_bind; [ apply only_in_console_error, Hl | intros; apply only_in_done ].
Qed.

Lemma task_on_error_silent q file e :
  (forall l, q (EvConsoleError l) = false) -> at_most_in q 0 (task_on_error file e).
Proof. intros Hl. apply only_in_none, task_on_error_only. exact Hl. Qed.

Lemma task_classifyAndMoveNote_never_throws s file :
  never_throws (Task.classifyAndMoveNote s file).
Proof.
  rewrite task_classifyAndMoveNote_eq. apply never_throws_try_catch. intros e.
  unfold task_on_error.
  apply never_throws_bind; [ apply never_throws_console_error | intros; apply never_throws_ret ].
Qed.

(** Every event of a task satisfies [Q] when the read, the request of the
    selected provider under the current key, the log lines and the moves
    into an accepted folder do. *)
Lemma task_classifyAndMoveNote_only (Q : event -> Prop) s file :
  Q (EvRead file) ->
  (forall prov prompt,
      selected_provider s = Some prov ->
      Q (EvFetch {| provider := prov; apiKey := getCurrentApiKey s;
                    body_prompt := prompt |})) ->
  (forall l, Q (EvConsoleError l)) ->
  (forall folder, In folder (targetFolders s) ->
                  Q (EvCreateFolder folder)
                  /\ Q (EvRename file (folder ++ str "/" ++ name file))) ->
  only_in Q (Task.classifyAndMoveNote s file).
Proof.
  intros Hr Hf Hl Hm. rewrite task_classifyAndMoveNote_eq.
  apply only_in_try_catch; [ | intros; now apply task_on_error_only ].
  apply only_in_bind; [ now apply only_in_read | ].
  intros content. unfold task_after_read.
  destruct (negb (truthy (trim content))); [ apply only_in_done | ].
  apply only_in_bind; [ now apply task_classifyNote_only | ].
  intros [folder | ]; [ | apply only_in_done ].
  destruct (label_accepted s folder) eqn:Hacc; [ | apply only_in_done ].
  apply label_accepted_In in Hacc. destruct (Hm folder Hacc).
  now apply task_move_to_only.
Qed.

Lemma task_classifyAndMoveNote_fetch s file :
  at_most_in is_fetch 1 (Task.classifyAndMoveNote s file).
Proof.
  rewrite task_classifyAndMoveNote_eq.
  apply (at_most_in_try_catch (a := 1) (b := 0));
    [ | intros; now apply task_on_error_silent ].
  apply (at_most_in_bind (a := 0) (b := 1)); [ apply (at_most_in_read is_fetch) | ].
  intros content. unfold task_after_read.
  destruct (negb (truthy (trim content))); [ apply at_most_in_done | ].
  apply (at_most_in_bind (a := 1) (b := 0)); [ apply task_classifyNote_fetch | ].
  intros [folder | ]; [ | apply at_most_in_done ].
  destruct (label_accepted s folder); [ | apply at_most_in_done ].
  apply only_in_none, task_move_to_only; reflexivity.
Qed.

(** A task issues at most one event of a kind that [move_to] issues at
    most once and that nothing else in the task issues. *)
Lemma task_classifyAndMoveNote_once q s file :
  (forall f, q (EvRead f) = false) ->
  (forall r, q (EvFetch r) = false) ->
  (forall l, q (EvConsoleError l) = false) ->
  (forall folder, at_most_in q 1 (Task.move_to file folder)) ->
  at_most_in q 1 (Task.classifyAndMoveNote s file).
Proof.
  intros Hr Hf Hl Hm. rewrite task_classifyAndMoveNote_eq.
  apply (at_most_in_try_catch (a := 1) (b := 0));
    [ | intros; now apply task_on_error_silent ].
  apply (at_most_in_bind (a := 0) (b := 1)).
  { pose proof (at_most_in_read q (file := file)) as H. now rewrite Hr in H. }
  intros content. unfold task_after_read.
  destruct (negb (truthy (trim content))); [ apply at_most_in_done | ].
  apply (at_most_in_bind (a := 0) (b := 1)); [ now apply task_classifyNote_silent | ].
  intros [folder | ]; [ | apply at_most_in_done ].
  destruct (label_accepted s folder); [ apply Hm | apply at_most_in_done ].
Qed.

(** A task issues no event of a kind that neither the read, the request,
    the log lines nor the moves into a target folder are of. *)
Lemma task_classifyAndMoveNote_silent q s file :
  (forall f, q (EvRead f) = false) ->
  (forall r, q (EvFetch r) = false) ->
  (forall l, q (EvConsoleError l) = false) ->
  (forall folder, In folder (targetFolders s) ->
                  q (EvCreateFolder folder) = false
                  /\ q (EvRename file (folder ++ str "/" ++ name file)) = false) ->
  at_most_in q 0 (Task.classifyAndMoveNote s file).
Proof.
  intros Hr Hf Hl Hm. apply only_in_none, task_classifyAndMoveNote_only; auto.
Qed.

Lemma task_classifyAndMoveNote_no_delay s file :
  at_most_in is_delay 0 (Task.classifyAndMoveNote s file).
Proof. apply task_classifyAndMoveNote_silent; auto. Qed.

Lemma task_classifyAndMoveNote_reads_once s file c t :
  behaviour (Task.classifyAndMoveNote s file) c t -> count is_read t = 1.
Proof.
  intros H.
  assert (Hle : count is_read t <= 1).
  { revert c t H. change (at_most_in is_read 1 (Task.classifyAndMoveNote s file)).
    rewrite task_classifyAndMoveNote_eq.
    apply (at_most_in_try_catch (a := 1) (b := 0));
      [ | intros; now apply task_on_error_silent ].
    apply (at_most_in_bind (a := 1) (b := 0)); [ apply (at_most_in_read is_read) | ].
    intros content. unfold task_after_read.
    destruct (negb (truthy (trim content))); [ apply at_most_in_done | ].
    apply none_in_bind; [ now apply task_classifyNote_silent | ].
    intros [folder | ]; [ | apply at_most_in_done ].
    destruct (label_accepted s folder); [ | apply at_most_in_done ].
    apply only_in_none, task_move_to_only; reflexivity. }
  assert (Hge : 1 <= count is_read t); [ | lia ].
  rewrite task_classifyAndMoveNote_eq in H.
  assert (Hread : forall c1 t1,
             behaviour (Task.bind (Task.read file) (task_after_read s file)) c1 t1 ->
             1 <= count is_read t1).
  { intros c1 t1 H1.
    apply behaviour_bind in H1 as [(e & H1 & _) | (x & t2 & t3 & H1 & _ & ->)];
      apply task_read_behaviour in H1 as ->; rewrite ?count_app, count_cons; cbn; lia. }
  apply behaviour_try_catch in H as [(x & H & _) | (e & t1 & t2 & H & _ & ->)].
  - exact (Hread _ _ H).
  - rewrite count_app. specialize (Hread _ _ H). lia.
Qed.



(** A task that returns [true] has issued its rename. *)
Lemma task_classifyAndMoveNote_true s file :
  returns_with (fun b t => b = true -> 1 <= count is_rename t)
               (Task.classifyAndMoveNote s file).
Proof.
  assert (Hsuffix : forall (b : bool) t1 t2,
             (b = true -> 1 <= count is_rename t2) ->
             b = true -> 1 <= count is_rename (t1 ++ t2)).
  { intros b t1 t2 H Hb. rewrite count_app. specialize (H Hb). lia. }
  rewrite task_classifyAndMoveNote_eq.
  apply returns_with_try_catch; [ exact Hsuffix | | ].
  - apply returns_with_bind; [ exact Hsuffix | ]. intros content. unfold task_after_read.
    destruct (negb (truthy (trim content)));
      [ apply returns_with_done; intros a [= <-]; discriminate | ].
    apply returns_with_bind; [ exact Hsuffix | ].
    intros [folder | ]; [ | apply returns_with_done; intros a [= <-]; discriminate ].
    destruct (label_accepted s folder);
      [ | apply returns_with_done; intros a [= <-]; discriminate ].
    intros b t H _. exact (task_move_to_renames H).
  - intros e. unfold task_on_error. apply returns_with_bind; [ exact Hsuffix | ].
    intros _. apply returns_with_done. intros a [= <-]. discriminate.
Qed.


End TaskProcessFacts.

(** ** Facts about a window *)

Section WindowFacts.

Context {W : Type} {host : Host W}.

Lemma count_perm q (t t' : list event) : Permutation t t' -> count q t = count q t'.
Proof.
  unfold count. induction 1 as [ | e l l' _ IH | a b l | l l' l'' _ IH1 _ IH2 ]; cbn.
  - reflexivity.
  - destruct (q e); cbn; now rewrite IH.
  - destruct (q a), (q b); reflexivity.
  - now rewrite IH1.
Qed.

(** The answer of a call continues the process that issued it. *)
Lemma behaviour_answer {A} (p : Proc A) e (w : W) c t :
  pending_call p = Some e -> behaviour (fst (answer p w)) c t -> behaviour p c (e :: t).
Proof.
  destruct p as [c0 | e0 k | q k | f k | r k | q k | f q k]; cbn; try discriminate;
    intros [= <-] H.
  - destruct (vault_read f w) as [x w1] eqn:Hx. cbn in H.
    apply behaviour_read with (w := w). now rewrite Hx.
  - destruct (net_fetch r w) as [x w1] eqn:Hx. cbn in H.
    apply behaviour_fetch with (w := w). now rewrite Hx.
  - destruct (vault_createFolder q w) as [x w1] eqn:Hx. cbn in H.
    apply behaviour_createFolder with (w := w). now rewrite Hx.
  - destruct (vault_rename f q w) as [x w1] eqn:Hx. cbn in H.
    apply behaviour_rename with (w := w). now rewrite Hx.
Qed.

(** A process run without interruption shows one of its behaviours. *)
Lemma run_to_end_behaviour {A} (p : Proc A) : forall (w : W),
  behaviour p (outcome (run_to_end p w)) (trace (run_to_end p w)).
Proof.
  induction p as [c0 | e0 k IH | q k IH | f k IH | r k IH | q k IH | f q k IH];
    intros w; cbn [run_to_end].
  - constructor.
  - specialize (IH w). destruct (run_to_end k w) as [[c w'] t]. now constructor.
  - apply behaviour_lookup with (w := w). apply IH.
  - destruct (vault_read f w) as [x w1] eqn:Hx. specialize (IH x w1).
    destruct (run_to_end (k x) w1) as [[c w'] t]. cbn in *.
    apply behaviour_read with (w := w). now rewrite Hx.
  - destruct (net_fetch r w) as [x w1] eqn:Hx. specialize (IH x w1).
    destruct (run_to_end (k x) w1) as [[c w'] t]. cbn in *.
    apply behaviour_fetch with (w := w). now rewrite Hx.
  - destruct (vault_createFolder q w) as [x w1] eqn:Hx. specialize (IH x w1).
    destruct (run_to_end (k x) w1) as [[c w'] t]. cbn in *.
    apply behaviour_createFolder with (w := w). now rewrite Hx.
  - destruct (vault_rename f q w) as [x w1] eqn:Hx. specialize (IH x w1).
    destruct (run_to_end (k x) w1) as [[c w'] t]. cbn in *.
    apply behaviour_rename with (w := w). now rewrite Hx.
Qed.

Lemma behaviour_from_issued {A} (p : Proc A) e c t :
  pending_call p = Some e -> behaviour_from (true, p) c t -> behaviour p c (e :: t).
Proof. intros He (w & H). exact (behaviour_answer p w He H). Qed.

Lemma launch_behaviour {A} (p : Proc A) : forall (w : W) c t,
  behaviour_from (fst (launch p w)) c t -> behaviour p c (snd (launch p w) ++ t).
Proof.
  induction p as [c0 | e0 k IH | q k IH | f k IH | r k IH | q k IH | f q k IH];
    intros w c t; cbn [launch pending_call fst snd app].
  - auto.
  - specialize (IH w c t). destruct (launch k w) as [st t0]. cbn in *.
    intros H. constructor. auto.
  - intros H. apply behaviour_lookup with (w := w). now apply IH.
  - now apply behaviour_from_issued.
  - now apply behaviour_from_issued.
  - now apply behaviour_from_issued.
  - now apply behaviour_from_issued.
Qed.

Lemma step_behaviour {A} (st : Slot A) (w : W) c t :
  behaviour_from (fst (fst (step st w))) c t ->
  behaviour_from st c (snd (step st w) ++ t).
Proof.
  destruct st as [[ | ] p].
  - cbn [step]. destruct (answer p w) as [p' w'] eqn:Hp. cbn.
    intros H. exists w. now rewrite Hp.
  - destruct p as [c0 | e0 k | q k | f k | r k | q k | f q k];
      cbn [step pending_call fst snd app behaviour_from].
    + auto.
    + intros H. now constructor.
    + intros H. now apply behaviour_lookup with (w := w).
    + intros H. now apply (@behaviour_from_issued A (Read f k)).
    + intros H. now apply (@behaviour_from_issued A (Fetch r k)).
    + intros H. now apply (@behaviour_from_issued A (CreateFolder q k)).
    + intros H. now apply (@behaviour_from_issued A (Rename f q k)).
Qed.

Lemma finish_behaviour {A} (st : Slot A) (w : W) :
  behaviour_from st (outcome (finish st w)) (trace (finish st w)).
Proof.
  destruct st as [[ | ] p]; cbn [finish behaviour_from].
  - exists w. destruct (answer p w) as [p' w']. cbn. apply run_to_end_behaviour.
  - apply run_to_end_behaviour.
Qed.

(** *** The tasks of a window, followed through its run *)

Lemma tracks_length {A} (procs : list (Proc A)) slots parts :
  tracks procs slots parts -> length slots = length parts.
Proof. induction 1; cbn; congruence. Qed.

Lemma launch_all_tracks {A} (procs : list (Proc A)) (w : W) :
  exists parts,
    tracks procs (fst (launch_all procs w)) parts
    /\ snd (launch_all procs w) = concat parts.
Proof.
  induction procs as [ | p procs (parts & Htr & Heq)]; [ exists []; split; constructor | ].
  cbn [launch_all]. pose proof (launch_behaviour p w) as Hp.
  destruct (launch p w) as [st t1]. destruct (launch_all procs w) as [sts t2].
  cbn [fst snd] in *. exists (t1 :: parts). split; [ now constructor | ].
  cbn. now rewrite Heq.
Qed.

Lemma tracks_step {A} (procs : list (Proc A)) slots parts :
  tracks procs slots parts ->
  forall i st (w : W),
    nth_error slots i = Some st ->
    tracks procs (set_nth i (fst (fst (step st w))) slots)
           (snoc_nth i (snd (step st w)) parts).
Proof.
  induction 1 as [ | p st0 part procs slots parts Hp Htr IH]; intros i st w Hi.
  - destruct i; discriminate.
  - destruct i as [ | i]; cbn [set_nth snoc_nth].
    + injection Hi as <-. constructor; [ | exact Htr ].
      intros c t H. rewrite <- app_assoc. apply Hp. now apply step_behaviour.
    + constructor; [ exact Hp | ]. now apply IH.
Qed.

Lemma concat_snoc_nth i e (parts : list (list event)) :
  i < length parts -> Permutation (concat parts ++ e) (concat (snoc_nth i e parts)).
Proof.
  revert i. induction parts as [ | x parts IH]; intros i Hi; [ cbn in Hi; lia | ].
  destruct i as [ | i]; cbn [snoc_nth concat].
  - rewrite <- !app_assoc. apply Permutation_app_head, Permutation_app_comm.
  - rewrite <- app_assoc. apply Permutation_app_head, IH. cbn in Hi. lia.
Qed.

Lemma run_schedule_tracks {A} (procs : list (Proc A)) order :
  forall slots parts (w : W),
    tracks procs slots parts ->
    exists parts',
      tracks procs (fst (fst (run_schedule order slots w))) parts'
      /\ Permutation (concat parts ++ snd (run_schedule order slots w)) (concat parts').
Proof.
  induction order as [ | i order IH]; intros slots parts w Htr.
  - exists parts. split; [ exact Htr | ]. cbn. now rewrite app_nil_r.
  - cbn [run_schedule]. destruct (nth_error slots i) as [st | ] eqn:Hi; [ | now apply IH ].
    pose proof (tracks_step Htr i w Hi) as Htr'.
    assert (Hlt : i < length parts).
    { rewrite <- (tracks_length Htr). apply nth_error_Some. congruence. }
    destruct (step st w) as [[st' w1] t1]. cbn [fst snd] in Htr'.
    destruct (IH _ _ w1 Htr') as (parts' & Htr'' & Hperm).
    destruct (run_schedule order (set_nth i st' slots) w1) as [[slots' w2] t2].
    cbn [fst snd] in *. exists parts'. split; [ exact Htr'' | ].
    rewrite app_assoc. etransitivity; [ | exact Hperm ].
    apply Permutation_app_tail. now apply concat_snoc_nth.
Qed.

Lemma finish_all_settles {A} (task : TFile -> Proc A) batch :
  forall slots parts (w : W),
    tracks (map task batch) slots parts ->
    exists trs,
      settles task batch (map to_settled (fst (fst (finish_all slots w)))) trs
      /\ Permutation (concat parts ++ snd (finish_all slots w)) (concat trs).
Proof.
  induction batch as [ | file batch IH]; intros slots parts w Htr;
    inversion Htr as [ | p st part procs slots0 parts0 Hp Htr0 ]; subst.
  - exists []. split; constructor.
  - cbn [finish_all]. pose proof (finish_behaviour st w) as Hst.
    destruct (finish st w) as [[c w1] t1]. cbn [outcome trace fst snd] in Hst.
    destruct (IH _ _ w1 Htr0) as (trs & Hset & Hperm).
    destruct (finish_all slots0 w1) as [[cs w2] t2]. cbn [fst snd map] in *.
    exists ((part ++ t1) :: trs). split.
    + constructor; [ now apply Hp | exact Hset ].
    + cbn [concat]. rewrite <- !app_assoc. apply Permutation_app_head.
      rewrite app_assoc. etransitivity; [ apply Permutation_app_tail, Permutation_app_comm | ].
      rewrite <- app_assoc. now apply Permutation_app_head.
Qed.

(** A window settles every task of its batch: whatever the order in which
    the tasks are resumed, the result at a document's position is the
    completion of a behaviour of that document's task, and the trace of the
    window is made of the traces of these behaviours. *)
Lemma allSettled_map_settles {A} (task : TFile -> Proc A) batch (w : W) :
  exists rs trs,
    outcome (allSettled_map task batch w) = Normal rs
    /\ settles task batch rs trs
    /\ Permutation (trace (allSettled_map task batch w)) (concat trs).
Proof.
  unfold allSettled_map.
  destruct (launch_all_tracks (map task batch) w) as (parts0 & Htr0 & Ht0).
  destruct (launch_all (map task batch) w) as [slots t1]. cbn [fst snd] in *.
  destruct (run_schedule_tracks (resume_order w) w Htr0) as (parts1 & Htr1 & Hp1).
  destruct (run_schedule (resume_order w) slots w) as [[slots' w2] t2].
  cbn [fst snd] in *.
  destruct (finish_all_settles task batch w2 Htr1) as (trs & Hset & Hp2).
  destruct (finish_all slots' w2) as [[cs w3] t3]. cbn [fst snd outcome trace] in *.
  exists (map to_settled cs), trs. split; [ reflexivity | ]. split; [ exact Hset | ].
  subst t1. rewrite app_assoc. etransitivity; [ | exact Hp2 ].
  now apply Permutation_app_tail.
Qed.

Lemma settles_length {A} (task : TFile -> Proc A) batch rs trs :
  settles task batch rs trs -> length rs = length batch.
Proof. induction 1; cbn; congruence. Qed.

Lemma settles_at_most {A} q n (task : TFile -> Proc A) batch rs trs :
  (forall file, at_most_in q n (task file)) ->
  settles task batch rs trs -> count q (concat trs) <= n * length batch.
Proof.
  intros Htask. induction 1 as [ | file c tr files rs trs Hb _ IH];
    [ rewrite count_nil; lia | ].
  cbn [concat length]. rewrite count_app, Nat.mul_succ_r.
  specialize (Htask file c tr Hb). lia.
Qed.

Lemma settles_exactly {A} q (task : TFile -> Proc A) batch rs trs :
  (forall file c t, behaviour (task file) c t -> count q t = 1) ->
  settles task batch rs trs -> count q (concat trs) = length batch.
Proof.
  intros Htask. induction 1 as [ | file c tr files rs trs Hb _ IH]; [ reflexivity | ].
  cbn [concat length]. rewrite count_app, (Htask file c tr Hb). lia.
Qed.


(** When no task throws, every result is fulfilled; when every task
    returns a value satisfying [P], so does every result. *)
Lemma settles_answers {A} (P : A -> Prop) (task : TFile -> Proc A) batch rs trs :
  (forall file c t, behaviour (task file) c t -> exists a, c = Normal a /\ P a) ->
  settles task batch rs trs ->
  Forall (fun r => exists a, r = Fulfilled a /\ P a) rs.
Proof.
  intros Htask. induction 1 as [ | file c tr files rs trs Hb _ IH]; constructor; auto.
  destruct (Htask file c tr Hb) as (a & -> & Ha). now exists a.
Qed.

Lemma settles_moved (q : event -> bool) (task : TFile -> Proc bool) batch rs trs :
  (forall file, returns_with (fun b t => b = true -> 1 <= count q t) (task file)) ->
  settles task batch rs trs ->
  length (filter fulfilled_true rs) <= count q (concat trs).
Proof.
  intros Htask. induction 1 as [ | file c tr files rs trs Hb _ IH]; [ cbn; lia | ].
  cbn [concat filter]. rewrite count_app.
  destruct c as [[ | ] | e]; cbn [to_settled fulfilled_true length]; try lia.
  specialize (Htask file true tr Hb eq_refl). lia.
Qed.

End WindowFacts.

(** ** A process run alone is the function it is written from *)

Section ProcessAlone.

Context {W : Type} {host : Host W}.

Lemma run_to_end_bind_eq {A B} (p : Proc A) (k : A -> Proc B) : forall (w : W),
  run_to_end (Task.bind p k) w
  = bind (run_to_end p) (fun a => run_to_end (k a)) w.
Proof.
  induction p as [[a | e] | e0 p IH | q c IH | f c IH | r c IH | q c IH | f q c IH];
    intros w; cbn [Task.bind run_to_end].
  - unfold bind. now destruct (run_to_end (k a) w) as [[r w2] t2].
  - reflexivity.
  - rewrite IH. unfold bind. destruct (run_to_end p w) as [[[a | e] w1] t1];
      [ now destruct (run_to_end (k a) w1) as [[r w2] t2] | reflexivity ].
  - rewrite IH. reflexivity.
  - unfold bind at 1. cbn [run_to_end]. destruct (vault_read f w) as [x w0].
    rewrite IH. unfold bind. destruct (run_to_end (c x) w0) as [[[a | e] w1] t1];
      [ now destruct (run_to_end (k a) w1) as [[r' w2] t2] | reflexivity ].
  - unfold bind at 1. cbn [run_to_end]. destruct (net_fetch r w) as [x w0].
    rewrite IH. unfold bind. destruct (run_to_end (c x) w0) as [[[a | e] w1] t1];
      [ now destruct (run_to_end (k a) w1) as [[r' w2] t2] | reflexivity ].
  - unfold bind at 1. cbn [run_to_end]. destruct (vault_createFolder q w) as [x w0].
    rewrite IH. unfold bind. destruct (run_to_end (c x) w0) as [[[a | e] w1] t1];
      [ now destruct (run_to_end (k a) w1) as [[r' w2] t2] | reflexivity ].
  - unfold bind at 1. cbn [run_to_end]. destruct (vault_rename f q w) as [x w0].
    rewrite IH. unfold bind. destruct (run_to_end (c x) w0) as [[[a | e] w1] t1];
      [ now destruct (run_to_end (k a) w1) as [[r' w2] t2] | reflexivity ].
Qed.

Lemma run_to_end_try_catch_eq {A} (p : Proc A) (h : error -> Proc A) : forall (w : W),
  run_to_end (Task.try_catch p h) w
  = try_catch (run_to_end p) (fun e => run_to_end (h e)) w.
Proof.
  induction p as [[a | e] | e0 p IH | q c IH | f c IH | r c IH | q c IH | f q c IH];
    intros w; cbn [Task.try_catch run_to_end].
  - reflexivity.
  - unfold try_catch. now destruct (run_to_end (h e) w) as [[r w2] t2].
  - rewrite IH. unfold try_catch. destruct (run_to_end p w) as [[[a | e] w1] t1];
      [ reflexivity | now destruct (run_to_end (h e) w1) as [[r w2] t2] ].
  - rewrite IH. reflexivity.
  - unfold try_catch at 1. cbn [run_to_end]. destruct (vault_read f w) as [x w0].
    rewrite IH. unfold try_catch. destruct (run_to_end (c x) w0) as [[[a | e] w1] t1];
      [ reflexivity | now destruct (run_to_end (h e) w1) as [[r' w2] t2] ].
  - unfold try_catch at 1. cbn [run_to_end]. destruct (net_fetch r w) as [x w0].
    rewrite IH. unfold try_catch. destruct (run_to_end (c x) w0) as [[[a | e] w1] t1];
      [ reflexivity | now destruct (run_to_end (h e) w1) as [[r' w2] t2] ].
  - unfold try_catch at 1. cbn [run_to_end]. destruct (vault_createFolder q w) as [x w0].
    rewrite IH. unfold try_catch. destruct (run_to_end (c x) w0) as [[[a | e] w1] t1];
      [ reflexivity | now destruct (run_to_end (h e) w1) as [[r' w2] t2] ].
  - unfold try_catch at 1. cbn [run_to_end]. destruct (vault_rename f q w) as [x w0].
    rewrite IH. unfold try_catch. destruct (run_to_end (c x) w0) as [[[a | e] w1] t1];
      [ reflexivity | now destruct (run_to_end (h e) w1) as [[r' w2] t2] ].
Qed.

Lemma run_to_end_bind {A B} (p : Proc A) (k : A -> Proc B) (m : M W A) (k' : A -> M W B) :
  (forall w, run_to_end p w = m w) ->
  (forall a w, run_to_end (k a) w = k' a w) ->
  forall w, run_to_end (Task.bind p k) w = bind m k' w.
Proof.
  intros Hp Hk w. rewrite run_to_end_bind_eq. unfold bind. rewrite Hp.
  destruct (m w) as [[[a | e] w1] t1]; [ now rewrite Hk | reflexivity ].
Qed.

Lemma run_to_end_try_catch {A} (p : Proc A) (h : error -> Proc A) (m : M W A)
      (h' : error -> M W A) :
  (forall w, run_to_end p w = m w) ->
  (forall e w, run_to_end (h e) w = h' e w) ->
  forall w, run_to_end (Task.try_catch p h) w = try_catch m h' w.
Proof.
  intros Hp Hh w. rewrite run_to_end_try_catch_eq. unfold try_catch. rewrite Hp.
  destruct (m w) as [[[a | e] w1] t1]; [ reflexivity | now rewrite Hh ].
Qed.

Lemma run_to_end_read file (w : W) : run_to_end (Task.read file) w = read file w.
Proof. unfold read, call. cbn. now destruct (vault_read file w). Qed.

Lemma run_to_end_fetch r (w : W) : run_to_end (Task.fetch r) w = fetch r w.
Proof. unfold fetch, call. cbn. now destruct (net_fetch r w). Qed.

Lemma run_to_end_createFolder q (w : W) :
  run_to_end (Task.createFolder q) w = createFolder q w.
Proof. unfold createFolder, call. cbn. now destruct (vault_createFolder q w). Qed.

Lemma run_to_end_rename file q (w : W) :
  run_to_end (Task.rename file q) w = rename file q w.
Proof. unfold rename, call. cbn. now destruct (vault_rename file q w). Qed.

Lemma run_to_end_after_fetch text response (w : W) :
  run_to_end (Task.after_fetch text response) w = after_fetch text response w.
Proof.
  unfold Task.after_fetch, after_fetch. destruct (negb (ok response)); [ reflexivity | ].
  revert w. apply run_to_end_bind; [ reflexivity | ]. intros data.
  apply run_to_end_bind; reflexivity.
Qed.

Lemma run_to_end_call_api prov key text prompt (w : W) :
  run_to_end (Task.call_api prov key text prompt) w = call_api prov key text prompt w.
Proof.
  unfold Task.call_api, call_api. revert w. apply run_to_end_try_catch.
  - apply run_to_end_bind; [ apply run_to_end_fetch | apply run_to_end_after_fetch ].
  - intros e. apply run_to_end_bind; reflexivity.
Qed.

Lemma run_to_end_classifyNote s content (w : W) :
  run_to_end (Task.classifyNote s content) w = classifyNote s content w.
Proof.
  unfold Task.classifyNote, classifyNote. revert w. apply run_to_end_try_catch.
  - apply run_to_end_bind; [ | reflexivity ].
    unfold Task.call_selected_model, call_selected_model, Task.callGeminiAPI,
      Task.callClaudeAPI, Task.callGPTAPI, callGeminiAPI, callClaudeAPI, callGPTAPI.
    intros w.
    repeat match goal with |- context [if ?b then _ else _] => destruct b end;
      try apply run_to_end_call_api.
    reflexivity.
  - intros e. apply run_to_end_bind; reflexivity.
Qed.

Lemma run_to_end_move_to file folder (w : W) :
  run_to_end (Task.move_to file folder) w = move_to file folder w.
Proof.
  unfold Task.move_to, move_to. revert w. apply run_to_end_bind; [ reflexivity | ].
  intros target. apply run_to_end_bind.
  - destruct target; [ reflexivity | apply run_to_end_createFolder ].
  - intros _. apply run_to_end_bind; [ apply run_to_end_rename | reflexivity ].
Qed.

(** The process of a task, run alone and without interruption, is
    [classifyAndMoveNote]: same completion, same host, same trace. *)
Lemma run_to_end_classifyAndMoveNote s file (w : W) :
  run_to_end (Task.classifyAndMoveNote s file) w = classifyAndMoveNote s file w.
Proof.
  unfold Task.classifyAndMoveNote, classifyAndMoveNote. revert w.
  apply run_to_end_try_catch.
  - apply run_to_end_bind; [ apply run_to_end_read | ].
    intros content. destruct (negb (truthy (trim content))); [ reflexivity | ].
    apply run_to_end_bind; [ apply run_to_end_classifyNote | ].
    intros [folder | ]; [ | reflexivity ].
    destruct (label_accepted s folder); [ apply run_to_end_move_to | reflexivity ].
  - intros e. apply run_to_end_bind; reflexivity.
Qed.

(** What [classifyAndMoveNote] does from a host state is a behaviour of
    its process. *)
Lemma classifyAndMoveNote_behaviour s file (w : W) :
  behaviour (Task.classifyAndMoveNote s file)
            (outcome (classifyAndMoveNote s file w))
            (trace (classifyAndMoveNote s file w)).
Proof. rewrite <- run_to_end_classifyAndMoveNote. apply run_to_end_behaviour. Qed.

End ProcessAlone.

(** ** A window of one document *)

Section WindowOfOne.

Context {W : Type} {host : Host W}.

Lemma then_trace_nil {A} (r : Completion A * W * list event) : then_trace [] r = r.
Proof. now destruct r as [[c w] t]. Qed.

Lemma then_trace_app {A} t1 t2 (r : Completion A * W * list event) :
  then_trace t1 (then_trace t2 r) = then_trace (t1 ++ t2) r.
Proof. unfold then_trace. cbn. now rewrite app_assoc. Qed.

Lemma finish_step {A} (st : Slot A) (w : W) :
  finish st w
  = then_trace (snd (step st w)) (finish (fst (fst (step st w))) (snd (fst (step st w)))).
Proof.
  destruct st as [[ | ] p].
  - cbn [step finish]. destruct (answer p w) as [p' w']. cbn. now rewrite then_trace_nil.
  - destruct p as [c0 | e0 k | q k | f k | r k | q k | f q k];
      cbn [step pending_call finish run_to_end answer fst snd].
    + reflexivity.
    + now destruct (run_to_end k w) as [[c w'] t].
    + now rewrite then_trace_nil.
    + destruct (vault_read f w) as [x w1]. now destruct (run_to_end (k x) w1) as [[c w'] t].
    + destruct (net_fetch r w) as [x w1]. now destruct (run_to_end (k x) w1) as [[c w'] t].
    + destruct (vault_createFolder q w) as [x w1].
      now destruct (run_to_end (k x) w1) as [[c w'] t].
    + destruct (vault_rename f q w) as [x w1].
      now destruct (run_to_end (k x) w1) as [[c w'] t].
Qed.

Lemma finish_launch {A} (p : Proc A) : forall (w : W),
  then_trace (snd (launch p w)) (finish (fst (launch p w)) w) = run_to_end p w.
Proof.
  induction p as [c0 | e0 k IH | q k IH | f k IH | r k IH | q k IH | f q k IH];
    intros w; cbn [launch pending_call finish run_to_end answer fst snd].
  - reflexivity.
  - specialize (IH w). destruct (launch k w) as [st t0]. cbn [fst snd] in *.
    rewrite <- IH. reflexivity.
  - apply IH.
  - destruct (vault_read f w) as [x w1]. now destruct (run_to_end (k x) w1) as [[c w'] t].
  - destruct (net_fetch r w) as [x w1]. now destruct (run_to_end (k x) w1) as [[c w'] t].
  - destruct (vault_createFolder q w) as [x w1].
    now destruct (run_to_end (k x) w1) as [[c w'] t].
  - destruct (vault_rename f q w) as [x w1].
    now destruct (run_to_end (k x) w1) as [[c w'] t].
Qed.

Lemma run_schedule_single {A} order : forall (st : Slot A) (w : W),
  exists st',
    fst (fst (run_schedule order [st] w)) = [st']
    /\ then_trace (snd (run_schedule order [st] w))
                  (finish st' (snd (fst (run_schedule order [st] w))))
       = finish st w.
Proof.
  induction order as [ | i order IH]; intros st w.
  - exists st. split; [ reflexivity | apply then_trace_nil ].
  - cbn [run_schedule]. destruct i as [ | i].
    + cbn [nth_error]. rewrite (finish_step st w).
      destruct (step st w) as [[st1 w1] t1]. cbn [set_nth fst snd].
      destruct (IH st1 w1) as (st' & Hst & Hrun).
      destruct (run_schedule order [st1] w1) as [[slots' w2] t2]. cbn [fst snd] in *.
      exists st'. split; [ exact Hst | ]. now rewrite <- Hrun, then_trace_app.
    + replace (nth_error [st] (S i)) with (@None (Slot A)) by (now destruct i).
      apply IH.
Qed.

(** A window of one document runs its task without interruption,
    whatever the order the event loop gives. *)
Lemma allSettled_map_single {A} (task : TFile -> Proc A) file (w : W) :
  allSettled_map task [file] w
  = (Normal [to_settled (outcome (run_to_end (task file) w))],
     final (run_to_end (task file) w),
     trace (run_to_end (task file) w)).
Proof.
  unfold allSettled_map. cbn [map launch_all]. rewrite <- (finish_launch (task file) w).
  destruct (launch (task file) w) as [st t1]. cbn [fst snd].
  destruct (run_schedule_single (resume_order w) st w) as (st' & Hst & Hrun).
  rewrite <- Hrun.
  destruct (run_schedule (resume_order w) [st] w) as [[slots' w2] t2].
  cbn [fst snd] in *. subst slots'. cbn [finish_all].
  destruct (finish st' w2) as [[c w3] t3]. cbn. now rewrite !app_nil_r.
Qed.

(** In a window of one document the task is [classifyAndMoveNote] run
    alone. *)
Lemma window_of_one s file (w : W) :
  allSettled_map (Task.classifyAndMoveNote s) [file] w
  = (Normal [to_settled (outcome (classifyAndMoveNote s file w))],
     final (classifyAndMoveNote s file w),
     trace (classifyAndMoveNote s file w)).
Proof. now rewrite allSettled_map_single, run_to_end_classifyAndMoveNote. Qed.

End WindowOfOne.

(** ** Facts about a run *)

Section RunFacts.

Context {W : Type} {host : Host W}.

Lemma summary_last e t moved errors :
  summary (e :: t ++ [EvNotice (NoticeComplete moved errors)]) = Some (moved, errors).
Proof.
  unfold summary.
  change (e :: t ++ [EvNotice (NoticeComplete moved errors)])
    with ((e :: t) ++ [EvNotice (NoticeComplete moved errors)]).
  now rewrite rev_app_distr.
Qed.

Lemma moved_errors_sum rs : moved_of rs + errors_of rs = length rs.
Proof.
  unfold moved_of, errors_of. induction rs as [ | r rs IH]; [ reflexivity | ].
  cbn. destruct (fulfilled_true r); cbn; lia.
Qed.

Lemma add_tally_nil totals : add_tally totals [] = totals.
Proof. destruct totals. unfold add_tally. cbn. now rewrite !Nat.add_0_r. Qed.

Lemma add_tally_app totals a b :
  add_tally (add_tally totals a) b = add_tally totals (a ++ b).
Proof.
  unfold add_tally, moved_of, errors_of. cbn.
  rewrite !filter_app, !length_app. f_equal; lia.
Qed.

Lemma moved_of_perm rs rs' : Permutation rs rs' -> moved_of rs = moved_of rs'.
Proof.
  unfold moved_of. induction 1 as [ | r l l' _ IH | a b l | l l' l'' _ IH1 _ IH2 ]; cbn.
  - reflexivity.
  - destruct (fulfilled_true r); cbn; now rewrite IH.
  - destruct (fulfilled_true a), (fulfilled_true b); reflexivity.
  - now rewrite IH1.
Qed.

Lemma errors_of_perm rs rs' : Permutation rs rs' -> errors_of rs = errors_of rs'.
Proof.
  intros H. pose proof (moved_errors_sum rs). pose proof (moved_errors_sum rs').
  pose proof (moved_of_perm H). pose proof (Permutation_length H). lia.
Qed.

Lemma console_only p (logs : list event) :
  (forall l, p (EvConsoleError l) = false) ->
  forallb is_console logs = true -> count p logs = 0.
Proof.
  intros Hp. induction logs as [ | e logs IH]; [ reflexivity | ].
  cbn [forallb]. intros H. apply andb_prop in H as [He Hl].
  rewrite count_cons, (IH Hl). destruct e; try discriminate. now rewrite Hp.
Qed.

Lemma console_Forall (Q : event -> Prop) (logs : list event) :
  (forall l, Q (EvConsoleError l)) ->
  forallb is_console logs = true -> Forall Q logs.
Proof.
  intros HQ. induction logs as [ | e logs IH]; [ constructor | ].
  cbn [forallb]. intros H. apply andb_prop in H as [He Hl].
  constructor; [ | auto ]. destruct e; try discriminate. apply HQ.
Qed.

(** The [forEach] over the results of a batch: it adds the results to the
    totals, leaves the host alone and writes log lines only, the same
    whatever the totals are. *)
Lemma forEach_results_run batch rs : forall index,
  index + length rs <= length batch ->
  exists logs,
    forallb is_console logs = true
    /\ forall totals (w : W),
        forEach_results batch rs index totals w = (Normal (add_tally totals rs), w, logs).
Proof.
  induction rs as [ | r rs IH]; intros index Hlen.
  - exists []. split; [ reflexivity | ]. intros totals w. cbn. now rewrite add_tally_nil.
  - cbn [length] in Hlen.
    destruct (IH (S index)) as (logs & Hlogs & Hrun); [ lia | ].
    assert (Hstep : forall totals, add_tally (add_tally totals [r]) rs
                                   = add_tally totals (r :: rs)).
    { intros totals. now rewrite add_tally_app. }
    destruct (fulfilled_true r) eqn:Hr.
    + exists logs. split; [ exact Hlogs | ]. intros totals w.
      cbn [forEach_results]. unfold bind, count_result. rewrite Hr. cbn.
      replace (S (fst totals), snd totals) with (add_tally totals [r]).
      * now rewrite Hrun, Hstep.
      * unfold add_tally, moved_of, errors_of. cbn. rewrite Hr. cbn. f_equal; lia.
    + destruct (nth_error batch index) as [file | ] eqn:Hnth;
        [ | apply nth_error_None in Hnth; lia ].
      exists (EvConsoleError (LogErrorProcessingNote (name file) (is_rejected r)) :: logs).
      split; [ exact Hlogs | ]. intros totals w.
      cbn [forEach_results]. unfold bind, count_result. rewrite Hr, Hnth. cbn.
      replace (fst totals, S (snd totals)) with (add_tally totals [r]).
      * now rewrite Hrun, Hstep.
      * unfold add_tally, moved_of, errors_of. cbn. rewrite Hr. cbn. f_equal; lia.
Qed.

(** *** One window *)

(** The tasks of a window settle, whatever the order in which they are
    resumed. *)
Lemma window_settles s batch (w : W) :
  exists trs,
    outcome (allSettled_map (Task.classifyAndMoveNote s) batch w)
    = Normal (window_results s batch w)
    /\ settles (Task.classifyAndMoveNote s) batch (window_results s batch w) trs
    /\ Permutation (trace (allSettled_map (Task.classifyAndMoveNote s) batch w))
                   (concat trs).
Proof.
  destruct (allSettled_map_settles (Task.classifyAndMoveNote s) batch w)
    as (rs & trs & Hout & Hset & Hperm).
  exists trs. unfold window_results. rewrite Hout. now repeat split.
Qed.

Lemma window_results_length s batch (w : W) :
  length (window_results s batch w) = length batch.
Proof.
  destruct (window_settles s batch w) as (trs & _ & Hset & _).
  exact (settles_length Hset).
Qed.

Lemma process_batch_run s batch (w : W) :
  exists logs,
    forallb is_console logs = true
    /\ forall totals,
        process_batch s batch totals w
        = (Normal (add_tally totals (window_results s batch w)),
           host_after s batch w,
           trace (allSettled_map (Task.classifyAndMoveNote s) batch w) ++ logs).
Proof.
  destruct (window_settles s batch w) as (trs & Hout & _ & _).
  destruct (@forEach_results_run batch (window_results s batch w) 0)
    as (logs & Hlogs & Hrun); [ rewrite window_results_length; lia | ].
  exists logs. split; [ exact Hlogs | ]. intros totals.
  unfold process_batch, bind, host_after. unfold outcome, final, trace in *.
  destruct (allSettled_map (Task.classifyAndMoveNote s) batch w) as [[c w1] t1].
  cbn [fst snd] in *. subst c. now rewrite Hrun.
Qed.

(** The trace of a window is made of the traces of its tasks and of the log
    lines of its [forEach]. *)
Lemma process_batch_shape s batch totals (w : W) :
  exists trs logs,
    settles (Task.classifyAndMoveNote s) batch (window_results s batch w) trs
    /\ forallb is_console logs = true
    /\ Permutation (trace (process_batch s batch totals w)) (concat trs ++ logs).
Proof.
  destruct (window_settles s batch w) as (trs & _ & Hset & Hperm).
  destruct (process_batch_run s batch w) as (logs & Hlogs & Hrun).
  exists trs, logs. split; [ exact Hset | ]. split; [ exact Hlogs | ].
  rewrite Hrun. cbn [trace snd]. now apply Permutation_app_tail.
Qed.

Lemma window_trace_split s batch t :
  is_window_trace s batch t ->
  exists rs trs logs,
    settles (Task.classifyAndMoveNote s) batch rs trs
    /\ forallb is_console logs = true
    /\ Permutation t (concat trs ++ logs).
Proof.
  intros (totals & w & ->).
  destruct (process_batch_shape s batch totals w) as (trs & logs & H).
  now exists (window_results s batch w), trs, logs.
Qed.

Lemma window_no_delay s batch t :
  is_window_trace s batch t -> count is_delay t = 0.
Proof.
  intros H. apply window_trace_split in H as (rs & trs & logs & Hset & Hlogs & Hperm).
  rewrite (count_perm is_delay Hperm), count_app,
    (console_only is_delay logs) by (auto; reflexivity).
  pose proof (settles_at_most (q := is_delay) (n := 0)
                (fun file => @task_classifyAndMoveNote_no_delay W host s file) Hset).
  lia.
Qed.

Lemma window_fetches s batch t :
  is_window_trace s batch t -> count is_fetch t <= length batch.
Proof.
  intros H. apply window_trace_split in H as (rs & trs & logs & Hset & Hlogs & Hperm).
  rewrite (count_perm is_fetch Hperm), count_app,
    (console_only is_fetch logs) by (auto; reflexivity).
  pose proof (settles_at_most (q := is_fetch) (n := 1)
                (fun file => @task_classifyAndMoveNote_fetch W host s file) Hset).
  lia.
Qed.

Lemma window_reads s batch t :
  is_window_trace s batch t -> count is_read t = length batch.
Proof.
  intros H. apply window_trace_split in H as (rs & trs & logs & Hset & Hlogs & Hperm).
  rewrite (count_perm is_read Hperm), count_app,
    (console_only is_read logs) by (auto; reflexivity).
  rewrite (@settles_exactly W host bool is_read (Task.classifyAndMoveNote s) batch rs trs
             (fun file c t => @task_classifyAndMoveNote_reads_once W host s file c t) Hset).
  lia.
Qed.

(** *** The windows of a run *)

Lemma window_traces_are_windows s batches : forall (w : W),
  Forall2 (is_window_trace s) batches (window_traces s batches w).
Proof.
  induction batches as [ | batch rest IH]; intros w; constructor; auto.
  now exists (0, 0), w.
Qed.

Lemma window_traces_length s batches (w : W) :
  length (window_traces s batches w) = length batches.
Proof. symmetry. exact (Forall2_length (window_traces_are_windows s batches w)). Qed.

(** The [for ... of batches] loop, from the window at position [pos] on. *)
Lemma for_batches_run s len : forall batches pos totals (w : W),
  pos + length batches = len ->
  for_batches s len batches pos totals w
  = (Normal (add_tally totals (run_results s batches w)),
     run_host_after s batches w,
     join_delay (window_traces s batches w)).
Proof.
  induction batches as [ | batch rest IH]; intros pos totals w Hlen.
  - cbn. now rewrite add_tally_nil.
  - cbn [length] in Hlen.
    cbn [for_batches run_results run_host_after window_traces].
    destruct (process_batch_run s batch w) as (logs & Hlogs & Hrun).
    unfold bind at 1. rewrite !Hrun. cbn [trace snd]. unfold bind at 1.
    rewrite <- add_tally_app.
    destruct (Nat.ltb_spec pos (len - 1)) as [Hmore | Hlast].
    + cbn. rewrite IH by lia. cbn.
      destruct rest as [ | b rest']; [ cbn in Hlen; lia | ]. reflexivity.
    + cbn. rewrite IH by lia. cbn.
      destruct rest as [ | b rest']; [ | cbn in Hlen; lia ].
      cbn. now rewrite app_nil_r.
Qed.

Lemma join_delay_cons t (rest : list (list event)) :
  rest <> [] -> join_delay (t :: rest) = t ++ EvDelay 1000 :: join_delay rest.
Proof. destruct rest; [ congruence | reflexivity ]. Qed.

Lemma settles_app {A} (task : TFile -> Proc A) a b rs1 rs2 trs1 trs2 :
  settles task a rs1 trs1 -> settles task b rs2 trs2 ->
  settles task (a ++ b) (rs1 ++ rs2) (trs1 ++ trs2).
Proof. induction 1; intros H2; cbn; [ exact H2 | constructor; auto ]. Qed.

(** The windows of a run with the delays between them: the traces of the
    tasks of all the documents, the log lines of the [forEach]es, and one
    delay after every window but the last. *)
Lemma run_shape s batches : forall (w : W),
  exists trs logs,
    settles (Task.classifyAndMoveNote s) (concat batches) (run_results s batches w) trs
    /\ forallb is_console logs = true
    /\ Permutation (join_delay (window_traces s batches w))
                   (concat trs ++ logs ++ repeat (EvDelay 1000) (length batches - 1)).
Proof.
  induction batches as [ | batch rest IH]; intros w.
  - exists [], []. repeat split; constructor.
  - destruct (process_batch_shape s batch (0, 0) w) as (trs1 & logs1 & Hset1 & Hlogs1 & Hp1).
    destruct (IH (host_after s batch w)) as (trs2 & logs2 & Hset2 & Hlogs2 & Hp2).
    exists (trs1 ++ trs2), (logs1 ++ logs2).
    split; [ now apply settles_app | ].
    split; [ rewrite forallb_app, Hlogs1, Hlogs2; reflexivity | ].
    cbn [window_traces concat length run_results].
    rewrite concat_app. replace (S (length rest) - 1) with (length rest) by lia.
    destruct rest as [ | b rest'].
    + destruct trs2; [ | inversion Hset2 ]. cbn in Hp2.
      apply Permutation_nil in Hp2. apply app_eq_nil in Hp2 as [-> _].
      cbn. now rewrite !app_nil_r.
    + remember (b :: rest') as rest eqn:Hrest.
      assert (Hlen : length rest = S (length rest - 1)) by (subst rest; cbn; lia).
      rewrite join_delay_cons.
      2:{ intros Hnil.
          pose proof (window_traces_length s rest (host_after s batch w)) as Hl.
          rewrite Hnil in Hl. cbn in Hl. lia. }
      rewrite Hlen. cbn [repeat].
      etransitivity;
        [ apply Permutation_app; [ exact Hp1 | apply perm_skip; exact Hp2 ] | ].
      rewrite <- !app_assoc. apply Permutation_app_head.
      etransitivity; [ | apply Permutation_app_swap_app ].
      apply Permutation_app_head.
      etransitivity; [ apply Permutation_middle | ].
      apply Permutation_app_head.
      etransitivity; [ apply Permutation_middle | ].
      apply Permutation_app_head.
      replace (S (length rest - 1) - 1) with (length rest - 1) by lia.
      reflexivity.
Qed.

Lemma performSort_empty fuel s (w : W) :
  selected s w = [] ->
  performSort fuel s w = Some (Normal tt, w, [EvNotice NoticeNoNotes]).
Proof. intros H. unfold performSort. fold (selected s w). now rewrite H. Qed.

(** A run over at least one document, with a concurrency bound of at least
    1: it completes, and its trace is the start notice, the windows with
    the delay between them, and the summary. *)
Lemma performSort_run fuel s (w : W) :
  1 <= maxWorkers s ->
  1 <= length (selected s w) < fuel ->
  exists batches,
    batch_loop fuel (selected s w) (maxWorkers s) 0 [] = Some batches
    /\ concat batches = selected s w
    /\ performSort fuel s w
       = Some (Normal tt,
               run_host_after s batches w,
               EvNotice (NoticeStarting (length (selected s w)) (aiModel s))
                 :: join_delay (window_traces s batches w)
                 ++ [EvNotice (NoticeComplete
                                 (moved_of (run_results s batches w))
                                 (errors_of (run_results s batches w)))]).
Proof.
  intros Hk [Hn Hfuel].
  destruct (@batch_loop_windows (selected s w) (maxWorkers s) fuel Hk Hfuel)
    as (batches & Hloop & Hcat & _).
  exists batches. split; [ exact Hloop | ]. split; [ exact Hcat | ].
  unfold performSort. fold (selected s w).
  destruct (Nat.eqb_spec (length (selected s w)) 0) as [H0 | _]; [ lia | ].
  rewrite Hloop. unfold bind, new_Notice, emit.
  rewrite (@for_batches_run s (length batches) batches 0 (0, 0) w eq_refl). cbn.
  reflexivity.
Qed.

(** The batching loop on no document. *)
Lemma batch_loop_nil fuel k :
  1 <= fuel -> batch_loop fuel (@nil TFile) k 0 [] = Some [].
Proof. destruct fuel; [ lia | reflexivity ]. Qed.

(** Every run with a concurrency bound of at least 1: it completes, the
    results of its tasks are those of behaviours of the tasks of the
    selected documents, in document order, and its trace is made of the
    notices, of the traces of these behaviours, of the log lines of the
    [forEach]es and of the delays, whatever the order in which the tasks of
    a window are resumed. *)
Lemma performSort_shape fuel s (w : W) :
  1 <= maxWorkers s ->
  length (selected s w) < fuel ->
  exists batches w' t trs others,
    batch_loop fuel (selected s w) (maxWorkers s) 0 [] = Some batches
    /\ performSort fuel s w = Some (Normal tt, w', t)
    /\ settles (Task.classifyAndMoveNote s) (selected s w) (run_results s batches w) trs
    /\ Forall (fun e => is_host_call e = false) others
    /\ Permutation t (concat trs ++ others)
    /\ (1 <= length (selected s w) ->
        summary t = Some (moved_of (run_results s batches w),
                          errors_of (run_results s batches w))).
Proof.
  intros Hk Hfuel. destruct (selected s w) as [ | file files] eqn:Hsel.
  - exists [], w, [EvNotice NoticeNoNotes], [], [EvNotice NoticeNoNotes].
    split; [ apply batch_loop_nil; lia | ].
    split; [ now apply performSort_empty | ].
    split; [ constructor | ]. split; [ now repeat constructor | ].
    split; [ reflexivity | ]. cbn. lia.
  - rewrite <- Hsel in *.
    assert (Hn : 1 <= length (selected s w) < fuel) by (rewrite Hsel in *; cbn in *; lia).
    destruct (performSort_run s w Hk Hn) as (batches & Hloop & Hcat & Hrun).
    destruct (run_shape s batches w) as (trs & logs & Hset & Hlogs & Hperm).
    rewrite Hcat in Hset.
    eexists batches, _, _, trs,
      (EvNotice (NoticeStarting (length (selected s w)) (aiModel s))
         :: logs ++ repeat (EvDelay 1000) (length batches - 1)
         ++ [EvNotice (NoticeComplete (moved_of (run_results s batches w))
                                      (errors_of (run_results s batches w)))]).
    split; [ exact Hloop | ]. split; [ exact Hrun | ]. split; [ exact Hset | ].
    split; [ | split ].
    + constructor; [ reflexivity | ]. apply Forall_app. split.
      * apply console_Forall; auto.
      * apply Forall_app. split; [ | now repeat constructor ].
        apply Forall_forall. intros e He. apply repeat_spec in He. now subst.
    + etransitivity; [ | apply Permutation_middle ]. apply perm_skip.
      rewrite !app_assoc. apply Permutation_app_tail. now rewrite <- app_assoc.
    + intros _. apply summary_last.
Qed.

End RunFacts.

(** ** Properties of one task *)

Section TaskProperties.

Context {W : Type} {host : Host W}.

Lemma trimStart_blank s : blank s = true -> trimStart s = [].
Proof.
  induction s as [ | c r IH]; [ reflexivity | ].
  cbn. intros H. apply andb_prop in H as [Hc Hr]. rewrite Hc. now apply IH.
Qed.

Lemma trim_blank s : blank s = true -> trim s = [].
Proof. intros H. unfold trim. now rewrite (trimStart_blank s H). Qed.

(** C4: a document whose content is empty or white space only is read and
    nothing more: the task returns [false], no classification call is
    issued, and nothing is created or renamed. *)
Theorem blank_document_is_skipped s file content (w w1 : W) :
  vault_read file w = (Normal content, w1) ->
  blank content = true ->
  classifyAndMoveNote s file w = (Normal false, w1, [EvRead file]).
Proof.
  intros Hread Hblank.
  unfold classifyAndMoveNote, try_catch, bind, read, call.
  rewrite Hread, (trim_blank content Hblank). reflexivity.
Qed.

(** C5: when the trimmed answer of the model is not, code unit for code
    unit, one of the target folders, the label is not accepted and the
    task returns [false] having issued the read and the classification call
    only: nothing is created or renamed. *)
Theorem unknown_label_is_not_moved s file content raw (w w1 w2 : W) t :
  vault_read file w = (Normal content, w1) ->
  truthy (trim content) = true ->
  call_selected_model s (build_prompt s content) w1 = (Normal (JString raw), w2, t) ->
  includes (targetFolders s) (trim raw) = false ->
  label_accepted s (trim raw) = false
  /\ classifyAndMoveNote s file w = (Normal false, w2, EvRead file :: t)
  /\ count is_move (EvRead file :: t) = 0.
Proof.
  intros Hread Hcontent Hcall Hnot.
  assert (Hlabel : label_accepted s (trim raw) = false).
  { unfold label_accepted. rewrite Hnot. apply andb_false_r. }
  split; [ exact Hlabel | ]. split.
  - unfold classifyAndMoveNote, try_catch, bind, read, call.
    rewrite Hread, Hcontent. cbn [negb].
    unfold classifyNote, try_catch, bind. rewrite Hcall.
    cbn [lift trim_or_null]. destruct (truthy (trim raw)).
    + rewrite Hlabel. cbn. now rewrite !app_nil_r.
    + cbn. now rewrite !app_nil_r.
  - pose proof (@call_selected_model_silent _ _ is_move s (build_prompt s content)
                  (fun _ => eq_refl) (fun _ => eq_refl) w1) as H.
    rewrite Hcall in H. unfold trace in H. cbn [snd] in H.
    rewrite count_cons. cbn. lia.
Qed.

Lemma call_selected_model_provider s p prompt :
  selected_provider s = Some p ->
  call_selected_model s prompt = call_api p (key_of s p) (text_of p) prompt.
Proof.
  unfold selected_provider, call_selected_model.
  destruct (string_eqb (aiModel s) (str "gemini")); [ now intros [= <-] | ].
  destruct (string_eqb (aiModel s) (str "claude")); [ now intros [= <-] | ].
  destruct (string_eqb (aiModel s) (str "gpt")); [ now intros [= <-] | ].
  discriminate.
Qed.

Lemma absent_or_blank_no_label text :
  absent_or_blank text -> trim_or_null (or_null text) = Normal None.
Proof.
  intros [-> | (raw & -> & Hblank)]; [ reflexivity | ].
  unfold or_null, json_truthy. destruct (truthy raw); [ | reflexivity ].
  cbn. now rewrite (trim_blank raw Hblank).
Qed.

(** C10: a successful response whose text field is an empty or
    white-space-only string gives no label ([null]), exactly as an absent
    field does: [classifyNote] returns [null] and the task returns [false]
    after the read and the one classification call, without creating or
    renaming anything. *)
Theorem blank_answer_is_no_label s p file content response data text (w w1 w2 : W) :
  selected_provider s = Some p ->
  vault_read file w = (Normal content, w1) ->
  truthy (trim content) = true ->
  net_fetch {| provider := p; apiKey := key_of s p;
               body_prompt := build_prompt s content |} w1 = (Normal response, w2) ->
  ok response = true ->
  json_body response = Normal data ->
  text_of p data = Normal text ->
  absent_or_blank text ->
  classifyNote s content w1
  = (Normal None, w2,
     [EvFetch {| provider := p; apiKey := key_of s p;
                 body_prompt := build_prompt s content |}])
  /\ classifyAndMoveNote s file w
     = (Normal false, w2,
        [EvRead file;
         EvFetch {| provider := p; apiKey := key_of s p;
                    body_prompt := build_prompt s content |}]).
Proof.
  intros Hp Hread Hcontent Hfetch Hok Hbody Htext Hblank.
  assert (Hnote : classifyNote s content w1
                  = (Normal None, w2,
                     [EvFetch {| provider := p; apiKey := key_of s p;
                                 body_prompt := build_prompt s content |}])).
  { unfold classifyNote, try_catch, bind.
    rewrite (call_selected_model_provider s (build_prompt s content) Hp).
    unfold call_api, try_catch, bind, fetch, call. rewrite Hfetch.
    unfold after_fetch. rewrite Hok. cbn [negb]. unfold bind, lift.
    rewrite Hbody, Htext. cbn [ret].
    rewrite (absent_or_blank_no_label Hblank). reflexivity. }
  split; [ exact Hnote | ].
  unfold classifyAndMoveNote, try_catch, bind, read, call.
  rewrite Hread, Hcontent. cbn [negb]. rewrite Hnote. reflexivity.
Qed.

End TaskProperties.

(** ** Properties of a run *)

Section RunProperties.

Context {W : Type} {host : Host W}.

Lemma count_join_delay p ts :
  count p (join_delay ts)
  = list_sum (map (count p) ts)
    + (if p (EvDelay 1000) then length ts - 1 else 0).
Proof.
  induction ts as [ | t rest IH]; [ cbn; now destruct (p (EvDelay 1000)) | ].
  cbn [join_delay map list_sum length]. destruct rest as [ | t' rest'].
  - cbn. destruct (p (EvDelay 1000)); lia.
  - rewrite !count_app, IH, count_cons, count_nil.
    cbn [length map list_sum fold_right]. destruct (p (EvDelay 1000)); lia.
Qed.

Lemma list_sum_cons a l : list_sum (a :: l) = a + list_sum l.
Proof. reflexivity. Qed.

Lemma windows_sum p (f : list TFile -> nat) s batches ts :
  (forall b t, is_window_trace s b t -> count p t = f b) ->
  Forall2 (is_window_trace s) batches ts ->
  list_sum (map (count p) ts) = list_sum (map f batches).
Proof.
  intros Hw. induction 1 as [ | b t batches ts Hbt _ IH]; [ reflexivity | ].
  cbn [map]. now rewrite !list_sum_cons, (Hw b t Hbt), IH.
Qed.

Lemma list_sum_zero {A} (l : list A) : list_sum (map (fun _ => 0) l) = 0.
Proof. induction l; [ reflexivity | cbn [map]; now rewrite list_sum_cons ]. Qed.



Lemma fulfilled_tally (rs : list (Settled bool)) :
  Forall (fun r => exists a, r = Fulfilled a /\ True) rs ->
  moved_of rs = length (filter (returned true) rs)
  /\ errors_of rs = length (filter (returned false) rs).
Proof.
  unfold moved_of, errors_of. induction 1 as [ | r rs (a & -> & _) _ [IH1 IH2]].
  - now split.
  - destruct a; cbn; now rewrite IH1, IH2.
Qed.

(** No task of a run rejects. *)
Lemma settles_all_fulfilled s batch rs trs :
  settles (@Task.classifyAndMoveNote s) batch rs trs ->
  Forall (fun r => exists a, r = Fulfilled a /\ True) rs.
Proof.
  apply settles_answers. intros file c t H.
  destruct (task_classifyAndMoveNote_never_throws H) as (a & ->). now exists a.
Qed.

(** The events of a kind that only host calls are of are those of the
    tasks. *)
Lemma others_count q (others : list event) :
  (forall e, q e = true -> is_host_call e = true) ->
  Forall (fun e => is_host_call e = false) others -> count q others = 0.
Proof.
  intros Hq. induction 1 as [ | e others He _ IH]; [ reflexivity | ].
  rewrite count_cons, IH. destruct (q e) eqn:Hqe; [ | reflexivity ].
  rewrite (Hq e Hqe) in He. discriminate.
Qed.

Lemma shape_count q (t : list event) trs others :
  Forall (fun e => is_host_call e = false) others ->
  Permutation t (concat trs ++ others) ->
  (forall e, q e = true -> is_host_call e = true) ->
  count q t = count q (concat trs).
Proof.
  intros Ho Hperm Hq. rewrite (count_perm q Hperm), count_app, (others_count q Hq Ho). lia.
Qed.


(** C3: for a concurrency bound [k >= 1] the batching loop exits and cuts
    the documents into [ceil(n / k)] windows of at most [k] documents, the
    [j]-th window being [files.slice(j * k, j * k + k)], so that the windows
    in order make up the original list; and a window issues at most [k]
    classification calls, whatever the order in which its tasks are
    resumed. *)
Theorem windows_partition_documents s (files : list TFile) k fuel :
  1 <= k -> length files < fuel ->
  exists batches,
    batch_loop fuel files k 0 [] = Some batches
    /\ length batches = ceil_div (length files) k
    /\ Forall (fun b => length b <= k) batches
    /\ concat batches = files
    /\ (forall j, j < length batches ->
                  nth j batches [] = slice files (j * k) (j * k + k))
    /\ (forall b t, In b batches ->
                    @is_window_trace W host s b t -> count is_fetch t <= k).
Proof.
  intros Hk Hfuel.
  destruct (@batch_loop_windows files k fuel Hk Hfuel)
    as (batches & Hloop & Hcat & Hlen & Hsize & Hnth).
  exists batches. repeat split; auto.
  - eapply Forall_impl; [ | exact Hsize ]. cbn. intros b Hb. lia.
  - intros b t Hin Ht. pose proof (window_fetches Ht) as Hf.
    rewrite Forall_forall in Hsize. specialize (Hsize b Hin). lia.
Qed.

(** C9: in a run over at least one document the trace is the start
    notice, the traces of the [ceil(n / k)] windows in order with one delay
    of 1000 ms between two consecutive windows, and the summary; no window
    contains a delay, whatever the order in which its tasks are resumed, so
    the run waits once after every window but the last, and not at all when
    there is one window. *)
Theorem pacing_delay_between_windows fuel s (w : W) :
  1 <= maxWorkers s ->
  1 <= length (selected s w) < fuel ->
  exists batches ts w' t moved errors,
    batch_loop fuel (selected s w) (maxWorkers s) 0 [] = Some batches
    /\ Forall2 (is_window_trace s) batches ts
    /\ performSort fuel s w = Some (Normal tt, w', t)
    /\ t = EvNotice (NoticeStarting (length (selected s w)) (aiModel s))
             :: join_delay ts ++ [EvNotice (NoticeComplete moved errors)]
    /\ length ts = ceil_div (length (selected s w)) (maxWorkers s)
    /\ Forall (fun t' => count is_delay t' = 0) ts
    /\ count is_delay t = length ts - 1.
Proof.
  intros Hk Hn.
  destruct (performSort_run s w Hk Hn) as (batches & Hloop & _ & Hrun).
  destruct (@batch_loop_windows (selected s w) (maxWorkers s) fuel Hk (proj2 Hn))
    as (batches' & Hloop' & _ & Hlen & _).
  rewrite Hloop in Hloop'. injection Hloop' as <-.
  pose proof (window_traces_are_windows s batches w) as Hts.
  assert (Hquiet : Forall (fun t' => count is_delay t' = 0) (window_traces s batches w)).
  { clear - Hts. induction Hts as [ | b t batches ts Hbt _ IH]; constructor; auto.
    exact (window_no_delay Hbt). }
  exists batches, (window_traces s batches w). do 4 eexists.
  split; [ exact Hloop | ]. split; [ exact Hts | ].
  split; [ exact Hrun | ]. split; [ reflexivity | ].
  split; [ now rewrite <- (Forall2_length Hts) | ]. split; [ exact Hquiet | ].
  rewrite count_cons, count_app, count_join_delay, count_cons, count_nil. cbn.
  rewrite (@windows_sum is_delay (fun _ => 0) s batches (window_traces s batches w)); auto.
  - rewrite list_sum_zero. lia.
  - intros b t Hbt. exact (window_no_delay Hbt).
Qed.

(** C7: with a concurrency bound of at least 1 a run completes without
    throwing, whatever the order in which the tasks of a window are
    resumed; every selected document is read once, its task settles
    fulfilled (no error escapes it), and the totals of the summary add up
    to the number of documents.  A run over no document shows the
    no-notes notice and no summary. *)
Theorem every_document_is_counted_once fuel s (w : W) :
  1 <= maxWorkers s ->
  length (selected s w) < fuel ->
  exists batches w' t,
    batch_loop fuel (selected s w) (maxWorkers s) 0 [] = Some batches
    /\ performSort fuel s w = Some (Normal tt, w', t)
    /\ length (run_results s batches w) = length (selected s w)
    /\ Forall (fun r => is_rejected r = false) (run_results s batches w)
    /\ count is_read t = length (selected s w)
    /\ (selected s w = [] -> t = [EvNotice NoticeNoNotes])
    /\ (selected s w <> [] ->
        exists moved errors,
          summary t = Some (moved, errors)
          /\ moved + errors = length (selected s w)).
Proof.
  intros Hk Hfuel.
  destruct (performSort_shape s w Hk Hfuel)
    as (batches & w' & t & trs & others & Hloop & Hrun & Hset & Ho & Hperm & Hsum).
  exists batches, w', t. split; [ exact Hloop | ]. split; [ exact Hrun | ].
  split; [ exact (settles_length Hset) | ]. split; [ | split; [ | split ] ].
  - eapply Forall_impl; [ | exact (settles_all_fulfilled Hset) ].
    cbn. now intros r (a & -> & _).
  - rewrite (@shape_count is_read t trs others Ho Hperm) by (now intros []).
    exact (@settles_exactly W host bool is_read (Task.classifyAndMoveNote s) _ _ _
             (fun file c t => @task_classifyAndMoveNote_reads_once W host s file c t)
             Hset).
  - intros Hnil. rewrite (performSort_empty fuel s w Hnil) in Hrun. congruence.
  - intros Hne. do 2 eexists. split.
    + apply Hsum. destruct (selected s w); [ congruence | cbn; lia ].
    + rewrite moved_errors_sum. exact (settles_length Hset).
Qed.

(** C2, as the code has it: a run over at least one document ends with a
    summary whose first total is the number of tasks that returned [true]
    and whose second total is the number of tasks that returned [false],
    whatever the order in which the tasks of a window are resumed: a
    document that is skipped is not counted as moved, and is counted as an
    error. *)
Theorem skipped_documents_count_as_errors fuel s (w : W) :
  1 <= maxWorkers s ->
  1 <= length (selected s w) < fuel ->
  exists batches w' t,
    batch_loop fuel (selected s w) (maxWorkers s) 0 [] = Some batches
    /\ performSort fuel s w = Some (Normal tt, w', t)
    /\ summary t
       = Some (length (filter (returned true) (run_results s batches w)),
               length (filter (returned false) (run_results s batches w))).
Proof.
  intros Hk Hn.
  destruct (performSort_shape s w Hk (proj2 Hn))
    as (batches & w' & t & trs & others & Hloop & Hrun & Hset & _ & _ & Hsum).
  destruct (fulfilled_tally (settles_all_fulfilled Hset)) as [Hm He].
  exists batches, w', t. split; [ exact Hloop | ]. split; [ exact Hrun | ].
  now rewrite (Hsum (proj1 Hn)), Hm, He.
Qed.


(** C6: when the key of the selected model is missing, the command shows
    the one notice that asks for it and returns: the modal is not opened,
    so whatever the user would click, no document is read, no request is
    sent, and the settings and the host are as before.  The check is made
    by [sortNotes] alone: a task has no check of its own and would read its
    document. *)
Theorem missing_key_stops_the_run fuel s click (w : W) :
  truthy (getCurrentApiKey s) = false ->
  sort_command fuel s click w
  = Some (s, Normal tt, w, [EvNotice (NoticeSetApiKey (aiModel s))])
  /\ forall file w', count is_read (trace (classifyAndMoveNote s file w')) = 1.
Proof.
  intros Hkey. split.
  - unfold sort_command, sortNotes. now rewrite Hkey.
  - intros file w'. apply classifyAndMoveNote_reads_once.
Qed.

(** C8: the totals that the [forEach] of a batch adds up do not depend on
    the order of the results; the reduction leaves the host state alone and
    issues no call to it. *)
Theorem totals_are_order_independent batch rs rs' totals (w : W) :
  length rs = length batch ->
  Permutation rs rs' ->
  exists moved errors logs logs',
    forEach_results batch rs 0 totals w = (Normal (moved, errors), w, logs)
    /\ forEach_results batch rs' 0 totals w = (Normal (moved, errors), w, logs')
    /\ forallb is_console logs = true
    /\ forallb is_console logs' = true.
Proof.
  intros Hlen Hperm.
  destruct (@forEach_results_run W batch rs 0) as (logs & Hlogs & Hrun); [ lia | ].
  destruct (@forEach_results_run W batch rs' 0) as (logs' & Hlogs' & Hrun');
    [ rewrite <- (Permutation_length Hperm); lia | ].
  exists (fst totals + moved_of rs), (snd totals + errors_of rs), logs, logs'.
  split; [ apply Hrun | ]. split; [ | now split ].
  rewrite Hrun'. unfold add_tally.
  now rewrite (moved_of_perm Hperm), (errors_of_perm Hperm).
Qed.

End RunProperties.

(** ** Concrete runs *)

(** The scenario of three notes, two labels and a bound of 2, in a vault
    that holds the folder [Work]: two windows with one delay between them;
    two notes are moved and the one with the unknown label is counted as an
    error.  [batch.map] issues the reads of a window before any task goes
    on, and the answers arrive in turn: the requests of the first window are
    both sent before either is answered. *)
Example three_notes_run :
  @performSort (list jsstring) (vault_host three_notes answers_in_turn) 4 work_settings
               [str "Work"]
  = Some (Normal tt, [str "Personal"; str "Work"],
          [EvNotice (NoticeStarting 3 (str "gemini"));
           EvRead (root_note "a.md");
           EvRead (root_note "b.md");
           EvFetch (gemini_request work_settings (str "alpha"));
           EvFetch (gemini_request work_settings (str "beta"));
           EvRename (root_note "a.md") (str "Work/a.md");
           EvConsoleError (LogErrorProcessingNote (str "b.md") false);
           EvDelay 1000;
           EvRead (root_note "c.md");
           EvFetch (gemini_request work_settings (str "gamma"));
           EvCreateFolder (str "Personal");
           EvRename (root_note "c.md") (str "Personal/c.md");
           EvNotice (NoticeComplete 2 1)]).
Proof. vm_compute. reflexivity. Qed.

(** The same run when the event loop resumes the tasks of a window to
    their end one after the other: the same events in another order, and
    the same totals. *)
Example three_notes_one_after_the_other :
  @performSort unit (scripted three_notes) 4 work_settings tt
  = Some (Normal tt, tt,
          [EvNotice (NoticeStarting 3 (str "gemini"));
           EvRead (root_note "a.md");
           EvRead (root_note "b.md");
           EvFetch (gemini_request work_settings (str "alpha"));
           EvRename (root_note "a.md") (str "Work/a.md");
           EvFetch (gemini_request work_settings (str "beta"));
           EvConsoleError (LogErrorProcessingNote (str "b.md") false);
           EvDelay 1000;
           EvRead (root_note "c.md");
           EvFetch (gemini_request work_settings (str "gamma"));
           EvCreateFolder (str "Personal");
           EvRename (root_note "c.md") (str "Personal/c.md");
           EvNotice (NoticeComplete 2 1)]).
Proof. vm_compute. reflexivity. Qed.

(** Two notes of one window that the model both files under [Personal], a
    folder the vault does not hold yet.  When the first task is resumed to
    its end before the second, the second finds the folder and both notes
    are moved. *)
Example two_notes_one_after_the_other :
  @performSort (list jsstring) (vault_host two_personal_notes []) 3 work_settings []
  = Some (Normal tt, [str "Personal"],
          [EvNotice (NoticeStarting 2 (str "gemini"));
           EvRead (root_note "a.md");
           EvRead (root_note "b.md");
           EvFetch (gemini_request work_settings (str "alpha"));
           EvCreateFolder (str "Personal");
           EvRename (root_note "a.md") (str "Personal/a.md");
           EvFetch (gemini_request work_settings (str "beta"));
           EvRename (root_note "b.md") (str "Personal/b.md");
           EvNotice (NoticeComplete 2 0)]).
Proof. vm_compute. reflexivity. Qed.

(** The same two notes when the answers arrive in turn: both tasks look
    for the folder before either creation is answered, both create it, the
    second creation is rejected, and the second note is counted as an
    error. *)
Example two_notes_in_turn :
  @performSort (list jsstring) (vault_host two_personal_notes answers_in_turn) 3
               work_settings []
  = Some (Normal tt, [str "Personal"],
          [EvNotice (NoticeStarting 2 (str "gemini"));
           EvRead (root_note "a.md");
           EvRead (root_note "b.md");
           EvFetch (gemini_request work_settings (str "alpha"));
           EvFetch (gemini_request work_settings (str "beta"));
           EvCreateFolder (str "Personal");
           EvCreateFolder (str "Personal");
           EvRename (root_note "a.md") (str "Personal/a.md");
           EvConsoleError (LogErrorProcessing (str "b.md"));
           EvConsoleError (LogErrorProcessingNote (str "b.md") false);
           EvNotice (NoticeComplete 1 1)]).
Proof. vm_compute. reflexivity. Qed.

(** A concurrency bound of 0 never leaves the batching loop. *)
Example zero_bound_does_not_exit fuel :
  batch_loop fuel [root_note "a.md"] 0 0 [] = None.
Proof.
  assert (H : forall batches, batch_loop fuel [root_note "a.md"] 0 0 batches = None).
  { induction fuel as [ | fuel IH]; intros batches; [ reflexivity | ]. cbn. apply IH. }
  apply H.
Qed.


(** C2, a run that refutes the claim as written: the only note is blank,
    its task returns [false] after the read, and the summary counts it as
    an error. *)
Lemma blank_note_is_counted_as_error :
  @classifyAndMoveNote unit (scripted one_blank_note) work_settings (root_note "blank.md") tt
  = (Normal false, tt, [EvRead (root_note "blank.md")])
  /\ @performSort unit (scripted one_blank_note) 2 work_settings tt
     = Some (Normal tt, tt,
             [EvNotice (NoticeStarting 1 (str "gemini"));
              EvRead (root_note "blank.md");
              EvConsoleError (LogErrorProcessingNote (str "blank.md") false);
              EvNotice (NoticeComplete 0 1)]).
Proof. split; vm_compute; reflexivity. Qed.

(** ** The properties on concrete inputs *)


Lemma skipped_documents_count_as_errors_witness :
  1 <= maxWorkers work_settings
  /\ exists batches w' t,
       batch_loop 4 (script_files three_notes) 2 0 [] = Some batches
       /\ @performSort unit (scripted three_notes) 4 work_settings tt
          = Some (Normal tt, w', t)
       /\ summary t
          = Some (length (filter (returned true)
                            (@run_results unit (scripted three_notes) work_settings
                               batches tt)),
                  length (filter (returned false)
                            (@run_results unit (scripted three_notes) work_settings
                               batches tt))).
Proof.
  split; [ vm_compute; lia | ].
  apply (@skipped_documents_count_as_errors unit (scripted three_notes) 4 work_settings tt).
  - vm_compute. lia.
  - vm_compute. lia.
Defined.

Lemma windows_partition_documents_witness :
  exists batches,
    batch_loop 4 (script_files three_notes) 2 0 [] = Some batches
    /\ length batches = 2
    /\ Forall (fun b => length b <= 2) batches
    /\ concat batches = script_files three_notes.
Proof.
  destruct (@windows_partition_documents unit (scripted three_notes) work_settings
              (script_files three_notes) 2 4)
    as (batches & Hloop & Hlen & Hsize & Hcat & _).
  - lia.
  - vm_compute. lia.
  - exists batches. repeat split; assumption.
Defined.

Lemma blank_document_is_skipped_witness :
  blank (str "   ") = true
  /\ @classifyAndMoveNote unit (scripted one_blank_note) work_settings
       (root_note "blank.md") tt
     = (Normal false, tt, [EvRead (root_note "blank.md")]).
Proof.
  split; [ reflexivity | ].
  apply (@blank_document_is_skipped unit (scripted one_blank_note) work_settings
           (root_note "blank.md") (str "   ") tt tt); reflexivity.
Defined.

(** The model answers [work] where the folder is [Work]. *)
Lemma unknown_label_is_not_moved_witness :
  includes (targetFolders work_settings) (trim (str "work")) = false
  /\ @classifyAndMoveNote unit (scripted (one_note (JString (str "work")))) work_settings
       (root_note "todo.md") tt
     = (Normal false, tt,
        [EvRead (root_note "todo.md");
         EvFetch (gemini_request work_settings (str "buy milk"))]).
Proof.
  split; [ reflexivity | ].
  apply (@unknown_label_is_not_moved unit (scripted (one_note (JString (str "work"))))
           work_settings (root_note "todo.md") (str "buy milk") (str "work") tt tt tt
           [EvFetch (gemini_request work_settings (str "buy milk"))]);
    reflexivity.
Defined.

Lemma missing_key_stops_the_run_witness :
  truthy (getCurrentApiKey DEFAULT_SETTINGS) = false
  /\ @sort_command unit (scripted three_notes) 4 DEFAULT_SETTINGS SortNotes tt
     = Some (DEFAULT_SETTINGS, Normal tt, tt, [EvNotice (NoticeSetApiKey (str "gemini"))]).
Proof.
  split; [ reflexivity | ].
  apply (@missing_key_stops_the_run unit (scripted three_notes) 4 DEFAULT_SETTINGS
           SortNotes tt).
  reflexivity.
Defined.

Lemma every_document_is_counted_once_witness :
  1 <= maxWorkers work_settings
  /\ exists w' t,
       @performSort unit (scripted three_notes) 4 work_settings tt = Some (Normal tt, w', t)
       /\ count is_read t = 3
       /\ exists moved errors, summary t = Some (moved, errors) /\ moved + errors = 3.
Proof.
  split; [ vm_compute; lia | ].
  destruct (@every_document_is_counted_once unit (scripted three_notes) 4 work_settings tt)
    as (batches & w' & t & _ & Hrun & _ & _ & Hread & _ & Hsum).
  - vm_compute. lia.
  - vm_compute. lia.
  - exists w', t. repeat split; [ exact Hrun | exact Hread | ].
    apply Hsum. discriminate.
Defined.

Lemma totals_are_order_independent_witness :
  Permutation [Fulfilled true; Fulfilled false] [Fulfilled false; Fulfilled true]
  /\ exists moved errors logs logs',
       @forEach_results unit [root_note "a.md"; root_note "b.md"]
         [Fulfilled true; Fulfilled false] 0 (0, 0) tt
       = (Normal (moved, errors), tt, logs)
       /\ @forEach_results unit [root_note "a.md"; root_note "b.md"]
            [Fulfilled false; Fulfilled true] 0 (0, 0) tt
          = (Normal (moved, errors), tt, logs')
       /\ forallb is_console logs = true
       /\ forallb is_console logs' = true.
Proof.
  split; [ apply perm_swap | ].
  apply (@totals_are_order_independent unit [root_note "a.md"; root_note "b.md"]
           [Fulfilled true; Fulfilled false] [Fulfilled false; Fulfilled true] (0, 0) tt).
  - reflexivity.
  - apply perm_swap.
Defined.

Lemma pacing_delay_between_windows_witness :
  1 <= maxWorkers work_settings
  /\ exists w' t,
       @performSort unit (scripted three_notes) 4 work_settings tt = Some (Normal tt, w', t)
       /\ count is_delay t = 1.
Proof.
  split; [ vm_compute; lia | ].
  destruct (@pacing_delay_between_windows unit (scripted three_notes) 4 work_settings tt)
    as (batches & ts & w' & t & moved & errors & _ & _ & Hrun & _ & Hlen & _ & Hcount).
  - vm_compute. lia.
  - vm_compute. lia.
  - exists w', t. split; [ exact Hrun | ]. rewrite Hcount, Hlen. reflexivity.
Defined.

Lemma blank_answer_is_no_label_witness :
  absent_or_blank (JString (str "  "))
  /\ @classifyAndMoveNote unit (scripted (one_note (JString (str "  ")))) work_settings
       (root_note "todo.md") tt
     = (Normal false, tt,
        [EvRead (root_note "todo.md");
         EvFetch (gemini_request work_settings (str "buy milk"))]).
Proof.
  assert (H : absent_or_blank (JString (str "  "))).
  { right. exists (str "  "). split; reflexivity. }
  split; [ exact H | ].
  refine (proj2 (@blank_answer_is_no_label unit (scripted (one_note (JString (str "  "))))
                   work_settings Gemini (root_note "todo.md") (str "buy milk")
                   (gemini_says (JString (str "  "))) _ (JString (str "  ")) tt tt tt
                   _ _ _ _ _ _ _ H));
    reflexivity.
Defined.

(** ** Properties of the settings and of the selection *)

Section SettingsProperties.

Context {W : Type} {host : Host W}.

(** X1: whatever is typed into the custom target folders field, the folders
    kept are non-empty, trimmed and free of commas. *)
Theorem parsed_folders_are_clean value :
  Forall (fun folder =>
            folder <> [] /\ trim folder = folder /\ includes_char folder 44 = false)
         (parse_target_folders value).
Proof.
  unfold parse_target_folders. apply Forall_forall. intros folder Hin.
  apply filter_In in Hin as [Hin Hlen]. apply in_map_iff in Hin as (piece & <- & Hpiece).
  pose proof (split_on_pieces 44 value) as Hpieces.
  rewrite Forall_forall in Hpieces. specialize (Hpieces piece Hpiece).
  repeat split.
  - intros Heq. rewrite Heq in Hlen. discriminate.
  - apply trim_idem.
  - destruct (includes_char (trim piece) 44) eqn:Hc; [ | reflexivity ].
    apply trim_sub in Hc. congruence.
Qed.

Lemma trim_after_space x : trim (32%N :: x) = trim x.
Proof. reflexivity. Qed.

Lemma parse_after_space y :
  map trim (split_on 44 (32%N :: y)) = map trim (split_on 44 y).
Proof.
  cbn [split_on]. change (N.eqb 32 44) with false. cbv iota.
  pose proof (split_on_nonempty 44 y) as Hne.
  destruct (split_on 44 y) as [ | x xs]; [ congruence | ].
  cbn [map]. now rewrite trim_after_space.
Qed.

Lemma parse_join folders :
  Forall (fun folder =>
            folder <> [] /\ trim folder = folder /\ includes_char folder 44 = false)
         folders ->
  parse_target_folders (join (str ", ") folders) = folders.
Proof.
  unfold parse_target_folders.
  induction 1 as [ | f rest (Hne & Htrim & Hcomma) Hrest IH]; [ reflexivity | ].
  assert (Hkeep : (0 <? length f) = true).
  { destruct f; [ congruence | reflexivity ]. }
  destruct rest as [ | g rest'].
  - cbn [join]. rewrite split_on_none by assumption. cbn [map filter].
    now rewrite Htrim, Hkeep.
  - change (join (str ", ") (f :: g :: rest'))
      with (f ++ 44%N :: 32%N :: join (str ", ") (g :: rest')).
    rewrite split_on_app by assumption.
    cbn [map]. rewrite parse_after_space. cbn [filter].
    now rewrite Htrim, Hkeep, IH.
Qed.

(** X2: when every target folder is non-empty, trimmed and free of commas,
    the text that the custom target folders field shows for them is read
    back as the same list: typing nothing new leaves the settings as they
    are. *)
Theorem shown_folders_parse_back s :
  Forall (fun folder =>
            folder <> [] /\ trim folder = folder /\ includes_char folder 44 = false)
         (targetFolders s) ->
  set_custom_folders s (shown_target_folders s) = s.
Proof.
  intros H. unfold set_custom_folders, shown_target_folders.
  rewrite (parse_join H). now destruct s.
Qed.

(** X3: the notes a run selects.  With an empty source folder they are the
    markdown files whose path has no [/]: the notes at the root, and none
    of a subfolder.  With a source folder [F] they are the markdown files
    whose path is [F] or starts with [F/]: the notes of [F] and of all the
    folders below it, and none of a folder whose name only starts like
    [F]. *)
Theorem source_folder_selection s (w : W) file :
  In file (selected s w)
  <-> In file (getMarkdownFiles w)
      /\ match sourceFolder s with
         | [] => ~ In 47%N (path file)
         | _ :: _ =>
             path file = sourceFolder s
             \/ exists rest, path file = sourceFolder s ++ str "/" ++ rest
         end.
Proof.
  unfold selected. rewrite filter_In. apply and_iff_compat_l.
  unfold in_source_folder. destruct (sourceFolder s) as [ | c F] eqn:HF.
  - cbn [string_eqb]. rewrite negb_true_iff, <- not_true_iff_false.
    now rewrite includes_char_In.
  - cbn [string_eqb]. rewrite orb_true_iff, startsWith_prefix, string_eqb_eq.
    split.
    + intros [(rest & Hr) | Heq]; [ right | now left ].
      exists rest. now rewrite Hr, <- app_assoc.
    + intros [Heq | (rest & Hr)]; [ now right | left ].
      exists rest. now rewrite Hr, <- app_assoc.
Qed.

(** X4: auto-detection replaces the target folders by the names of the
    loaded folders whose path has no [/], and by nothing else; the key, the
    source folder and the concurrency bound are not touched. *)
Theorem auto_detection_takes_top_level_folders s (w : W) folder :
  (In folder (targetFolders (autoDetectTargetFolders s w))
   <-> exists d, In (AFolder d) (getAllLoadedFiles w)
                 /\ ~ In 47%N (folder_path d)
                 /\ folder_name d = folder)
  /\ getCurrentApiKey (autoDetectTargetFolders s w) = getCurrentApiKey s
  /\ sourceFolder (autoDetectTargetFolders s w) = sourceFolder s
  /\ maxWorkers (autoDetectTargetFolders s w) = maxWorkers s.
Proof.
  split; [ | now repeat split ].
  unfold autoDetectTargetFolders. cbn [targetFolders with_targetFolders].
  induction (getAllLoadedFiles w) as [ | f files IH]; cbn [filter_map].
  - split; [ intros [] | intros (d & [] & _) ].
  - assert (Hstep : forall P : Prop,
               (P <-> exists d, f = AFolder d /\ ~ In 47%N (folder_path d)
                                /\ folder_name d = folder) ->
               (P \/ In folder (filter_map top_level_folder_name files)
                <-> exists d, In (AFolder d) (f :: files)
                              /\ ~ In 47%N (folder_path d) /\ folder_name d = folder)).
    { intros P HP. rewrite HP, IH. split.
      - intros [(d & -> & H1 & H2) | (d & Hin & H1 & H2)];
          exists d; repeat split; auto; [ now left | now right ].
      - intros (d & [Heq | Hin] & H1 & H2); [ left | right ]; exists d; auto. }
    destruct f as [t | d]; cbn [top_level_folder_name].
    + rewrite <- (Hstep False); [ tauto | ].
      split; [ intros [] | intros (d & Hd & _); discriminate ].
    + destruct (includes_char (folder_path d) 47) eqn:Hc; cbn [negb].
      * rewrite <- (Hstep False); [ tauto | ].
        split; [ intros [] | ]. intros (d' & [= <-] & Hno & _).
        apply Hno. now apply includes_char_In.
      * cbn [In]. apply Hstep. split.
        -- intros <-. exists d. repeat split; auto.
           rewrite <- includes_char_In. congruence.
        -- now intros (d' & [= <-] & _ & Hn).
Qed.

Lemma batch_loop_zero (files : list TFile) :
  files <> [] -> forall fuel batches, batch_loop fuel files 0 0 batches = None.
Proof.
  intros Hne. induction fuel as [ | fuel IH]; intros batches; [ reflexivity | ].
  cbn [batch_loop]. destruct files as [ | f files]; [ congruence | ].
  cbn [length Nat.ltb Nat.leb Nat.add]. apply IH.
Qed.

(** X5: with a concurrency bound of 0 a run ends only when there is nothing
    to sort: over an empty selection it shows the no-notes notice, and over
    any other selection the batching loop never exits, however long it is
    left to run. *)
Theorem zero_bound_never_finishes fuel s (w : W) :
  maxWorkers s = 0 ->
  (selected s w = [] ->
   performSort fuel s w = Some (Normal tt, w, [EvNotice NoticeNoNotes]))
  /\ (selected s w <> [] -> performSort fuel s w = None).
Proof.
  intros Hk. split; intros Hsel.
  - now apply performSort_empty.
  - unfold performSort. fold (selected s w).
    destruct (Nat.eqb_spec (length (selected s w)) 0) as [H0 | _].
    + destruct (selected s w); [ congruence | discriminate ].
    + rewrite Hk. now rewrite batch_loop_zero.
Qed.

End SettingsProperties.

(** ** More properties of one task *)

Section MoreTaskProperties.

Context {W : Type} {host : Host W}.

(** X6: the prompt is a fixed header for the settings followed by the first
    4000 code units of the note: it is never more than 4000 code units
    longer than the header, and two notes that agree on their first 4000
    code units give the same prompt. *)
Theorem prompt_uses_first_4000 s content :
  build_prompt s content = build_prompt s [] ++ firstn 4000 content
  /\ length (build_prompt s content) <= length (build_prompt s []) + 4000
  /\ forall content',
       firstn 4000 content' = firstn 4000 content ->
       build_prompt s content' = build_prompt s content.
Proof.
  assert (H : forall c, build_prompt s c = build_prompt s [] ++ firstn 4000 c).
  { intros c. unfold build_prompt, substring0. rewrite firstn_nil, app_nil_r.
    repeat rewrite <- app_assoc. reflexivity. }
  split; [ apply H | ]. split.
  - rewrite (H content), length_app.
    pose proof (firstn_le_length 4000 content). lia.
  - intros content' Heq. now rewrite (H content'), (H content), Heq.
Qed.

Lemma call_api_starts prov key text prompt (w : W) :
  exists c w' t,
    call_api prov key text prompt w
    = (c, w', EvFetch {| provider := prov; apiKey := key; body_prompt := prompt |} :: t).
Proof.
  unfold call_api, try_catch, bind, fetch, call.
  destruct (net_fetch _ w) as [[response | e] w1].
  - destruct (after_fetch text response w1) as [[[v | e] w2] t2]; cbn; eauto.
  - cbn. eauto.
Qed.

Lemma classifyNote_starts s p content (w : W) :
  selected_provider s = Some p ->
  exists r w' t,
    classifyNote s content w
    = (Normal r, w',
       EvFetch {| provider := p; apiKey := key_of s p;
                  body_prompt := build_prompt s content |} :: t).
Proof.
  intros Hp. unfold classifyNote, try_catch, bind.
  rewrite (call_selected_model_provider s (build_prompt s content) Hp).
  destruct (call_api_starts p (key_of s p) (text_of p) (build_prompt s content) w)
    as (c & w1 & t1 & ->).
  destruct c as [response | e]; cbn.
  - destruct (trim_or_null response); cbn; eauto.
  - eauto.
Qed.

(** X7: a note that is read and is not blank is sent to the selected
    provider: the first thing the task does after the read is the request
    with that provider's key and the prompt built from the note, and the
    task still ends with a boolean. *)
Theorem nonblank_document_is_classified s p file content (w w1 : W) :
  selected_provider s = Some p ->
  vault_read file w = (Normal content, w1) ->
  blank content = false ->
  exists b w' t,
    classifyAndMoveNote s file w
    = (Normal b, w',
       EvRead file
         :: EvFetch {| provider := p; apiKey := key_of s p;
                       body_prompt := build_prompt s content |} :: t).
Proof.
  intros Hp Hread Hblank. rewrite classifyAndMoveNote_eq.
  unfold try_catch, bind at 1, read, call. rewrite Hread.
  unfold after_read. rewrite (trim_nonblank content Hblank). cbn [negb].
  unfold bind at 1.
  destruct (classifyNote_starts s content w1 Hp) as (r & w2 & t2 & ->).
  destruct ((match r with
             | Some folder =>
                 if label_accepted s folder then move_to file folder else ret false
             | None => ret false
             end : M W bool) w2) as [[[b | e] w3] t3]; cbn; eauto.
Qed.

(** X8: when the read fails the task logs the error and returns [false];
    nothing is sent to the model and nothing is moved. *)
Theorem unreadable_document_is_not_classified s file e (w w1 : W) :
  vault_read file w = (Throw e, w1) ->
  classifyAndMoveNote s file w
  = (Normal false, w1,
     [EvRead file; EvConsoleError (LogErrorProcessing (name file))]).
Proof.
  intros Hread. rewrite classifyAndMoveNote_eq.
  unfold try_catch, bind, read, call. now rewrite Hread.
Qed.

(** X9: when the request fails (the network call is rejected, or the
    response has a status that is not ok) [classifyNote] returns [null]:
    the body of the response is not looked at, and the error is logged by the
    adapter and by [classifyNote] and goes no further. *)
Theorem failed_request_gives_no_label s p content (w w1 : W) :
  selected_provider s = Some p ->
  ((exists e,
       net_fetch {| provider := p; apiKey := key_of s p;
                    body_prompt := build_prompt s content |} w = (Throw e, w1))
   \/ (exists response,
          net_fetch {| provider := p; apiKey := key_of s p;
                       body_prompt := build_prompt s content |} w = (Normal response, w1)
          /\ ok response = false)) ->
  classifyNote s content w
  = (Normal None, w1,
     [EvFetch {| provider := p; apiKey := key_of s p;
                 body_prompt := build_prompt s content |};
      EvConsoleError (LogProviderError p);
      EvConsoleError LogApiCallFailed]).
Proof.
  intros Hp Hfail. unfold classifyNote, try_catch, bind.
  rewrite (call_selected_model_provider s (build_prompt s content) Hp).
  unfold call_api, try_catch, bind, fetch, call.
  destruct Hfail as [(e & ->) | (response & -> & Hok)].
  - reflexivity.
  - unfold after_fetch. rewrite Hok. reflexivity.
Qed.

(** X10: [classifyNote] never throws, whatever the host answers; it issues
    at most one request and no other call; and a label it returns is not
    empty and has no white space at either end. *)
Theorem classifyNote_returns_clean_label_or_null s content (w : W) :
  exists r w' t,
    classifyNote s content w = (Normal r, w', t)
    /\ match r with
       | Some label => label <> [] /\ trim label = label
       | None => True
       end
    /\ count is_fetch t <= 1
    /\ count is_host_call t = count is_fetch t.
Proof.
  destruct (classifyNote_total s content w) as [r Hr].
  pose proof (classifyNote_fetch s content w) as Hfetch.
  pose proof (@classifyNote_only W host
                (fun e => is_host_call e = is_fetch e) s content
                (fun _ _ _ => eq_refl) (fun _ => eq_refl) w) as Honly.
  unfold outcome, trace in *.
  destruct (classifyNote s content w) as [[c w'] t] eqn:Hrun. cbn in *. subst c.
  exists r, w', t. repeat split; auto.
  - destruct r as [label | ]; [ | exact I ]. eapply classifyNote_label; eassumption.
  - clear - Honly. unfold count.
    induction Honly as [ | e t He _ IH]; [ reflexivity | ].
    cbn. rewrite He. destruct (is_fetch e); cbn; now rewrite IH.
Qed.

(** The trace of a task that returns [true]. *)
Lemma moved_task_shape s file (w w' : W) t :
  classifyAndMoveNote s file w = (Normal true, w', t) ->
  exists folder t0 w0,
    t = EvRead file :: t0 ++ [EvRename file (destination folder file)]
    /\ In folder (targetFolders s)
    /\ folder <> [] /\ trim folder = folder
    /\ count is_rename t0 = 0
    /\ vault_rename file (destination folder file) w0 = (Normal tt, w').
Proof.
  rewrite classifyAndMoveNote_eq. unfold try_catch, bind at 1, read, call.
  destruct (vault_read file w) as [[content | e] w1]; [ | cbn; discriminate ].
  unfold after_read. destruct (negb (truthy (trim content))); [ cbn; discriminate | ].
  unfold bind at 1.
  pose proof (@classifyNote_silent W host is_rename s content
                (fun _ => eq_refl) (fun _ => eq_refl) w1) as Hquiet.
  unfold trace in Hquiet.
  destruct (classifyNote s content w1) as [[[[folder | ] | e] w2] t2] eqn:Hnote;
    cbn [snd] in Hquiet; try (cbn; discriminate).
  destruct (label_accepted s folder) eqn:Hacc; [ | cbn; discriminate ].
  assert (Hclean : folder <> [] /\ trim folder = folder)
    by (eapply classifyNote_label; eassumption).
  destruct Hclean as [Hne Htrim].
  unfold move_to, bind, lookup_path, query, createFolder, rename, call, ret.
  cbv beta iota.
  fold (destination folder file).
  destruct (getAbstractFileByPath folder w2) as [d | ].
  - destruct (vault_rename file (destination folder file) w2) as [[[] | e] w3] eqn:Hren;
      cbn; [ | discriminate ].
    intros [= <- <-]. exists folder, t2, w2. repeat split; auto.
    + now apply label_accepted_In.
    + lia.
  - destruct (vault_createFolder folder w2) as [[[] | e] w3]; [ | cbn; discriminate ].
    destruct (vault_rename file (destination folder file) w3) as [[[] | e] w4] eqn:Hren;
      cbn; [ | discriminate ].
    intros [= <- <-]. exists folder, (t2 ++ [EvCreateFolder folder]), w3.
    repeat split; auto.
    + now rewrite <- app_assoc.
    + now apply label_accepted_In.
    + rewrite count_app, count_cons, count_nil. cbn. lia.
Qed.

Lemma count_last_rename f p0 (t0 : list event) :
  1 <= count is_rename (t0 ++ [EvRename f p0]).
Proof. rewrite count_app, count_cons. cbn. lia. Qed.

(** The trace of a task that returns [false] does not end with a rename. *)
Lemma unmoved_task_shape s file (w w' : W) t :
  classifyAndMoveNote s file w = (Normal false, w', t) ->
  forall t0 e, t = t0 ++ [e] -> is_rename e = false.
Proof.
  assert (Hlog : forall (pre t0 : list event) l e,
             pre ++ [EvConsoleError l] = t0 ++ [e] -> is_rename e = false).
  { intros pre t0 l e H. apply app_inj_tail in H as [_ <-]. reflexivity. }
  assert (Hcount : forall (pre t0 : list event) e,
             count is_rename pre = 0 -> pre = t0 ++ [e] -> is_rename e = false).
  { intros pre t0 e Hpre ->. rewrite count_app, count_cons, count_nil in Hpre.
    destruct (is_rename e); [ cbn in Hpre; lia | reflexivity ]. }
  rewrite classifyAndMoveNote_eq. unfold try_catch, bind at 1, read, call.
  destruct (vault_read file w) as [[content | e] w1].
  2:{ cbn. intros [= <- <-] t0 x H.
      exact (Hlog [EvRead file] t0 _ x H). }
  unfold after_read. destruct (negb (truthy (trim content))).
  { cbn. intros [= <- <-] t0 x H. now apply (Hcount [EvRead file] t0 x). }
  unfold bind at 1.
  pose proof (@classifyNote_silent W host is_rename s content
                (fun _ => eq_refl) (fun _ => eq_refl) w1) as Hquiet.
  unfold trace in Hquiet.
  destruct (classifyNote_total s content w1) as [r Hr]. unfold outcome in Hr.
  destruct (classifyNote s content w1) as [[c w2] t2]. cbn in Hr, Hquiet. subst c.
  assert (Hskip : forall t0 x, EvRead file :: t2 ++ [] = t0 ++ [x] -> is_rename x = false).
  { intros t0 x H. apply (Hcount (EvRead file :: t2 ++ []) t0 x); [ | exact H ].
    rewrite app_nil_r, count_cons. cbn. lia. }
  destruct r as [label | ]; [ | cbn; intros [= <- <-]; exact Hskip ].
  destruct (label_accepted s label); [ | cbn; intros [= <- <-]; exact Hskip ].
  unfold move_to, bind, lookup_path, query, createFolder, rename, call, ret.
  cbv beta iota.
  destruct (getAbstractFileByPath label w2) as [d | ].
  - destruct (vault_rename file _ w2) as [[[] | e] w3]; cbn; [ discriminate | ].
    intros [= <- <-] t0 x H. repeat rewrite app_comm_cons in H. repeat rewrite app_assoc in H.
    exact (Hlog _ t0 _ x H).
  - destruct (vault_createFolder label w2) as [[[] | e] w3].
    + destruct (vault_rename file _ w3) as [[[] | e] w4]; cbn; [ discriminate | ].
      intros [= <- <-] t0 x H. repeat rewrite app_comm_cons in H. repeat rewrite app_assoc in H.
      exact (Hlog _ t0 _ x H).
    + cbn. intros [= <- <-] t0 x H. repeat rewrite app_comm_cons in H. repeat rewrite app_assoc in H.
      exact (Hlog _ t0 _ x H).
Qed.

(** X11: a task returns [true] exactly when the last thing it did was to
    rename its document to [folder/name] for some folder: a rename that the
    host rejects is followed by the log line of the [catch], and every other
    way through the task ends before any rename. *)
Theorem moved_iff_rename_is_last s file (w : W) :
  outcome (classifyAndMoveNote s file w) = Normal true
  <-> exists folder t0,
        trace (classifyAndMoveNote s file w)
        = t0 ++ [EvRename file (destination folder file)].
Proof.
  destruct (classifyAndMoveNote_total s file w) as [b Hb].
  unfold outcome, trace in *.
  destruct (classifyAndMoveNote s file w) as [[c w'] t] eqn:Hrun. cbn in *. subst c.
  split.
  - intros [= ->]. apply moved_task_shape in Hrun as (folder & t0 & w0 & -> & _).
    exists folder, (EvRead file :: t0). reflexivity.
  - intros (folder & t0 & Hlast). destruct b; [ reflexivity | ].
    assert (H : is_rename (EvRename file (destination folder file)) = false)
      by (eapply unmoved_task_shape; eassumption).
    discriminate.
Qed.

(** X12: when the host rejects the rename (the destination exists, say)
    after the target folder had to be created, the task logs the error and
    returns [false]; the folder stays created, nothing is undone or
    retried. *)
Theorem rejected_rename_keeps_created_folder s file content folder e (w w1 w2 w3 w4 : W) t :
  vault_read file w = (Normal content, w1) ->
  truthy (trim content) = true ->
  classifyNote s content w1 = (Normal (Some folder), w2, t) ->
  label_accepted s folder = true ->
  getAbstractFileByPath folder w2 = None ->
  vault_createFolder folder w2 = (Normal tt, w3) ->
  vault_rename file (destination folder file) w3 = (Throw e, w4) ->
  classifyAndMoveNote s file w
  = (Normal false, w4,
     EvRead file
       :: t ++ [EvCreateFolder folder;
                EvRename file (destination folder file);
                EvConsoleError (LogErrorProcessing (name file))]).
Proof.
  intros Hread Hcontent Hnote Hacc Hlookup Hcreate Hrename.
  rewrite classifyAndMoveNote_eq. unfold try_catch, bind at 1, read, call.
  rewrite Hread. unfold after_read. rewrite Hcontent. cbn [negb].
  unfold bind at 1. rewrite Hnote, Hacc.
  unfold move_to, bind, lookup_path, query, createFolder, rename, call, ret.
  cbv beta iota.
  fold (destination folder file). rewrite Hlookup, Hcreate, Hrename. cbn.
  now rewrite <- !app_assoc.
Qed.

(** X13: when the target folder cannot be created, the rename is not
    attempted: the task logs the error and returns [false]. *)
Theorem failed_folder_creation_skips_rename s file content folder e (w w1 w2 w3 : W) t :
  vault_read file w = (Normal content, w1) ->
  truthy (trim content) = true ->
  classifyNote s content w1 = (Normal (Some folder), w2, t) ->
  label_accepted s folder = true ->
  getAbstractFileByPath folder w2 = None ->
  vault_createFolder folder w2 = (Throw e, w3) ->
  classifyAndMoveNote s file w
  = (Normal false, w3,
     EvRead file
       :: t ++ [EvCreateFolder folder;
                EvConsoleError (LogErrorProcessing (name file))]).
Proof.
  intros Hread Hcontent Hnote Hacc Hlookup Hcreate.
  rewrite classifyAndMoveNote_eq. unfold try_catch, bind at 1, read, call.
  rewrite Hread. unfold after_read. rewrite Hcontent. cbn [negb].
  unfold bind at 1. rewrite Hnote, Hacc.
  unfold move_to, bind, lookup_path, query, createFolder, rename, call, ret.
  cbv beta iota.
  rewrite Hlookup, Hcreate. cbn.
  now rewrite <- !app_assoc.
Qed.

(** X20: when the answer of the model, trimmed, is one of the target
    folders, the folder exists and the host accepts the rename, the note is
    renamed to [folder/name] and the task returns [true]; white space around
    the answer does not matter, and no folder is created. *)
Theorem accepted_label_moves_the_note s file content raw d (w w1 w2 w3 : W) t :
  vault_read file w = (Normal content, w1) ->
  truthy (trim content) = true ->
  call_selected_model s (build_prompt s content) w1 = (Normal (JString raw), w2, t) ->
  label_accepted s (trim raw) = true ->
  getAbstractFileByPath (trim raw) w2 = Some d ->
  vault_rename file (destination (trim raw) file) w2 = (Normal tt, w3) ->
  classifyAndMoveNote s file w
  = (Normal true, w3,
     EvRead file :: t ++ [EvRename file (destination (trim raw) file)]).
Proof.
  intros Hread Hcontent Hcall Hacc Hlookup Hrename.
  assert (Htruthy : truthy (trim raw) = true).
  { unfold label_accepted in Hacc. now apply andb_prop in Hacc as [H _]. }
  rewrite classifyAndMoveNote_eq. unfold try_catch, bind at 1, read, call.
  rewrite Hread. unfold after_read. rewrite Hcontent. cbn [negb].
  unfold bind at 1. unfold classifyNote, try_catch, bind at 1. rewrite Hcall.
  cbn [lift trim_or_null]. rewrite Htruthy. cbv beta iota. rewrite Hacc.
  unfold move_to, bind, lookup_path, query, createFolder, rename, call, ret.
  cbv beta iota. fold (destination (trim raw) file).
  rewrite Hlookup. cbv beta iota. rewrite Hrename. cbn.
  now rewrite !app_nil_r.
Qed.

End MoreTaskProperties.

(** ** Further properties of a run *)

Section MoreRunProperties.

Context {W : Type} {host : Host W}.







(** X16: a run over [n] documents sends at most [n] requests, creates at
    most [n] folders and renames at most [n] files, whatever the order in
    which the tasks of a window are resumed: nothing is retried. *)
Theorem at_most_one_call_per_document fuel s (w : W) :
  1 <= maxWorkers s ->
  length (selected s w) < fuel ->
  exists w' t,
    performSort fuel s w = Some (Normal tt, w', t)
    /\ count is_fetch t <= length (selected s w)
    /\ count is_create t <= length (selected s w)
    /\ count is_rename t <= length (selected s w).
Proof.
  intros Hk Hfuel.
  destruct (performSort_shape s w Hk Hfuel)
    as (batches & w' & t & trs & others & _ & Hrun & Hset & Ho & Hperm & _).
  exists w', t. split; [ exact Hrun | ].
  rewrite (@shape_count is_fetch t trs others Ho Hperm) by (now intros []).
  rewrite (@shape_count is_create t trs others Ho Hperm) by (now intros []).
  rewrite (@shape_count is_rename t trs others Ho Hperm) by (now intros []).
  pose proof (@settles_at_most W host bool is_fetch 1 (Task.classifyAndMoveNote s) _ _ _
                (fun file => @task_classifyAndMoveNote_fetch W host s file) Hset) as H1.
  pose proof (@settles_at_most W host bool is_create 1 (Task.classifyAndMoveNote s) _ _ _
                (fun file => @task_classifyAndMoveNote_once W host is_create s file
                               (fun _ => eq_refl) (fun _ => eq_refl) (fun _ => eq_refl)
                               (fun folder => @task_move_to_create_once W host file folder))
                Hset) as H2.
  pose proof (@settles_at_most W host bool is_rename 1 (Task.classifyAndMoveNote s) _ _ _
                (fun file => @task_classifyAndMoveNote_once W host is_rename s file
                               (fun _ => eq_refl) (fun _ => eq_refl) (fun _ => eq_refl)
                               (fun folder => @task_move_to_rename_once W host file folder))
                Hset) as H3.
  lia.
Qed.

(** X17: the number the summary reports as moved never exceeds the number
    of renames the run issued, whatever the order in which the tasks of a
    window are resumed: a document is counted as moved only after its own
    rename. *)
Theorem moved_total_is_backed_by_renames fuel s (w : W) :
  1 <= maxWorkers s ->
  1 <= length (selected s w) < fuel ->
  exists w' t moved errors,
    performSort fuel s w = Some (Normal tt, w', t)
    /\ summary t = Some (moved, errors)
    /\ moved <= count is_rename t.
Proof.
  intros Hk Hn.
  destruct (performSort_shape s w Hk (proj2 Hn))
    as (batches & w' & t & trs & others & _ & Hrun & Hset & Ho & Hperm & Hsum).
  do 4 eexists. split; [ exact Hrun | ]. split; [ exact (Hsum (proj1 Hn)) | ].
  rewrite (@shape_count is_rename t trs others Ho Hperm) by (now intros []).
  exact (@settles_moved W host is_rename (Task.classifyAndMoveNote s) _ _ _
           (fun file => @task_classifyAndMoveNote_true W host s file) Hset).
Qed.


(** X19: when the key is set, the command opens the confirmation modal and
    does nothing else until the user answers; on Cancel no document is read,
    no request is sent and nothing is moved.  Auto-detection has already
    replaced the target folders by then. *)
Theorem cancelled_sort_touches_nothing fuel s (w : W) :
  truthy (getCurrentApiKey s) = true ->
  sort_command fuel s Cancel w
  = Some (settings_at_run s w, Normal tt, w, [EvOpenModal]).
Proof.
  intros Hkey. unfold sort_command, sortNotes, settings_at_run. now rewrite Hkey.
Qed.

End MoreRunProperties.

(** ** The further properties on concrete inputs *)

Lemma shown_folders_parse_back_witness :
  shown_target_folders work_settings = str "Work, Personal"
  /\ set_custom_folders work_settings (str "Work, Personal") = work_settings.
Proof.
  split; [ reflexivity | ].
  apply (shown_folders_parse_back work_settings).
  repeat constructor; discriminate.
Defined.

Lemma zero_bound_never_finishes_witness :
  maxWorkers zero_bound_settings = 0
  /\ @performSort unit (scripted three_notes) 1000 zero_bound_settings tt = None.
Proof.
  split; [ reflexivity | ].
  apply (@zero_bound_never_finishes unit (scripted three_notes) 1000 zero_bound_settings tt).
  - reflexivity.
  - discriminate.
Defined.

Lemma nonblank_document_is_classified_witness :
  blank (str "buy milk") = false
  /\ exists b w' t,
       @classifyAndMoveNote unit (scripted (one_note (JString (str "Work")))) work_settings
         (root_note "todo.md") tt
       = (Normal b, w',
          EvRead (root_note "todo.md")
            :: EvFetch (gemini_request work_settings (str "buy milk")) :: t).
Proof.
  split; [ reflexivity | ].
  apply (@nonblank_document_is_classified unit (scripted (one_note (JString (str "Work"))))
           work_settings Gemini (root_note "todo.md") (str "buy milk") tt tt);
    reflexivity.
Defined.

Lemma unreadable_document_is_not_classified_witness :
  @classifyAndMoveNote unit (scripted one_unreadable_note) work_settings
    (root_note "locked.md") tt
  = (Normal false, tt,
     [EvRead (root_note "locked.md");
      EvConsoleError (LogErrorProcessing (str "locked.md"))]).
Proof.
  apply (@unreadable_document_is_not_classified unit (scripted one_unreadable_note)
           work_settings (root_note "locked.md") (HostError 5) tt tt).
  reflexivity.
Defined.

Lemma failed_request_gives_no_label_witness :
  @classifyNote unit (scripted one_unreadable_note) work_settings (str "buy milk") tt
  = (Normal None, tt,
     [EvFetch (gemini_request work_settings (str "buy milk"));
      EvConsoleError (LogProviderError Gemini);
      EvConsoleError LogApiCallFailed]).
Proof.
  apply (@failed_request_gives_no_label unit (scripted one_unreadable_note)
           work_settings Gemini (str "buy milk") tt tt).
  - reflexivity.
  - left. exists (HostError 0). reflexivity.
Defined.

Lemma rejected_rename_keeps_created_folder_witness :
  @classifyAndMoveNote unit
    (scripted_moves (one_note (JString (str "Work")))
       (fun _ => Normal tt) (fun _ _ => Throw (HostError 17)))
    work_settings (root_note "todo.md") tt
  = (Normal false, tt,
     [EvRead (root_note "todo.md");
      EvFetch (gemini_request work_settings (str "buy milk"));
      EvCreateFolder (str "Work");
      EvRename (root_note "todo.md") (str "Work/todo.md");
      EvConsoleError (LogErrorProcessing (str "todo.md"))]).
Proof.
  apply (@rejected_rename_keeps_created_folder unit
           (scripted_moves (one_note (JString (str "Work")))
              (fun _ => Normal tt) (fun _ _ => Throw (HostError 17)))
           work_settings (root_note "todo.md") (str "buy milk") (str "Work")
           (HostError 17) tt tt tt tt tt
           [EvFetch (gemini_request work_settings (str "buy milk"))]);
    reflexivity.
Defined.

Lemma failed_folder_creation_skips_rename_witness :
  @classifyAndMoveNote unit
    (scripted_moves (one_note (JString (str "Work")))
       (fun _ => Throw (HostError 13)) (fun _ _ => Normal tt))
    work_settings (root_note "todo.md") tt
  = (Normal false, tt,
     [EvRead (root_note "todo.md");
      EvFetch (gemini_request work_settings (str "buy milk"));
      EvCreateFolder (str "Work");
      EvConsoleError (LogErrorProcessing (str "todo.md"))]).
Proof.
  apply (@failed_folder_creation_skips_rename unit
           (scripted_moves (one_note (JString (str "Work")))
              (fun _ => Throw (HostError 13)) (fun _ _ => Normal tt))
           work_settings (root_note "todo.md") (str "buy milk") (str "Work")
           (HostError 13) tt tt tt tt
           [EvFetch (gemini_request work_settings (str "buy milk"))]);
    reflexivity.
Defined.

Lemma accepted_label_moves_the_note_witness :
  trim padded_work = str "Work"
  /\ @classifyAndMoveNote unit (scripted (one_filed_note (JString padded_work)))
       work_settings (root_note "todo.md") tt
     = (Normal true, tt,
        [EvRead (root_note "todo.md");
         EvFetch (gemini_request work_settings (str "buy milk"));
         EvRename (root_note "todo.md") (str "Work/todo.md")]).
Proof.
  split; [ reflexivity | ].
  apply (@accepted_label_moves_the_note unit (scripted (one_filed_note (JString padded_work)))
           work_settings (root_note "todo.md") (str "buy milk") padded_work
           (AFolder {| folder_path := str "Work"; folder_name := str "Work" |})
           tt tt tt tt
           [EvFetch (gemini_request work_settings (str "buy milk"))]);
    reflexivity.
Defined.



Lemma at_most_one_call_per_document_witness :
  exists w' t,
    @performSort unit (scripted three_notes) 4 work_settings tt = Some (Normal tt, w', t)
    /\ count is_fetch t <= 3
    /\ count is_create t <= 3
    /\ count is_rename t <= 3.
Proof.
  apply (@at_most_one_call_per_document unit (scripted three_notes) 4 work_settings tt).
  - vm_compute. lia.
  - vm_compute. lia.
Defined.

Lemma moved_total_is_backed_by_renames_witness :
  exists w' t moved errors,
    @performSort unit (scripted three_notes) 4 work_settings tt = Some (Normal tt, w', t)
    /\ summary t = Some (moved, errors)
    /\ moved <= count is_rename t.
Proof.
  apply (@moved_total_is_backed_by_renames unit (scripted three_notes) 4 work_settings tt).
  - vm_compute. lia.
  - vm_compute. lia.
Defined.


Lemma cancelled_sort_touches_nothing_witness :
  @sort_command unit (scripted three_notes) 4 work_settings Cancel tt
  = Some (work_settings, Normal tt, tt, [EvOpenModal]).
Proof.
  apply (@cancelled_sort_touches_nothing unit (scripted three_notes) 4 work_settings tt).
  reflexivity.
Defined.
